(** * website_changes_tracker: a shallow embedding of [app.py]

    The program keeps three SQLite tables ([websites], [urls],
    [website_archive]) and walks a watch list, fetching pages, hashing them
    and archiving superseded snapshots.  This development embeds

    - the hasher ([get_content_hash], SHA-256 over the UTF-8 bytes), beside
      SHA-256 as FIPS 180-4 defines it on bit strings,
    - the fragment of SQLite the program's statements exercise, with the
      order in which a scan meets the rows,
    - the clock and the network as oracles read through counters, a request
      ending in a response, in a [RequestException] or in another exception,
    - every store operation and the monitoring loop,

    and states the properties of the specification over that embedding.

    Left out: what the program prints, the parsing of the command line, and
    the commit that ends [main]; none of them feeds back into the store
    operations or the loop.  Texts are Python strings that have a UTF-8
    encoding, given by their bytes. *)

From Stdlib Require Import ZArith Lia List Ascii String Sorted.
From stdpp Require Import base option list gmap strings fin_maps.

Local Open Scope Z_scope.

(** ** Hasher: [hashlib.sha256(content.encode()).hexdigest()] *)

Module SHA256.

(** 32-bit words are integers reduced modulo [2^32]. *)
Definition wrap32 (z : Z) : Z := z mod 4294967296.
Definition add32 (a b : Z) : Z := wrap32 (a + b).
Definition rotr (n x : Z) : Z :=
  Z.lor (Z.shiftr x n) (wrap32 (Z.shiftl x (32 - n))).
Definition not32 (x : Z) : Z := Z.lxor x 4294967295.

Definition choose (x y z : Z) : Z :=
  Z.lxor (Z.land x y) (Z.land (not32 x) z).
Definition majority (x y z : Z) : Z :=
  Z.lxor (Z.lxor (Z.land x y) (Z.land x z)) (Z.land y z).
Definition big_sigma0 (x : Z) : Z :=
  Z.lxor (Z.lxor (rotr 2 x) (rotr 13 x)) (rotr 22 x).
Definition big_sigma1 (x : Z) : Z :=
  Z.lxor (Z.lxor (rotr 6 x) (rotr 11 x)) (rotr 25 x).
Definition small_sigma0 (x : Z) : Z :=
  Z.lxor (Z.lxor (rotr 7 x) (rotr 18 x)) (Z.shiftr x 3).
Definition small_sigma1 (x : Z) : Z :=
  Z.lxor (Z.lxor (rotr 17 x) (rotr 19 x)) (Z.shiftr x 10).

(** The round constants: the first 32 bits of the fractional parts of the
    cube roots of the first 64 primes. *)
Definition round_constants : list Z :=
  [ 1116352408; 1899447441; 3049323471; 3921009573; 961987163; 1508970993;
    2453635748; 2870763221; 3624381080; 310598401; 607225278; 1426881987;
    1925078388; 2162078206; 2614888103; 3248222580; 3835390401; 4022224774;
    264347078; 604807628; 770255983; 1249150122; 1555081692; 1996064986;
    2554220882; 2821834349; 2952996808; 3210313671; 3336571891; 3584528711;
    113926993; 338241895; 666307205; 773529912; 1294757372; 1396182291;
    1695183700; 1986661051; 2177026350; 2456956037; 2730485921; 2820302411;
    3259730800; 3345764771; 3516065817; 3600352804; 4094571909; 275423344;
    430227734; 506948616; 659060556; 883997877; 958139571; 1322822218;
    1537002063; 1747873779; 1955562222; 2024104815; 2227730452; 2361852424;
    2428436474; 2756734187; 3204031479; 3329325298 ].

(** The eight chaining words; the initial ones are the first 32 bits of the
    fractional parts of the square roots of the first 8 primes. *)
Record chain := Chain {
  wa : Z; wb : Z; wc : Z; wd : Z; we : Z; wf : Z; wg : Z; wh : Z }.

Definition initial_chain : chain :=
  Chain 1779033703 3144134277 1013904242 2773480762
        1359893119 2600822924 528734635 1541459225.

(** Message padding: a [128] byte, zeros up to 56 modulo 64, then the bit
    length as a 64-bit big-endian integer. *)
Definition big_endian (width : nat) (z : Z) : list Z :=
  map (fun i => (z / 256 ^ Z.of_nat i) mod 256) (rev (seq 0 width)).

Definition pad (msg : list Z) : list Z :=
  let len := Z.of_nat (length msg) in
  msg ++ [128] ++ repeat 0 (Z.to_nat ((55 - len) mod 64))
      ++ big_endian 8 (8 * len).

Fixpoint words_of_bytes (n : nat) (bs : list Z) : list Z :=
  match n with
  | O => []
  | S n' =>
      match bs with
      | b0 :: b1 :: b2 :: b3 :: rest =>
          (((b0 * 256 + b1) * 256 + b2) * 256 + b3) :: words_of_bytes n' rest
      | _ => []
      end
  end.

(** The message schedule is grown newest word first: position [i] of the
    accumulator is [W(t-1-i)]. *)
Definition next_schedule_word (acc : list Z) : Z :=
  add32 (add32 (add32 (small_sigma1 (nth 1 acc 0)) (nth 6 acc 0))
               (small_sigma0 (nth 14 acc 0)))
        (nth 15 acc 0).

Fixpoint extend_schedule (n : nat) (acc : list Z) : list Z :=
  match n with
  | O => acc
  | S n' => extend_schedule n' (next_schedule_word acc :: acc)
  end.

Definition schedule (block : list Z) : list Z :=
  rev (extend_schedule 48 (rev block)).

Definition round (c : chain) (kw : Z * Z) : chain :=
  let t1 := add32 (add32 (add32 (add32 (wh c) (big_sigma1 (we c)))
                                (choose (we c) (wf c) (wg c)))
                         (fst kw))
                  (snd kw) in
  let t2 := add32 (big_sigma0 (wa c)) (majority (wa c) (wb c) (wc c)) in
  Chain (add32 t1 t2) (wa c) (wb c) (wc c)
        (add32 (wd c) t1) (we c) (wf c) (wg c).

Definition compress (c : chain) (block : list Z) : chain :=
  let r := fold_left round (combine round_constants (schedule block)) c in
  Chain (add32 (wa c) (wa r)) (add32 (wb c) (wb r))
        (add32 (wc c) (wc r)) (add32 (wd c) (wd r))
        (add32 (we c) (we r)) (add32 (wf c) (wf r))
        (add32 (wg c) (wg r)) (add32 (wh c) (wh r)).

Fixpoint absorb (blocks : nat) (ws : list Z) (c : chain) : chain :=
  match blocks with
  | O => c
  | S n => absorb n (skipn 16 ws) (compress c (firstn 16 ws))
  end.

Definition digest (msg : list Z) : chain :=
  let padded := pad msg in
  let ws := words_of_bytes (length padded / 4) padded in
  absorb (length ws / 16) ws initial_chain.

(** Lower-case hexadecimal rendering, eight digits per word. *)
Definition hex_digit (z : Z) : ascii :=
  nth (Z.to_nat (z mod 16))
      (list_ascii_of_string "0123456789abcdef") "0"%char.

Definition hex_word (w : Z) : list ascii :=
  map (fun i => hex_digit (w / 16 ^ Z.of_nat i)) (rev (seq 0 8)).

Definition chain_words (c : chain) : list Z :=
  [wa c; wb c; wc c; wd c; we c; wf c; wg c; wh c].

Definition hexdigest (c : chain) : string :=
  string_of_list_ascii (concat (map hex_word (chain_words c))).

End SHA256.

(** [str.encode()]: strings of the model are the UTF-8 byte sequences of the
    Python strings they stand for. *)
Definition encode (s : string) : list Z :=
  map (fun a => Z.of_N (N_of_ascii a)) (list_ascii_of_string s).

Definition get_content_hash (content : string) : string :=
  SHA256.hexdigest (SHA256.digest (encode content)).

(** ** Timestamps: [datetime], the sqlite3 adapter and [strptime]

    A naive [datetime] is represented by its number of microseconds since
    0001-01-01 00:00:00; Python confines it to the years 1..9999. *)

Module Datetime.

Definition us_per_second : Z := 1000000.
Definition us_per_minute : Z := 60 * us_per_second.
Definition us_per_day : Z := 86400 * us_per_second.
Definition max_ordinal : Z := 3652059.

Definition valid (t : Z) : bool :=
  (0 <=? t) && (t <? max_ordinal * us_per_day).

Definition is_leap (y : Z) : bool :=
  (y mod 4 =? 0) && (negb (y mod 100 =? 0) || (y mod 400 =? 0)).

Definition month_lengths : list Z :=
  [0; 31; 28; 31; 30; 31; 30; 31; 31; 30; 31; 30; 31].
Definition month_offsets : list Z :=
  [0; 0; 31; 59; 90; 120; 151; 181; 212; 243; 273; 304; 334].

Definition days_in_month (y m : Z) : Z :=
  if (m =? 2) && is_leap y then 29 else nth (Z.to_nat m) month_lengths 0.

Definition days_before_month (y m : Z) : Z :=
  nth (Z.to_nat m) month_offsets 0 + (if (2 <? m) && is_leap y then 1 else 0).

Definition days_before_year (y : Z) : Z :=
  let p := y - 1 in p * 365 + p / 4 - p / 100 + p / 400.

Definition ymd2ord (y m d : Z) : Z :=
  days_before_year y + days_before_month y m + d.

(** [_ord2ymd] of the [datetime] module: 400-, 100-, 4- and 1-year
    cycles, then an estimate of the month corrected downwards. *)
Definition ord2ymd (ordinal : Z) : Z * Z * Z :=
  let n := ordinal - 1 in
  let n400 := n / 146097 in let n := n mod 146097 in
  let n100 := n / 36524 in let n := n mod 36524 in
  let n4 := n / 1461 in let n := n mod 1461 in
  let n1 := n / 365 in let n := n mod 365 in
  let year := n400 * 400 + 1 + n100 * 100 + n4 * 4 + n1 in
  if (n1 =? 4) || (n100 =? 4) then (year - 1, 12, 31)
  else
    let leapyear := (n1 =? 3) && (negb (n4 =? 24) || (n100 =? 3)) in
    let month := Z.shiftr (n + 50) 5 in
    let preceding :=
      nth (Z.to_nat month) month_offsets 0
      + (if (2 <? month) && leapyear then 1 else 0) in
    if n <? preceding then
      let month' := month - 1 in
      let preceding' :=
        preceding - (nth (Z.to_nat month') month_lengths 0
                     + (if (month' =? 2) && leapyear then 1 else 0)) in
      (year, month', n - preceding' + 1)
    else (year, month, n - preceding + 1).

Definition digit_char (z : Z) : ascii := ascii_of_N (Z.to_N (48 + z mod 10)).

(** [%0<width>d] *)
Definition zero_padded (width : nat) (z : Z) : list ascii :=
  map (fun i => digit_char (z / 10 ^ Z.of_nat i)) (rev (seq 0 width)).

(** [datetime.isoformat(" ")]: the fraction is left out when it is zero. *)
Definition isoformat (t : Z) : string :=
  let '(y, m, d) := ord2ymd (t / us_per_day + 1) in
  let secs := (t mod us_per_day) / us_per_second in
  let us := t mod us_per_second in
  string_of_list_ascii
    (zero_padded 4 y ++ ["-"%char] ++ zero_padded 2 m ++ ["-"%char]
     ++ zero_padded 2 d ++ [" "%char]
     ++ zero_padded 2 (secs / 3600) ++ [":"%char]
     ++ zero_padded 2 (secs mod 3600 / 60) ++ [":"%char]
     ++ zero_padded 2 (secs mod 60)
     ++ (if us =? 0 then [] else "."%char :: zero_padded 6 us)).

(** *** [datetime.strptime(text, '%Y-%m-%d %H:%M:%S.%f')]

    [_strptime] compiles the format to a regular expression and takes the
    first match in backtracking order; each piece below lists its matches
    in that order, paired with the remaining input. *)
Definition matches (A : Type) : Type := list (A * list ascii).

Definition code (a : ascii) : Z := Z.of_N (N_of_ascii a).
Definition is_digit (a : ascii) : bool := (48 <=? code a) && (code a <=? 57).
Definition is_space (a : ascii) : bool :=
  (code a =? 32) || ((9 <=? code a) && (code a <=? 13))
  || ((28 <=? code a) && (code a <=? 31)).
Definition digit_value (a : ascii) : Z := code a - 48.

Definition literal (c : ascii) (s : list ascii) : matches unit :=
  match s with
  | a :: rest => if Ascii.eqb a c then [(tt, rest)] else []
  | [] => []
  end.

Definition two_digits (ok : Z -> Z -> bool) (s : list ascii) : matches Z :=
  match s with
  | a :: b :: rest =>
      if is_digit a && is_digit b && ok (digit_value a) (digit_value b)
      then [(10 * digit_value a + digit_value b, rest)] else []
  | _ => []
  end.

Definition one_digit (ok : Z -> bool) (s : list ascii) : matches Z :=
  match s with
  | a :: rest =>
      if is_digit a && ok (digit_value a) then [(digit_value a, rest)] else []
  | [] => []
  end.

(** [%Y] = [\d\d\d\d] *)
Definition year_field (s : list ascii) : matches Z :=
  match s with
  | a :: b :: c :: d :: rest =>
      if is_digit a && is_digit b && is_digit c && is_digit d
      then [(((digit_value a * 10 + digit_value b) * 10 + digit_value c) * 10
             + digit_value d, rest)]
      else []
  | _ => []
  end.

(** [%m] = [1[0-2]|0[1-9]|[1-9]] *)
Definition month_field (s : list ascii) : matches Z :=
  two_digits (fun a b => ((a =? 1) && (b <=? 2)) || ((a =? 0) && (1 <=? b))) s
  ++ one_digit (fun a => 1 <=? a) s.

(** [%d] = [3[0-1]|[1-2]\d|0[1-9]|[1-9]| [1-9]] *)
Definition day_field (s : list ascii) : matches Z :=
  two_digits (fun a b => ((a =? 3) && (b <=? 1)) || (a =? 1) || (a =? 2)
                         || ((a =? 0) && (1 <=? b))) s
  ++ one_digit (fun a => 1 <=? a) s
  ++ match s with
     | sp :: rest => if Ascii.eqb sp " " then one_digit (fun a => 1 <=? a) rest
                     else []
     | [] => []
     end.

(** [%H] = [2[0-3]|[0-1]\d|\d] *)
Definition hour_field (s : list ascii) : matches Z :=
  two_digits (fun a b => ((a =? 2) && (b <=? 3)) || (a <=? 1)) s
  ++ one_digit (fun _ => true) s.

(** [%M] = [[0-5]\d|\d] *)
Definition minute_field (s : list ascii) : matches Z :=
  two_digits (fun a _ => a <=? 5) s ++ one_digit (fun _ => true) s.

(** [%S] = [6[0-1]|[0-5]\d|\d] *)
Definition second_field (s : list ascii) : matches Z :=
  two_digits (fun a b => ((a =? 6) && (b <=? 1)) || (a <=? 5)) s
  ++ one_digit (fun _ => true) s.

(** A blank in the format is [\s+]: the longest run first. *)
Fixpoint spaces (s : list ascii) : matches unit :=
  match s with
  | a :: rest => if is_space a then spaces rest ++ [(tt, rest)] else []
  | [] => []
  end.

(** [%f] = [[0-9]{1,6}], greedy, right-padded with zeros to microseconds. *)
Fixpoint fraction_digits (n : nat) (scale : Z) (acc : Z) (s : list ascii)
  : matches Z :=
  match n, s with
  | S n', a :: rest =>
      if is_digit a then
        let acc' := acc + digit_value a * scale in
        fraction_digits n' (scale / 10) acc' rest ++ [(acc', rest)]
      else []
  | _, _ => []
  end.

Definition fraction_field : list ascii -> matches Z :=
  fraction_digits 6 100000 0.

Definition then_ {A B : Type} (p : matches A) (k : A -> list ascii -> matches B)
  : matches B :=
  concat (map (fun ar => k (fst ar) (snd ar)) p).

Definition timestamp_matches (s : list ascii)
  : matches (Z * Z * Z * Z * Z * Z * Z) :=
  then_ (year_field s) (fun y s =>
  then_ (literal "-" s) (fun _ s =>
  then_ (month_field s) (fun m s =>
  then_ (literal "-" s) (fun _ s =>
  then_ (day_field s) (fun d s =>
  then_ (spaces s) (fun _ s =>
  then_ (hour_field s) (fun h s =>
  then_ (literal ":" s) (fun _ s =>
  then_ (minute_field s) (fun mi s =>
  then_ (literal ":" s) (fun _ s =>
  then_ (second_field s) (fun sec s =>
  then_ (literal "." s) (fun _ s =>
  then_ (fraction_field s) (fun f s =>
    [((y, m, d, h, mi, sec, f), s)]))))))))))))).

(** [None] stands for the [ValueError] raised when the text does not match,
    when data remains after the match, or when the fields are not a date. *)
Definition strptime (text : string) : option Z :=
  match timestamp_matches (list_ascii_of_string text) with
  | ((y, m, d, h, mi, sec, f), []) :: _ =>
      if (1 <=? y) && (d <=? days_in_month y m) && (sec <=? 59)
      then Some (((((ymd2ord y m d - 1) * 24 + h) * 60 + mi) * 60 + sec)
                 * us_per_second + f)
      else None
  | _ => None
  end.

(** [dt - timedelta(minutes=w)]: [OverflowError] ([None]) outside the
    years 1..9999. *)
Definition minus_minutes (t w : Z) : option Z :=
  let r := t - w * us_per_minute in
  if valid r then Some r else None.

End Datetime.

(** ** The SQLite fragment

    The program binds only [str] parameters and [datetime] parameters, which
    the sqlite3 module adapts to ISO text, so a stored value is either NULL
    (Python [None]) or TEXT (a Python [str]).  The columns declared TEXT keep
    a text as it is, and the ISO texts written to the [DATETIME] columns do
    not look like numbers, so their NUMERIC affinity never converts them.

    A table is its column names, the column declared PRIMARY KEY if any, and
    its rows in storage order (the order of their rowids, which is the order
    in which they were inserted), each row aligned with the columns. *)

Definition value : Type := option string.

Record table := Table {
  columns : list string;
  primary_key : option string;
  rows : list (list value) }.

Abbreviation database := (gmap string table).

Inductive exn :=
| OperationalError | IntegrityError | ProgrammingError
| TypeError | IndexError | ValueError | OverflowError | AttributeError
| AssertionError.

(** [isinstance(e, sqlite3.Error)] *)
Definition is_sqlite_error (e : exn) : bool :=
  match e with
  | OperationalError | IntegrityError | ProgrammingError => true
  | _ => false
  end.

Inductive outcome (A : Type) :=
| Return (a : A)
| Raise (e : exn).
Arguments Return {A} a.
Arguments Raise {A} e.

Global Instance outcome_ret : MRet outcome := fun A a => Return a.
Global Instance outcome_bind : MBind outcome := fun A B k m =>
  match m with
  | Return a => k a
  | Raise e => Raise e
  end.

Module Sql.

Fixpoint position (c : string) (cols : list string) : option nat :=
  match cols with
  | [] => None
  | x :: xs => if String.eqb x c then Some O else S <$> position c xs
  end.

Definition cell (i : nat) (r : list value) : value := default None (r !! i).

(** [WHERE col = ?] with a text parameter: NULL never compares equal. *)
Definition row_matches (i : nat) (x : string) (r : list value) : bool :=
  bool_decide (cell i r = Some x).

(** "no such table" *)
Definition find_table (name : string) (d : database) : outcome table :=
  match d !! name with
  | Some t => Return t
  | None => Raise OperationalError
  end.

(** "no such column" *)
Definition find_column (c : string) (t : table) : outcome nat :=
  match position c (columns t) with
  | Some i => Return i
  | None => Raise OperationalError
  end.

Definition has_column (c : string) (t : table) : bool :=
  if position c (columns t) is Some _ then true else false.

Definition with_rows (t : table) (rs : list (list value)) : table :=
  Table (columns t) (primary_key t) rs.

(** [SELECT col FROM name WHERE wcol = ?] *)
Definition select_where (col name wcol x : string) (d : database)
  : outcome (list (list value)) :=
  t ← find_table name d;
  i ← find_column col t;
  w ← find_column wcol t;
  Return (map (fun r => [cell i r]) (filter (row_matches w x) (rows t))).

(** [SELECT * FROM name WHERE wcol = ?] *)
Definition select_star_where (name wcol x : string) (d : database)
  : outcome (list (list value)) :=
  t ← find_table name d;
  w ← find_column wcol t;
  Return (filter (row_matches w x) (rows t)).

(** The order of the index of a PRIMARY KEY column that holds texts: NULL
    comes before every text, and texts compare by their bytes (the BINARY
    collation). *)
Definition key_le (a b : value) : bool :=
  match a, b with
  | None, _ => true
  | Some _, None => false
  | Some x, Some y => String.leb x y
  end.

(** The rows in the order of the index on column [i]: by ascending key, rows
    with equal keys in storage order. *)
Fixpoint index_insert (i : nat) (r : list value) (sorted : list (list value))
  : list (list value) :=
  match sorted with
  | [] => [r]
  | r' :: rest =>
      if key_le (cell i r) (cell i r') then r :: sorted
      else r' :: index_insert i r rest
  end.

Definition index_order (i : nat) (rs : list (list value)) : list (list value) :=
  foldr (index_insert i) [] rs.

(** The order in which a scan for column [col] alone meets the rows: storage
    order, unless [col] is the PRIMARY KEY of a table that has further
    columns.  The index of the key then holds all the query asks for and is
    smaller than the table, and SQLite scans the index instead. *)
Definition scan_order (col : string) (i : nat) (t : table)
  : list (list value) :=
  if bool_decide (primary_key t = Some col) && (1 <? length (columns t))%nat
  then index_order i (rows t)
  else rows t.

(** [SELECT col FROM name] *)
Definition select_all (col name : string) (d : database)
  : outcome (list (list value)) :=
  t ← find_table name d;
  i ← find_column col t;
  Return (map (fun r => [cell i r]) (scan_order col i t)).

(** A new row repeats a non-NULL key already in the table.  (SQLite lets
    NULL keys repeat in a non-INTEGER PRIMARY KEY.) *)
Definition key_taken (t : table) (r : list value) : bool :=
  match primary_key t with
  | Some k =>
      match position k (columns t) with
      | Some i =>
          match cell i r with
          | Some x => existsb (row_matches i x) (rows t)
          | None => false
          end
      | None => false
      end
  | None => false
  end.

(** [INSERT [OR IGNORE] INTO name (cols) VALUES (?, ...)]: the statement is
    compiled first ("no column named"), then the parameters are bound
    ("incorrect number of bindings"); columns left out are NULL. *)
Definition insert (or_ignore : bool) (name : string) (cols : list string)
    (vals : list value) (d : database) : outcome database :=
  t ← find_table name d;
  if negb (forallb (fun c => has_column c t) cols)
  then Raise OperationalError
  else if negb (length cols =? length vals)%nat then Raise ProgrammingError
  else
    let r := map (fun c => match position c cols with
                           | Some j => cell j vals
                           | None => None
                           end) (columns t) in
    if key_taken t r then
      if or_ignore then Return d else Raise IntegrityError
    else Return (<[name := with_rows t (rows t ++ [r])]> d).

Fixpoint distinct_keys (i : nat) (rs : list (list value)) : bool :=
  match rs with
  | [] => true
  | r :: rest =>
      match cell i r with
      | Some x => negb (existsb (row_matches i x) rest)
      | None => true
      end && distinct_keys i rest
  end.

(** [UPDATE name SET col = ? WHERE wcol = ?] *)
Definition update (name col : string) (v : value) (wcol x : string)
    (d : database) : outcome database :=
  t ← find_table name d;
  i ← find_column col t;
  w ← find_column wcol t;
  let rs := map (fun r => if row_matches w x r then <[i := v]> r else r)
                (rows t) in
  if bool_decide (primary_key t = Some col) && negb (distinct_keys i rs)
  then Raise IntegrityError
  else Return (<[name := with_rows t rs]> d).

(** [DELETE FROM name WHERE wcol = ?] *)
Definition delete_where (name wcol x : string) (d : database)
  : outcome database :=
  t ← find_table name d;
  w ← find_column wcol t;
  Return (<[name := with_rows t
                      (filter (fun r => negb (row_matches w x r)) (rows t))]> d).

(** [CREATE TABLE IF NOT EXISTS name (...)] *)
Definition create_table_if_not_exists (name : string) (cols : list string)
    (key : option string) (d : database) : database :=
  match d !! name with
  | Some _ => d
  | None => <[name := Table cols key []]> d
  end.

End Sql.

(** ** The world around the program

    [datetime.now()] and [requests.get] are oracles: the n-th reading of the
    clock and the n-th request are fixed by the environment, and the state
    counts how many of each the program has made. *)

Inductive reply :=
| NoReply                               (* a [RequestException] was raised *)
| Reply (status : Z) (text : string)    (* a response arrived *)
| Escaped (x : exn).                    (* an exception of another kind was raised *)

Record env := Env {
  clock : nat -> Z;
  network : nat -> string -> reply }.

Record state := State {
  db : database;
  ticks : nat;
  requests : nat }.

Definition M (A : Type) : Type := env -> state -> outcome A * state.

Global Instance M_ret : MRet M := fun A a _ st => (Return a, st).
Global Instance M_bind : MBind M := fun A B k m e st =>
  match m e st with
  | (Return a, st') => k a e st'
  | (Raise x, st') => (Raise x, st')
  end.

Definition raise {A : Type} (x : exn) : M A := fun _ st => (Raise x, st).

(** What [cursor.execute] can bind as a TEXT parameter.  The strings of the
    model are UTF-8 byte sequences; the bytes of a Python [str] are
    well-formed UTF-8 (Unicode 15, table 3-7), and a [str] without such an
    encoding, one with a lone surrogate, makes [execute] raise a
    [UnicodeEncodeError] before the statement runs.  So does, with an
    [OverflowError], a text of more than [INT_MAX] bytes. *)
Definition continuation (b : Z) : bool := (128 <=? b) && (b <=? 191).

Fixpoint well_formed_utf8 (bs : list Z) : bool :=
  match bs with
  | [] => true
  | b0 :: bs1 =>
      if b0 <=? 127 then well_formed_utf8 bs1
      else
        match bs1 with
        | [] => false
        | b1 :: bs2 =>
            if (194 <=? b0) && (b0 <=? 223)
            then continuation b1 && well_formed_utf8 bs2
            else
              match bs2 with
              | [] => false
              | b2 :: bs3 =>
                  if (224 <=? b0) && (b0 <=? 239)
                  then
                    (if b0 =? 224 then (160 <=? b1) && (b1 <=? 191)
                     else if b0 =? 237 then (128 <=? b1) && (b1 <=? 159)
                     else continuation b1)
                    && continuation b2 && well_formed_utf8 bs3
                  else
                    match bs3 with
                    | [] => false
                    | b3 :: bs4 =>
                        (240 <=? b0) && (b0 <=? 244)
                        && (if b0 =? 240 then (144 <=? b1) && (b1 <=? 191)
                            else if b0 =? 244 then (128 <=? b1) && (b1 <=? 143)
                            else continuation b1)
                        && continuation b2 && continuation b3
                        && well_formed_utf8 bs4
                    end
              end
        end
  end.

Definition bindable (s : string) : Prop :=
  well_formed_utf8 (encode s) = true
  /\ Z.of_nat (String.length s) <= 2147483647.

(** [cursor.execute] of a statement that changes the store, its parameters
    [bindable]. *)
Definition execute (stmt : database -> outcome database) : M unit :=
  fun _ st =>
    match stmt (db st) with
    | Return d => (Return tt, State d (ticks st) (requests st))
    | Raise x => (Raise x, st)
    end.

(** [cursor.execute] of a SELECT followed by [cursor.fetchall()]. *)
Definition fetchall (q : database -> outcome (list (list value)))
  : M (list (list value)) :=
  fun _ st =>
    match q (db st) with
    | Return rs => (Return rs, st)
    | Raise x => (Raise x, st)
    end.

(** [cursor.execute] of a SELECT followed by [cursor.fetchone()]. *)
Definition fetchone (q : database -> outcome (list (list value)))
  : M (option (list value)) :=
  rs ← fetchall q; mret (head rs).

(** [data[i]] on what [fetchone] returned. *)
Definition subscript (data : option (list value)) (i : nat) : M value :=
  match data with
  | None => raise TypeError
  | Some r =>
      match r !! i with
      | Some v => mret v
      | None => raise IndexError
      end
  end.

Definition datetime_now : M Z :=
  fun e st => (Return (clock e (ticks st)), State (db st) (S (ticks st)) (requests st)).

(** [try: body except sqlite3.Error: print(...)] *)
Definition except_sqlite_error (body : M unit) : M unit :=
  fun e st =>
    match body e st with
    | (Raise x, st') =>
        if is_sqlite_error x then (Return tt, st') else (Raise x, st')
    | r => r
    end.

Fixpoint for_each {A : Type} (l : list A) (body : A -> M unit) : M unit :=
  match l with
  | [] => mret tt
  | a :: rest => body a;; for_each rest body
  end.

(** ** The program *)

Definition snapshot_columns : list string :=
  ["url"; "timestamp"; "content_hash"; "content"]%string.

Definition create_tables : M unit :=
  execute (fun d => Return
    (Sql.create_table_if_not_exists "websites" snapshot_columns (Some "url"%string) d));;
  execute (fun d => Return
    (Sql.create_table_if_not_exists "website_archive" snapshot_columns None d));;
  execute (fun d => Return
    (Sql.create_table_if_not_exists "urls" ["url"%string] (Some "url"%string) d)).

Definition update_urls (new_urls : list string) : M unit :=
  timestamp ← datetime_now;
  for_each new_urls (fun url =>
    except_sqlite_error (
      execute (Sql.insert true "urls" ["url"; "last_checked"]%string
                 [Some url; Some (Datetime.isoformat timestamp)]);;
      execute (Sql.update "urls" "last_checked"
                 (Some (Datetime.isoformat timestamp)) "url" url))).

Definition remove_urls (del_urls : list string) : M unit :=
  for_each del_urls (fun url =>
    except_sqlite_error (execute (Sql.delete_where "urls" "url" url))).

Definition get_all_urls : M (list value) :=
  rs ← fetchall (Sql.select_all "url" "urls");
  mret (map (Sql.cell 0) rs).

(** The request ends in a [RequestException]: [requests.get] raised one, or
    [raise_for_status()] raised an [HTTPError] for a 4xx or 5xx status. *)
Definition fetch_failed (r : reply) : bool :=
  match r with
  | NoReply => true
  | Reply status _ => (400 <=? status) && (status <? 600)
  | Escaped _ => false
  end.

(** What [get_website_content] returns when it returns: the empty string
    from its [except] clause, or the text of the response. *)
Definition response_text (r : reply) : string :=
  match r with
  | Reply _ text => if fetch_failed r then EmptyString else text
  | _ => EmptyString
  end.

(** [get_website_content]: the [except] clause names [RequestException]
    only, so an exception of any other kind raised under [requests.get]
    (urllib3's [LocationParseError], a [ValueError], for a host with an empty
    label is one) leaves the function, and the loop that called it. *)
Definition get_website_content (url : string) : M string :=
  fun e st =>
    let st' := State (db st) (ticks st) (S (requests st)) in
    match network e (requests st) url with
    | Escaped x => (Raise x, st')
    | r => (Return (response_text r), st')
    end.

Definition should_fetch_content (url : string) (time_delta_minutes : Z)
  : M (bool * value) :=
  hash_result ← fetchone (Sql.select_where "content_hash" "websites" "url" url);
  timestamp_row ← fetchone (Sql.select_where "last_checked" "urls" "url" url);
  timestamp ← subscript timestamp_row 0;
  match hash_result with
  | None => mret (true, None)
  | Some _ =>
      old_content_hash ← subscript hash_result 0;
      datetime_last_checked ←
        match timestamp with
        | None => raise TypeError
        | Some text =>
            match Datetime.strptime text with
            | Some t => mret t
            | None => raise ValueError
            end
        end;
      now ← datetime_now;
      timestamp_now_minus_window ←
        match Datetime.minus_minutes now time_delta_minutes with
        | Some t => mret t
        | None => raise OverflowError
        end;
      if datetime_last_checked <? timestamp_now_minus_window
      then mret (true, old_content_hash)
      else mret (false, None)
  end.

Definition store_website_content (url content : string) : M unit :=
  timestamp ← datetime_now;
  let content_hash := get_content_hash content in
  execute (Sql.insert false "websites" snapshot_columns
             [Some url; Some (Datetime.isoformat timestamp);
              Some content_hash; Some content]).

Definition archive_old_website_content (url : string) : M value :=
  data ← fetchone (Sql.select_star_where "websites" "url" url);
  website_content ← subscript data 3;
  match data with
  | None => raise AssertionError
  | Some params =>
      execute (Sql.insert false "website_archive" snapshot_columns params);;
      execute (Sql.delete_where "websites" "url" url);;
      mret website_content
  end.

(** [highlight_diffs] only feeds [print]; what matters to the run is that it
    calls [splitlines] on both arguments, which needs two [str] (pygments is
    taken to be installed). *)
Definition highlight_diffs (old_content new_content : value) : M unit :=
  match old_content, new_content with
  | Some _, Some _ => mret tt
  | _, _ => raise AttributeError
  end.

Record stats := Stats {
  num_errors : Z;
  num_fetches : Z;
  num_changes : Z;
  num_new_pages : Z }.

(** The body of the loop of [monitor_website_changes]. *)
Definition monitor_url (time_delta_minutes : Z) (s : stats) (url : string)
  : M stats :=
  '(should_fetch, old_content_hash) ← should_fetch_content url time_delta_minutes;
  if should_fetch : bool then
    let s := Stats (num_errors s) (num_fetches s + 1) (num_changes s)
                   (num_new_pages s) in
    current_content ← get_website_content url;
    if bool_decide (current_content = EmptyString) then
      mret (Stats (num_errors s + 1) (num_fetches s) (num_changes s)
                  (num_new_pages s))
    else
      let current_content_hash := get_content_hash current_content in
      s ← match old_content_hash with
          | None =>
              let s := Stats (num_errors s) (num_fetches s) (num_changes s)
                             (num_new_pages s + 1) in
              store_website_content url current_content;;
              mret s
          | Some old_hash =>
              if bool_decide (old_hash ≠ current_content_hash) then
                let s := Stats (num_errors s) (num_fetches s)
                               (num_changes s + 1) (num_new_pages s) in
                old_content ← archive_old_website_content url;
                highlight_diffs (Some current_content) old_content;;
                store_website_content url current_content;;
                mret s
              else mret s
          end;
      now ← datetime_now;
      execute (Sql.update "urls" "last_checked"
                 (Some (Datetime.isoformat now)) "url" url);;
      mret s
  else mret s.

(** The loop itself, with the counters it has accumulated so far. *)
Fixpoint monitor_loop (time_delta_minutes : Z) (s : stats) (urls : list string)
  : M stats :=
  match urls with
  | [] => mret s
  | url :: rest =>
      s' ← monitor_url time_delta_minutes s url;
      monitor_loop time_delta_minutes s' rest
  end.

Definition monitor_website_changes (urls : list string) (time_delta_minutes : Z)
  : M stats :=
  monitor_loop time_delta_minutes (Stats 0 0 0 0) urls.

(** ** Vocabulary of the properties *)

(** A computation respects a relation on stores when the store it leaves,
    whether it returns or raises, is related to the store it found. *)
Definition respects (R : database -> database -> Prop) {A : Type} (m : M A)
  : Prop :=
  forall (e : env) (st : state), R (db st) (db (snd (m e st))).

(** The store operations of the program, for sequences of calls. *)
Inductive store_op :=
| StoreContent (url content : string)
| ArchiveContent (url : string)
| UpdateUrls (new_urls : list string)
| RemoveUrls (del_urls : list string).

Definition run_op (o : store_op) : M unit :=
  match o with
  | StoreContent url content => store_website_content url content
  | ArchiveContent url => archive_old_website_content url;; mret tt
  | UpdateUrls new_urls => update_urls new_urls
  | RemoveUrls del_urls => remove_urls del_urls
  end.

(** States reached from an empty database by [create_tables] followed by any
    calls of the store operations, each call counted whether it returned or
    raised. *)
Inductive reachable (e : env) : state -> Prop :=
| reachable_created (t r : nat) :
    reachable e (snd (create_tables e (State ∅ t r)))
| reachable_step (st : state) (o : store_op) :
    reachable e st -> reachable e (snd (run_op o e st)).

(** The [websites] table is keyed by [url] and holds at most one row for
    each URL. *)
Definition one_snapshot_per_url (d : database) : Prop :=
  exists snapshots : list (list value),
    d !! "websites"%string
      = Some (Table snapshot_columns (Some "url"%string) snapshots)
    /\ forall url : string,
         (length (filter (Sql.row_matches 0 url) snapshots) <= 1)%nat.

Definition keeps_one_snapshot (d d' : database) : Prop :=
  one_snapshot_per_url d -> one_snapshot_per_url d'.

(** Every [websites] row of [d'] is a row of [d] or has a non-empty text in
    its [content] column. *)
Definition only_adds_content (d d' : database) : Prop :=
  forall t : table,
    d !! "websites"%string = Some t ->
    columns t = snapshot_columns ->
    exists t' : table,
      d' !! "websites"%string = Some t'
      /\ columns t' = snapshot_columns
      /\ forall row : list value,
           row ∈ rows t' ->
           row ∈ rows t
           \/ exists content : string,
                row !! 3%nat = Some (Some content) /\ content <> EmptyString.

(** The alphabet of [hexdigest]. *)
Definition hex_alphabet : list ascii := list_ascii_of_string "0123456789abcdef".

(** ** Stores and environments used as concrete inputs *)

Definition watch_columns : list string := ["url"; "last_checked"]%string.

(** A store laid out the way the statements of the program expect: the two
    snapshot tables as [create_tables] declares them and a watch list that
    carries [last_checked]. *)
Definition tracked_store (snapshots watched archived : list (list value))
  : database :=
  <["urls"%string := Table watch_columns (Some "url"%string) watched]>
    (<["website_archive"%string := Table snapshot_columns None archived]>
       (<["websites"%string := Table snapshot_columns (Some "url"%string) snapshots]>
          ∅)).

Definition snapshot_row (url : string) (t : Z) (content : string) : list value :=
  [Some url; Some (Datetime.isoformat t); Some (get_content_hash content);
   Some content].

Definition page : string := "http://example.com".

(** 2024-01-04 12:00:00.500000 *)
Definition checked_at : Z := 63839966400500000.

Definition watching_store : database :=
  tracked_store [snapshot_row page checked_at "v1"]
                [[Some page; Some (Datetime.isoformat checked_at)]] [].

(** A clock that always reads [minutes] minutes after [checked_at], and a
    network that always gives the same reply. *)
Definition world_after (minutes : Z) (r : reply) : env :=
  Env (fun _ => checked_at + minutes * Datetime.us_per_minute) (fun _ _ => r).

(** A watched page whose host has an empty label: [requests.get] lets
    urllib3's [LocationParseError], a [ValueError], through for it. *)
Definition unreachable_page : string := "http://a..b".

(** A request brings no page: no response arrives, whatever was raised, or
    the response carries an error status. *)
Definition request_fails (r : reply) : bool :=
  match r with
  | Reply _ _ => fetch_failed r
  | _ => true
  end.

(** What one turn of the loop of [update_urls] makes of the rows of a watch
    list laid out as [watch_columns]: the INSERT OR IGNORE appends a row
    unless the url is already there, the UPDATE then stamps every row of the
    url. *)
Definition watch_row (stamp : value) (watched : list (list value)) (url : string)
  : list (list value) :=
  map (fun r => if Sql.row_matches 0 url r then <[1%nat := stamp]> r else r)
      (if existsb (Sql.row_matches 0 url) watched then watched
       else watched ++ [[Some url; stamp]]).

(** Row [r] comes no later than row [r'] in the index on column [i]. *)
Definition index_le (i : nat) (r r' : list value) : Prop :=
  Sql.key_le (Sql.cell i r) (Sql.cell i r') = true.

(** The watch list lists the same URLs in [d'] as in [d]. *)
Definition same_watched_urls (d d' : database) : Prop :=
  Sql.select_all "url" "urls" d' = Sql.select_all "url" "urls" d.

(** The archive of [d'] is the archive of [d], possibly with rows appended. *)
Definition archive_grows (d d' : database) : Prop :=
  forall t : table,
    d !! "website_archive"%string = Some t ->
    exists t' : table,
      d' !! "website_archive"%string = Some t'
      /\ columns t' = columns t
      /\ primary_key t' = primary_key t
      /\ rows t `prefix_of` rows t'.

(** A computation keeps the count of requests made: it never calls
    [requests.get]. *)
Definition keeps_requests {A : Type} (m : M A) : Prop :=
  forall (e : env) (st : state), requests (snd (m e st)) = requests st.

(** ** Vocabulary for the timestamp round trip *)

(** The last steps of [Datetime.ord2ymd]: month and day of the [k]-th day of a
    year, counted from 0. *)
Definition month_and_day (leapyear : bool) (k : Z) : Z * Z :=
  let month := Z.shiftr (k + 50) 5 in
  let preceding :=
    nth (Z.to_nat month) Datetime.month_offsets 0
    + (if (2 <? month) && leapyear then 1 else 0) in
  if k <? preceding then
    let month' := month - 1 in
    let preceding' :=
      preceding - (nth (Z.to_nat month') Datetime.month_lengths 0
                   + (if (month' =? 2) && leapyear then 1 else 0)) in
    (month', k - preceding' + 1)
  else (month, k - preceding + 1).

(** [f] holds on each of the [2 ^ bits] integers from [lo] on. *)
Fixpoint all_in (bits : nat) (lo : Z) (f : Z -> bool) : bool :=
  match bits with
  | O => f lo
  | S b => all_in b lo f && all_in b (lo + 2 ^ Z.of_nat b) f
  end.

(** What [month_and_day] has to satisfy on a day of the year. *)
Definition month_day_ok (leapyear : bool) (k : Z) : bool :=
  if k <? 365 then
    let '(m, d) := month_and_day leapyear k in
    (1 <=? m) && (m <=? 12) && (1 <=? d)
    && (d <=? (if (m =? 2) && leapyear then 29
               else nth (Z.to_nat m) Datetime.month_lengths 0))
    && (nth (Z.to_nat m) Datetime.month_offsets 0
        + (if (2 <? m) && leapyear then 1 else 0) + d =? k + 1)
  else true.

(** The first match of a piece, the one [re.match] takes. *)
Definition starts_with {A : Type} (x : A) (l : list A) : Prop :=
  exists tl, l = x :: tl.

(** A text without a full stop. *)
Definition dotless (s : list ascii) : Prop := "."%char ∉ s.

(** ** SHA-256 as the standard words it

    FIPS 180-4 defines SHA-256 on bit strings: the padding of section 5.1.1,
    the parsing into 512-bit blocks of sixteen 32-bit words of section 5.2.1,
    the constants of sections 4.2.2 and 5.3.3 and the hash computation of
    section 6.2.2.  The definitions below follow its text; the functions on
    words of section 4.1.2 are those of [SHA256]. *)

Module FIPS180.

(** A bit string, leftmost bit first, and the integer it writes. *)
Definition number (bs : list bool) : Z :=
  fold_left (fun (acc : Z) (b : bool) => 2 * acc + Z.b2z b) bs 0.

Definition binary (width : nat) (z : Z) : list bool :=
  map (fun i => Z.testbit z (Z.of_nat i)) (rev (seq 0 width)).

(** 5.1.1: append the bit 1, then [k] zero bits, [k] the least non-negative
    solution of [l + 1 + k = 448 (mod 512)], then [l] written on 64 bits. *)
Definition pad (message : list bool) : list bool :=
  let l := Z.of_nat (length message) in
  message ++ [true] ++ repeat false (Z.to_nat ((448 - (l + 1)) mod 512))
          ++ binary 64 l.

(** 5.2.1: word [t] of block [i], both counted from 0. *)
Definition word (bs : list bool) (i t : nat) : Z :=
  number (firstn 32 (skipn (512 * i + 32 * t) bs)).

(** 4.2.2 and 5.3.3: the first 32 bits of the fractional parts of the cube
    roots of the first 64 primes, and of the square roots of the first 8. *)
Definition is_prime (n : Z) : bool :=
  (1 <? n) && forallb (fun d => negb (n mod Z.of_nat d =? 0))
                      (seq 2 (Z.to_nat n - 2)).

Definition primes : list Z :=
  List.filter is_prime (map Z.of_nat (seq 0 312)).

Fixpoint root_search (bit : nat) (n r : Z) : Z :=
  match bit with
  | O => r
  | S bit' =>
      let r' := r + 2 ^ Z.of_nat bit' in
      root_search bit' n (if r' * r' * r' <=? n then r' else r)
  end.

Definition cube_root (n : Z) : Z := root_search 40 n 0.

Definition K (t : nat) : Z :=
  cube_root (nth t primes 0 * 2 ^ 96) mod 2 ^ 32.

Definition initial (j : nat) : Z :=
  Z.sqrt (nth j primes 0 * 2 ^ 64) mod 2 ^ 32.

(** 6.2.2, step 1: the message schedule of a block with words [M]. *)
Fixpoint W (M : nat -> Z) (t : nat) {struct t} : Z :=
  match t with
  | S (S (S (S (S (S (S (S (S (S (S (S (S (S (S (S t16 as t15)))))))) as t9))))) as t2)) =>
      SHA256.add32
        (SHA256.add32
           (SHA256.add32 (SHA256.small_sigma1 (W M t2)) (W M t9))
           (SHA256.small_sigma0 (W M t15)))
        (W M t16)
  | _ => M t
  end.

(** 6.2.2, steps 2 and 3: the working variables after [t] rounds. *)
Fixpoint rounds (M : nat -> Z) (c : SHA256.chain) (t : nat) : SHA256.chain :=
  match t with
  | O => c
  | S t' => SHA256.round (rounds M c t') (K t', W M t')
  end.

(** 6.2.2, step 4, over the blocks: the hash value after [i] blocks. *)
Fixpoint H (bs : list bool) (i : nat) : SHA256.chain :=
  match i with
  | O =>
      SHA256.Chain (initial 0) (initial 1) (initial 2) (initial 3)
                   (initial 4) (initial 5) (initial 6) (initial 7)
  | S i' =>
      let h := H bs i' in
      let r := rounds (word bs i') h 64 in
      SHA256.Chain
        (SHA256.add32 (SHA256.wa h) (SHA256.wa r))
        (SHA256.add32 (SHA256.wb h) (SHA256.wb r))
        (SHA256.add32 (SHA256.wc h) (SHA256.wc r))
        (SHA256.add32 (SHA256.wd h) (SHA256.wd r))
        (SHA256.add32 (SHA256.we h) (SHA256.we r))
        (SHA256.add32 (SHA256.wf h) (SHA256.wf r))
        (SHA256.add32 (SHA256.wg h) (SHA256.wg r))
        (SHA256.add32 (SHA256.wh h) (SHA256.wh r))
  end.

Definition hash (message : list bool) : SHA256.chain :=
  let bs := pad message in
  H bs (length bs / 512).

End FIPS180.

(** The bits of a byte sequence: each byte leftmost bit first. *)
Definition bits_of_bytes (bytes : list Z) : list bool :=
  concat (map (FIPS180.binary 8) bytes).

(** The number a string of lower-case hexadecimal digits writes. *)
Definition hex_value (a : ascii) : Z :=
  let c := Z.of_N (N_of_ascii a) in
  if c <? 58 then c - 48 else c - 87.

Definition hex_number (s : string) : Z :=
  fold_left (fun acc a => 16 * acc + hex_value a) (list_ascii_of_string s) 0.

(** The eight words of a hash value, as one number of 256 bits. *)
Definition chain_number (c : SHA256.chain) : Z :=
  fold_left (fun acc w => 4294967296 * acc + w) (SHA256.chain_words c) 0.

(** Bytes, 32-bit words, and hash values made of eight of them. *)
Definition is_byte (b : Z) : Prop := 0 <= b < 256.

Definition is_word (w : Z) : Prop := 0 <= w < 4294967296.

Definition chain_in_range (c : SHA256.chain) : Prop :=
  Forall is_word (SHA256.chain_words c).

(** ** Test vectors for the hasher and the timestamp functions *)

Example sha_abc : get_content_hash "abc" =
  "ba7816bf8f01cfea414140de5dae2223b00361a396177a9cb410ff61f20015ad"%string.
Proof. vm_compute. reflexivity. Qed.

Example sha_empty : get_content_hash EmptyString =
  "e3b0c44298fc1c149afbf4c8996fb92427ae41e4649b934ca495991b7852b855"%string.
Proof. vm_compute. reflexivity. Qed.

Example sha_two_blocks :
  get_content_hash "aaaaaaaaaaaaaaaaaaaaaaaaaaaaaaaaaaaaaaaaaaaaaaaaaaaaaaaa" =
  "b35439a4ac6f0948b6d6f9e3c6af0f5f590ce20f1bde7090ef7970686ec6738a"%string.
Proof. vm_compute. reflexivity. Qed.

(** The bytes hashed are those of the UTF-8 encoding. *)
Example sha_two_byte_character : get_content_hash "é" =
  "4a99557e4033c3539de2eb65472017cad5f9557f7a0625a09f1c3f6e2ba69c4c"%string.
Proof. vm_compute. reflexivity. Qed.

(** [test_get_content_hash] expects 32 digits for this content; a SHA-256
    hash has 64. *)
Example sha_of_the_test_content :
  get_content_hash "example content"
  <> "a9c4a6f9f8d6d7eae8f7f1c9e5d9d5d9"%string.
Proof. vm_compute. discriminate. Qed.

Example sha_versions_differ : get_content_hash "v1" <> get_content_hash "v2".
Proof. vm_compute. discriminate. Qed.

Example isoformat_fraction :
  Datetime.isoformat 63839966400500000 = "2024-01-04 12:00:00.500000"%string.
Proof. vm_compute. reflexivity. Qed.

Example isoformat_whole_second :
  Datetime.isoformat 63839966400000000 = "2024-01-04 12:00:00"%string.
Proof. vm_compute. reflexivity. Qed.

Example strptime_fraction :
  Datetime.strptime "2024-01-04 12:00:00.500000" = Some 63839966400500000.
Proof. vm_compute. reflexivity. Qed.

Example strptime_whole_second :
  Datetime.strptime "2024-01-04 12:00:00" = None.
Proof. vm_compute. reflexivity. Qed.

Example strptime_short_fields :
  Datetime.strptime "2024-1-1  7:3:9.5" = Some 63839689389500000.
Proof. vm_compute. reflexivity. Qed.

Example utf8_two_bytes : well_formed_utf8 [104; 195; 169] = true.
Proof. reflexivity. Qed.

Example utf8_lone_surrogate : well_formed_utf8 [237; 160; 128] = false.
Proof. reflexivity. Qed.

Example utf8_overlong : well_formed_utf8 [192; 175] = false.
Proof. reflexivity. Qed.

Example utf8_astral : well_formed_utf8 [240; 159; 152; 128] = true.
Proof. reflexivity. Qed.

Example utf8_beyond_unicode : well_formed_utf8 [244; 144; 128; 128] = false.
Proof. reflexivity. Qed.

(** ** Running the monad *)

Lemma bind_run {A B : Type} (m : M A) (k : A -> M B) (e : env) (st : state) :
  (m ≫= k) e st =
  match m e st with
  | (Return a, st') => k a e st'
  | (Raise x, st') => (Raise x, st')
  end.
Proof. reflexivity. Qed.

Lemma fetchall_run q (e : env) (st : state) :
  fetchall q e st =
  (match q (db st) with Return rs => Return rs | Raise x => Raise x end, st).
Proof. unfold fetchall. destruct (q (db st)); reflexivity. Qed.

Lemma fetchone_run q (e : env) (st : state) :
  fetchone q e st =
  (match q (db st) with Return rs => Return (head rs) | Raise x => Raise x end, st).
Proof.
  unfold fetchone. rewrite bind_run, fetchall_run.
  destruct (q (db st)); reflexivity.
Qed.

Lemma execute_run stmt (e : env) (st : state) :
  execute stmt e st =
  match stmt (db st) with
  | Return d => (Return tt, State d (ticks st) (requests st))
  | Raise x => (Raise x, st)
  end.
Proof. reflexivity. Qed.

Ltac msimpl :=
  cbn [mret M_ret raise datetime_now subscript lookup list_lookup
       db ticks requests head].

Ltac mstep := msimpl; repeat (rewrite bind_run; msimpl).

Lemma state_eta (st : state) : State (db st) (ticks st) (requests st) = st.
Proof. destruct st; reflexivity. Qed.

(** ** Statements raise database errors only *)

Lemma find_table_raises (name : string) (d : database) (x : exn) :
  Sql.find_table name d = Raise x -> x = OperationalError.
Proof. unfold Sql.find_table. destruct (d !! name); congruence. Qed.

Lemma find_column_raises (c : string) (t : table) (x : exn) :
  Sql.find_column c t = Raise x -> x = OperationalError.
Proof. unfold Sql.find_column. destruct (Sql.position c (columns t)); congruence. Qed.

Ltac sql_cases :=
  repeat match goal with
    | |- context [Sql.find_table ?n ?d] =>
        let H := fresh "Htable" in
        destruct (Sql.find_table n d) eqn:H; cbn;
        [|apply find_table_raises in H; subst]
    | |- context [Sql.find_column ?c ?t] =>
        let H := fresh "Hcolumn" in
        destruct (Sql.find_column c t) eqn:H; cbn;
        [|apply find_column_raises in H; subst]
    end.

Lemma query_raises (q : database -> outcome (list (list value)))
    (d : database) (x : exn) :
  (exists col name wcol v, q = Sql.select_where col name wcol v)
  \/ (exists name wcol v, q = Sql.select_star_where name wcol v)
  \/ (exists col name, q = Sql.select_all col name) ->
  q d = Raise x -> is_sqlite_error x = true.
Proof.
  intros [(col & name & wcol & v & ->)|[(name & wcol & v & ->)|(col & name & ->)]];
    unfold Sql.select_where, Sql.select_star_where, Sql.select_all;
    unfold mbind, outcome_bind; sql_cases; intros [= <-]; reflexivity.
Qed.

Lemma insert_raises (or_ignore : bool) (name : string) (cols : list string)
    (vals : list value) (d : database) (x : exn) :
  Sql.insert or_ignore name cols vals d = Raise x -> is_sqlite_error x = true.
Proof.
  unfold Sql.insert, mbind, outcome_bind. sql_cases.
  - repeat case_match; intros [= <-]; reflexivity.
  - intros [= <-]; reflexivity.
Qed.

Lemma update_raises (name col : string) (v : value) (wcol x : string)
    (d : database) (err : exn) :
  Sql.update name col v wcol x d = Raise err -> is_sqlite_error err = true.
Proof.
  unfold Sql.update, mbind, outcome_bind. sql_cases;
    repeat case_match; intros [= <-]; reflexivity.
Qed.

Lemma delete_raises (name wcol x : string) (d : database) (err : exn) :
  Sql.delete_where name wcol x d = Raise err -> is_sqlite_error err = true.
Proof.
  unfold Sql.delete_where, mbind, outcome_bind. sql_cases;
    intros [= <-]; reflexivity.
Qed.

(** ** The watch list after [create_tables] *)

Lemma create_tables_run (e : env) (st : state) :
  create_tables e st =
  (Return tt,
   State (Sql.create_table_if_not_exists "urls" ["url"%string] (Some "url"%string)
            (Sql.create_table_if_not_exists "website_archive" snapshot_columns None
               (Sql.create_table_if_not_exists "websites" snapshot_columns
                  (Some "url"%string) (db st))))
         (ticks st) (requests st)).
Proof. reflexivity. Qed.

Lemma fresh_watch_list (e : env) (t r : nat) :
  db (snd (create_tables e (State ∅ t r))) !! "urls"%string
  = Some (Table ["url"%string] (Some "url"%string) []).
Proof. reflexivity. Qed.

Lemma fresh_snapshots (e : env) (t r : nat) :
  db (snd (create_tables e (State ∅ t r))) !! "websites"%string
  = Some (Table snapshot_columns (Some "url"%string) []).
Proof. reflexivity. Qed.

Lemma fresh_archive (e : env) (t r : nat) :
  db (snd (create_tables e (State ∅ t r))) !! "website_archive"%string
  = Some (Table snapshot_columns None []).
Proof. reflexivity. Qed.

Lemma fresh_counters (e : env) (t r : nat) :
  snd (create_tables e (State ∅ t r))
  = State (db (snd (create_tables e (State ∅ t r)))) t r.
Proof. reflexivity. Qed.

(** Without a [last_checked] column the INSERT of [update_urls] does not
    compile; the [except] clause swallows the error for every URL. *)
Lemma insert_watch_no_column (tu : table) (d : database) (url ts : string) :
  d !! "urls"%string = Some tu ->
  Sql.position "last_checked" (columns tu) = None ->
  Sql.insert true "urls" ["url"; "last_checked"]%string [Some url; Some ts] d
  = Raise OperationalError.
Proof.
  intros Htab Hcol. unfold Sql.insert, Sql.find_table. rewrite Htab. simpl.
  unfold Sql.has_column. rewrite Hcol.
  destruct (Sql.position "url" (columns tu)); reflexivity.
Qed.

Lemma update_urls_loop_no_column (tu : table) (ts : string) (new_urls : list string)
    (e : env) (st : state) :
  db st !! "urls"%string = Some tu ->
  Sql.position "last_checked" (columns tu) = None ->
  for_each new_urls (fun url =>
    except_sqlite_error (
      execute (Sql.insert true "urls" ["url"; "last_checked"]%string
                 [Some url; Some ts]);;
      execute (Sql.update "urls" "last_checked" (Some ts) "url" url))) e st
  = (Return tt, st).
Proof.
  intros Htab Hcol. induction new_urls as [|url rest IH]; [reflexivity|].
  cbn [for_each]. rewrite bind_run.
  unfold except_sqlite_error at 1. rewrite bind_run, execute_run.
  rewrite (insert_watch_no_column tu _ _ _ Htab Hcol). cbn. exact IH.
Qed.

Lemma update_urls_no_column (tu : table) (new_urls : list string)
    (e : env) (st : state) :
  db st !! "urls"%string = Some tu ->
  Sql.position "last_checked" (columns tu) = None ->
  update_urls new_urls e st
  = (Return tt, State (db st) (S (ticks st)) (requests st)).
Proof.
  intros Htab Hcol. unfold update_urls. rewrite bind_run. cbn [datetime_now].
  apply (update_urls_loop_no_column tu); assumption.
Qed.

(** C1 (the code departs from the claim): on a store that [create_tables] has
    just set up, [update_urls] inserts nothing, whatever the list of URLs, and
    [get_all_urls] afterwards returns the empty list.  The [urls] table is
    created with the single column [url], so each INSERT naming
    [last_checked] raises an [OperationalError] that the loop catches. *)
Theorem update_urls_on_fresh_store_lists_nothing
    (e : env) (t r : nat) (new_urls : list string) :
  (update_urls new_urls;; get_all_urls) e (snd (create_tables e (State ∅ t r)))
  = (Return [], State (db (snd (create_tables e (State ∅ t r)))) (S t) r).
Proof.
  rewrite bind_run.
  rewrite (update_urls_no_column _ new_urls e _ (fresh_watch_list e t r) eq_refl).
  reflexivity.
Qed.

Example fresh_store_example :
  fst ((update_urls [page];; get_all_urls)
         (world_after 0 NoReply)
         (snd (create_tables (world_after 0 NoReply) (State ∅ 0 0))))
  = Return [].
Proof. vm_compute. reflexivity. Qed.

(** With the [last_checked] column in place the same call lists the URL once,
    even when it is given twice. *)
Example tracked_store_example :
  fst ((update_urls [page; page];; get_all_urls)
         (world_after 0 NoReply) (State (tracked_store [] [] []) 0 0))
  = Return [Some page].
Proof. vm_compute. reflexivity. Qed.

(** ** [archive_old_website_content] without a snapshot *)

(** C3 (the code departs from the claim): when the query for the URL's
    current snapshot finds no row, [archive_old_website_content] raises a
    [TypeError] from [data[3]] and leaves the store as it was; the assertion
    on the next line is not reached. *)
Theorem archive_without_snapshot_raises_type_error
    (url : string) (e : env) (st : state) :
  Sql.select_star_where "websites" "url" url (db st) = Return [] ->
  archive_old_website_content url e st = (Raise TypeError, st).
Proof.
  intros Hnone. unfold archive_old_website_content.
  rewrite bind_run, fetchone_run, Hnone. reflexivity.
Qed.

Lemma archive_without_snapshot_witness :
  archive_old_website_content page (world_after 0 NoReply)
    (snd (create_tables (world_after 0 NoReply) (State ∅ 0 0)))
  = (Raise TypeError, snd (create_tables (world_after 0 NoReply) (State ∅ 0 0))).
Proof.
  apply archive_without_snapshot_raises_type_error. vm_compute. reflexivity.
Defined.

(** The assertion of [archive_old_website_content] never fires: whatever the
    store holds, the call does not end in an [AssertionError]. *)
Lemma archive_never_asserts (url : string) (e : env) (st : state) :
  fst (archive_old_website_content url e st) <> Raise AssertionError.
Proof.
  unfold archive_old_website_content. rewrite bind_run, fetchone_run.
  destruct (Sql.select_star_where "websites" "url" url (db st)) as [rs|x] eqn:Hq.
  - destruct rs as [|r rs]; cbn; [discriminate|].
    unfold subscript. rewrite bind_run.
    destruct (r !! 3%nat) as [v|]; cbn; [|discriminate].
    rewrite !bind_run, execute_run.
    destruct (Sql.insert false "website_archive" snapshot_columns r (db st))
      as [d|x] eqn:Hins; cbn.
    + rewrite bind_run, execute_run. cbn [db].
      destruct (Sql.delete_where "websites" "url" url d) as [d'|x] eqn:Hdel; cbn;
        [discriminate|].
      intros [= ->]. apply delete_raises in Hdel. discriminate.
    + intros [= ->]. apply insert_raises in Hins. discriminate.
  - cbn. intros [= ->]. apply query_raises in Hq; [discriminate|].
    right; left. eauto.
Qed.

(** ** [should_fetch_content] *)

(** C7: a URL on the watch list with no current snapshot is always fetched:
    [should_fetch_content] returns [(True, None)] for every window, without
    reading the clock or touching the store. *)
Theorem should_fetch_without_snapshot
    (url : string) (time_delta_minutes : Z) (e : env) (st : state)
    (last_checked : value) (others : list (list value)) :
  Sql.select_where "content_hash" "websites" "url" url (db st) = Return [] ->
  Sql.select_where "last_checked" "urls" "url" url (db st)
    = Return ([last_checked] :: others) ->
  should_fetch_content url time_delta_minutes e st = (Return (true, None), st).
Proof.
  intros Hsnap Hwatch. unfold should_fetch_content.
  rewrite bind_run, fetchone_run, Hsnap. cbn [head].
  rewrite bind_run, fetchone_run, Hwatch. reflexivity.
Qed.

Lemma should_fetch_without_snapshot_witness :
  should_fetch_content page (-5) (world_after 0 NoReply)
    (State (tracked_store [] [[Some page; Some (Datetime.isoformat checked_at)]] [])
           0 0)
  = (Return (true, None),
     State (tracked_store [] [[Some page; Some (Datetime.isoformat checked_at)]] [])
           0 0).
Proof.
  apply (should_fetch_without_snapshot page (-5) _ _
           (Some (Datetime.isoformat checked_at)) []);
    vm_compute; reflexivity.
Defined.

(** C2 (as amended): for a watched URL with a current snapshot whose
    [last_checked] text parses to [t], and a window for which [now - W
    minutes] is a [datetime], [should_fetch_content] returns [(True, stored
    hash)] exactly when [now - t] is strictly greater than [W] minutes and
    [(False, None)] otherwise; it reads the clock once and does not change the
    store. *)
Theorem should_fetch_with_snapshot
    (url : string) (time_delta_minutes : Z) (e : env) (st : state)
    (stored_hash : value) (text : string) (t : Z)
    (more_hashes more_watched : list (list value)) :
  Sql.select_where "content_hash" "websites" "url" url (db st)
    = Return ([stored_hash] :: more_hashes) ->
  Sql.select_where "last_checked" "urls" "url" url (db st)
    = Return ([Some text] :: more_watched) ->
  Datetime.strptime text = Some t ->
  Datetime.valid (clock e (ticks st) - time_delta_minutes * Datetime.us_per_minute)
    = true ->
  should_fetch_content url time_delta_minutes e st
  = (Return (if bool_decide (time_delta_minutes * Datetime.us_per_minute
                             < clock e (ticks st) - t)
             then (true, stored_hash) else (false, None)),
     State (db st) (S (ticks st)) (requests st)).
Proof.
  intros Hsnap Hwatch Hparse Hrange. unfold should_fetch_content.
  rewrite bind_run, fetchone_run, Hsnap. cbn [head].
  rewrite bind_run, fetchone_run, Hwatch. cbn [head].
  mstep. rewrite Hparse. mstep. unfold Datetime.minus_minutes.
  rewrite Hrange. mstep.
  case_bool_decide as Hlt.
  - replace (_ <? _) with true by (symmetry; apply Z.ltb_lt; lia). reflexivity.
  - replace (_ <? _) with false by (symmetry; apply Z.ltb_ge; lia). reflexivity.
Qed.

Lemma should_fetch_with_snapshot_witness :
  should_fetch_content page 60 (world_after 61 NoReply) (State watching_store 0 0)
  = (Return (if bool_decide (60 * Datetime.us_per_minute
                             < clock (world_after 61 NoReply) 0 - checked_at)
             then (true, Some (get_content_hash "v1")) else (false, None)),
     State watching_store 1 0).
Proof.
  apply (should_fetch_with_snapshot page 60 (world_after 61 NoReply)
           (State watching_store 0 0) (Some (get_content_hash "v1"))
           (Datetime.isoformat checked_at) checked_at [] []);
    vm_compute; reflexivity.
Defined.

(** C2 (counterexample to the claim as stated): one hour after the last
    check, with a window of 60 minutes, [now - last_checked >= W] holds and
    yet no fetch is triggered. *)
Lemma should_fetch_at_the_boundary :
  ~ (forall (url : string) (w : Z) (e : env) (st : state)
            (stored_hash : value) (text : string) (t : Z)
            (more_hashes more_watched : list (list value)),
        Sql.select_where "content_hash" "websites" "url" url (db st)
          = Return ([stored_hash] :: more_hashes) ->
        Sql.select_where "last_checked" "urls" "url" url (db st)
          = Return ([Some text] :: more_watched) ->
        Datetime.strptime text = Some t ->
        w * Datetime.us_per_minute <= clock e (ticks st) - t ->
        fst (should_fetch_content url w e st) = Return (true, stored_hash)).
Proof.
  intros Hclaim.
  assert (Hfetch : fst (should_fetch_content page 60 (world_after 60 NoReply)
                          (State watching_store 0 0))
                   = Return (true, Some (get_content_hash "v1"))).
  { apply (Hclaim page 60 (world_after 60 NoReply) (State watching_store 0 0)
             (Some (get_content_hash "v1")) (Datetime.isoformat checked_at)
             checked_at [] []).
    - vm_compute. reflexivity.
    - vm_compute. reflexivity.
    - vm_compute. reflexivity.
    - vm_compute. discriminate. }
  vm_compute in Hfetch. discriminate Hfetch.
Qed.

(** On a store that [create_tables] has just set up the question cannot even
    be asked: the watch list has no [last_checked] column to select. *)
Lemma should_fetch_on_fresh_store (url : string) (w : Z) (e : env) (t r : nat) :
  should_fetch_content url w e (snd (create_tables e (State ∅ t r)))
  = (Raise OperationalError, snd (create_tables e (State ∅ t r))).
Proof.
  assert (Hsnap : Sql.select_where "content_hash" "websites" "url" url
                    (db (snd (create_tables e (State ∅ t r)))) = Return [])
    by reflexivity.
  assert (Hwatch : Sql.select_where "last_checked" "urls" "url" url
                     (db (snd (create_tables e (State ∅ t r))))
                   = Raise OperationalError)
    by reflexivity.
  unfold should_fetch_content.
  rewrite bind_run, fetchone_run, Hsnap. cbn [head].
  rewrite bind_run, fetchone_run, Hwatch. reflexivity.
Qed.

(** A [last_checked] written at a whole second has no fraction in its ISO
    text, and parsing it with [%f] fails. *)
Example should_fetch_whole_second :
  fst (should_fetch_content page 60 (world_after 61 NoReply)
         (State (tracked_store [snapshot_row page checked_at "v1"]
                   [[Some page; Some (Datetime.isoformat (checked_at - 500000))]]
                   []) 0 0))
  = Raise ValueError.
Proof. vm_compute. reflexivity. Qed.

(** ** Rows selected and rows kept *)

Lemma filter_matches_app (i : nat) (x : string) (l1 l2 : list (list value)) :
  filter (Sql.row_matches i x) (l1 ++ l2)
  = filter (Sql.row_matches i x) l1 ++ filter (Sql.row_matches i x) l2.
Proof. apply filter_app. Qed.

Lemma filter_none_keeps_all {A : Type} (p : A -> bool) (l : list A) :
  filter p l = [] -> filter (fun a => negb (p a)) l = l.
Proof.
  induction l as [|a l IH]; [reflexivity|].
  rewrite !filter_cons. destruct (p a) eqn:Hp; cbn.
  - rewrite decide_True by exact I. discriminate.
  - rewrite decide_False by (intros []). rewrite decide_True by exact I.
    intros Hl. f_equal. apply IH, Hl.
Qed.

Lemma filter_none_exists {A : Type} (p : A -> bool) (l : list A) :
  filter p l = [] -> existsb p l = false.
Proof.
  induction l as [|a l IH]; [reflexivity|].
  rewrite filter_cons. destruct (p a) eqn:Hp; cbn.
  - rewrite decide_True by exact I. discriminate.
  - rewrite decide_False by (intros []). rewrite Hp. exact IH.
Qed.

Lemma row_matches_own_key (x : string) (rest : list value) :
  Sql.row_matches 0 x (Some x :: rest) = true.
Proof. unfold Sql.row_matches. apply bool_decide_eq_true. reflexivity. Qed.

(** ** Writing a snapshot and archiving it *)

Lemma insert_four_columns (name : string) (key : option string)
    (rs : list (list value)) (a b c d : value) (store : database) :
  store !! name = Some (Table snapshot_columns key rs) ->
  Sql.key_taken (Table snapshot_columns key rs) [a; b; c; d] = false ->
  Sql.insert false name snapshot_columns [a; b; c; d] store
  = Return (<[name := Table snapshot_columns key (rs ++ [[a; b; c; d]])]> store).
Proof.
  intros Htab Hkey. unfold Sql.insert, Sql.find_table. rewrite Htab.
  cbn [mbind outcome_bind]. cbn [Sql.has_column columns forallb negb].
  change (forallb _ snapshot_columns) with true. cbn [negb].
  change (length snapshot_columns =? length [a; b; c; d])%nat with true.
  cbn [negb].
  change (map _ snapshot_columns) with [a; b; c; d].
  rewrite Hkey. reflexivity.
Qed.

Lemma snapshot_restored (d : database) (t t1 a : table) :
  d !! "websites"%string = Some t ->
  <["websites"%string := t]>
    (<["website_archive"%string := a]> (<["websites"%string := t1]> d))
  = <["website_archive"%string := a]> d.
Proof.
  intros Hweb. apply map_eq. intros k.
  destruct (decide (k = "websites"%string)) as [->|Hk].
  - rewrite lookup_insert_eq, lookup_insert_ne by discriminate.
    symmetry. exact Hweb.
  - rewrite lookup_insert_ne by congruence.
    destruct (decide (k = "website_archive"%string)) as [->|Hk'].
    + rewrite !lookup_insert_eq. reflexivity.
    + rewrite !lookup_insert_ne by congruence. reflexivity.
Qed.

Lemma store_website_content_new (url content : string) (e : env) (st : state)
    (snapshots : list (list value)) :
  db st !! "websites"%string
    = Some (Table snapshot_columns (Some "url"%string) snapshots) ->
  filter (Sql.row_matches 0 url) snapshots = [] ->
  store_website_content url content e st
  = (Return tt,
     State (<["websites"%string :=
               Table snapshot_columns (Some "url"%string)
                 (snapshots ++ [snapshot_row url (clock e (ticks st)) content])]>
              (db st))
           (S (ticks st)) (requests st)).
Proof.
  intros Htab Hfree. unfold store_website_content. mstep.
  rewrite execute_run. cbn [db ticks requests].
  rewrite (insert_four_columns _ _ _ _ _ _ _ _ Htab); [reflexivity|].
  cbn. apply filter_none_exists, Hfree.
Qed.

(** C4: on a store with no snapshot for [url], [store_website_content]
    followed at once by [archive_old_website_content] appends exactly one row
    to the archive, equal in url, timestamp, hash and content to the snapshot
    just written, removes that snapshot so that no [websites] row is left for
    the URL, changes nothing else, and returns the archived content. *)
Theorem store_then_archive
    (url content : string) (e : env) (st : state)
    (snapshots archived : list (list value)) :
  db st !! "websites"%string
    = Some (Table snapshot_columns (Some "url"%string) snapshots) ->
  db st !! "website_archive"%string
    = Some (Table snapshot_columns None archived) ->
  filter (Sql.row_matches 0 url) snapshots = [] ->
  let written := snapshot_row url (clock e (ticks st)) content in
  let st1 :=
    State (<["websites"%string :=
              Table snapshot_columns (Some "url"%string) (snapshots ++ [written])]>
             (db st))
          (S (ticks st)) (requests st) in
  let st2 :=
    State (<["website_archive"%string :=
              Table snapshot_columns None (archived ++ [written])]> (db st))
          (S (ticks st)) (requests st) in
  store_website_content url content e st = (Return tt, st1)
  /\ Sql.select_star_where "websites" "url" url (db st1) = Return [written]
  /\ archive_old_website_content url e st1 = (Return (Some content), st2)
  /\ Sql.select_star_where "websites" "url" url (db st2) = Return [].
Proof.
  intros Hweb Harch Hfree written st1 st2.
  assert (Hsel1 : Sql.select_star_where "websites" "url" url (db st1)
                  = Return [written]).
  { unfold Sql.select_star_where, Sql.find_table. cbn [db st1].
    rewrite lookup_insert_eq. cbn.
    rewrite filter_matches_app, Hfree, filter_cons, filter_nil.
    unfold written, snapshot_row. rewrite row_matches_own_key.
    rewrite decide_True by exact I. reflexivity. }
  split; [apply store_website_content_new; assumption|].
  split; [exact Hsel1|].
  split.
  - unfold archive_old_website_content. rewrite bind_run, fetchone_run, Hsel1.
    mstep. change (written !! 3%nat) with (Some (Some content)). mstep.
    rewrite execute_run. cbn [db st1 ticks requests].
    unfold written at 1, snapshot_row.
    erewrite insert_four_columns;
      [| rewrite lookup_insert_ne by discriminate; exact Harch | reflexivity].
    mstep. rewrite execute_run. cbn [db ticks requests].
    unfold Sql.delete_where, Sql.find_table.
    rewrite lookup_insert_ne by discriminate. rewrite lookup_insert_eq.
    cbn [mbind outcome_bind Sql.find_column columns].
    change (Sql.position "url" snapshot_columns) with (Some 0%nat).
    cbn [Sql.with_rows columns primary_key rows].
    unfold st2. do 2 f_equal.
    + rewrite filter_app, (filter_none_keeps_all _ _ Hfree).
      rewrite filter_cons, filter_nil.
      unfold written, snapshot_row. rewrite row_matches_own_key. cbn [negb].
      rewrite decide_False by (intros []). rewrite app_nil_r.
      fold (snapshot_row url (clock e (ticks st)) content). fold written.
      cbn [Sql.with_rows columns primary_key].
      apply snapshot_restored, Hweb.
  - unfold Sql.select_star_where, Sql.find_table. cbn [db st2].
    rewrite lookup_insert_ne by discriminate. rewrite Hweb. cbn.
    rewrite Hfree. reflexivity.
Qed.

Lemma store_then_archive_witness :
  archive_old_website_content page (world_after 0 NoReply)
    (State (<["websites"%string :=
              Table snapshot_columns (Some "url"%string)
                [snapshot_row page checked_at "hello"]]>
             (tracked_store [] [] [])) 1 0)
  = (Return (Some "hello"%string),
     State (<["website_archive"%string :=
               Table snapshot_columns None [snapshot_row page checked_at "hello"]]>
              (tracked_store [] [] [])) 1 0).
Proof.
  refine (proj1 (proj2 (proj2
           (store_then_archive page "hello" (world_after 0 NoReply)
              (State (tracked_store [] [] []) 0 0) [] [] _ _ _))));
    reflexivity.
Defined.

(** ** Relations respected by the building blocks *)

Section Respects.

Variable R : database -> database -> Prop.
Hypothesis R_refl : forall d, R d d.
Hypothesis R_trans : forall d1 d2 d3, R d1 d2 -> R d2 d3 -> R d1 d3.

Lemma respects_ret {A : Type} (a : A) : respects R (mret a).
Proof. intros e st. apply R_refl. Qed.

Lemma respects_raise {A : Type} (x : exn) : respects R (@raise A x).
Proof. intros e st. apply R_refl. Qed.

Lemma respects_bind {A B : Type} (m : M A) (k : A -> M B) :
  respects R m -> (forall a, respects R (k a)) -> respects R (m ≫= k).
Proof.
  intros Hm Hk e st. rewrite bind_run. specialize (Hm e st).
  destruct (m e st) as [[a|x] st']; cbn [snd] in *.
  - eapply R_trans; [exact Hm|]. apply Hk.
  - exact Hm.
Qed.

Lemma respects_fetchall q : respects R (fetchall q).
Proof. intros e st. rewrite fetchall_run. apply R_refl. Qed.

Lemma respects_fetchone q : respects R (fetchone q).
Proof. intros e st. rewrite fetchone_run. apply R_refl. Qed.

Lemma respects_subscript data i : respects R (subscript data i).
Proof.
  destruct data as [r|]; cbn; [|apply respects_raise].
  destruct (r !! i); [apply respects_ret|apply respects_raise].
Qed.

Lemma respects_now : respects R datetime_now.
Proof. intros e st. apply R_refl. Qed.

Lemma respects_get_website_content url : respects R (get_website_content url).
Proof.
  intros e st. unfold get_website_content.
  destruct (network e (requests st) url); apply R_refl.
Qed.

Lemma respects_highlight_diffs a b : respects R (highlight_diffs a b).
Proof. destruct a, b; cbn; first [apply respects_ret|apply respects_raise]. Qed.

Lemma respects_execute stmt :
  (forall d d', stmt d = Return d' -> R d d') -> respects R (execute stmt).
Proof.
  intros Hstmt e st. rewrite execute_run.
  destruct (stmt (db st)) as [d'|x] eqn:Hrun; cbn; [|apply R_refl].
  apply Hstmt, Hrun.
Qed.

Lemma respects_except body :
  respects R body -> respects R (except_sqlite_error body).
Proof.
  intros Hbody e st. unfold except_sqlite_error. specialize (Hbody e st).
  destruct (body e st) as [[a|x] st']; cbn [snd] in *; [exact Hbody|].
  destruct (is_sqlite_error x); exact Hbody.
Qed.

Lemma respects_for_each {A : Type} (l : list A) (body : A -> M unit) :
  (forall a, respects R (body a)) -> respects R (for_each l body).
Proof.
  intros Hbody. induction l as [|a l IH]; cbn [for_each].
  - apply respects_ret.
  - apply respects_bind; [apply Hbody|]. intros _. exact IH.
Qed.

Lemma respects_should_fetch_content url w :
  respects R (should_fetch_content url w).
Proof.
  unfold should_fetch_content.
  apply respects_bind; [apply respects_fetchone|]. intros hash_result.
  apply respects_bind; [apply respects_fetchone|]. intros timestamp_row.
  apply respects_bind; [apply respects_subscript|]. intros timestamp.
  destruct hash_result as [hr|]; [|apply respects_ret].
  apply respects_bind; [apply respects_subscript|]. intros old.
  apply respects_bind.
  { destruct timestamp as [text|]; [|apply respects_raise].
    destruct (Datetime.strptime text); [apply respects_ret|apply respects_raise]. }
  intros last. apply respects_bind; [apply respects_now|]. intros now.
  apply respects_bind.
  { destruct (Datetime.minus_minutes now w);
      [apply respects_ret|apply respects_raise]. }
  intros bound. destruct (last <? bound); apply respects_ret.
Qed.

End Respects.

(** [should_fetch_content] only reads the store. *)
Lemma should_fetch_content_reads (url : string) (w : Z) (e : env) (st : state) :
  db (snd (should_fetch_content url w e st)) = db st.
Proof.
  symmetry.
  apply (respects_should_fetch_content eq (fun d => eq_refl)
           (fun d1 d2 d3 H1 H2 => eq_trans H1 H2) url w e st).
Qed.

Lemma should_fetch_content_store (url : string) (w : Z) (e : env)
    (st st1 : state) (r : outcome (bool * value)) :
  should_fetch_content url w e st = (r, st1) -> db st1 = db st.
Proof.
  intros Hrun. pose proof (should_fetch_content_reads url w e st) as Hdb.
  rewrite Hrun in Hdb. exact Hdb.
Qed.

(** ** One URL of the monitoring loop *)

(** [monitor_website_changes] runs the body of its loop on each URL in turn,
    handing the counters on; on a single URL it is that body started from
    zeroed counters. *)
Lemma monitor_loop_cons (w : Z) (s : stats) (url : string) (rest : list string)
    (e : env) (st : state) :
  monitor_loop w s (url :: rest) e st
  = match monitor_url w s url e st with
    | (Return s', st') => monitor_loop w s' rest e st'
    | (Raise x, st') => (Raise x, st')
    end.
Proof. reflexivity. Qed.

Lemma monitor_single_url (url : string) (w : Z) (e : env) (st : state) :
  monitor_website_changes [url] w e st = monitor_url w (Stats 0 0 0 0) url e st.
Proof.
  unfold monitor_website_changes. rewrite monitor_loop_cons.
  destruct (monitor_url w (Stats 0 0 0 0) url e st) as [[s|x] st']; reflexivity.
Qed.

Lemma failed_fetch_is_empty (r : reply) :
  fetch_failed r = true -> response_text r = EmptyString.
Proof.
  destruct r as [|status text|x]; [reflexivity| |discriminate].
  cbn. intros ->. reflexivity.
Qed.

(** A response with a text is returned as it is. *)
Lemma get_website_content_text (url content : string) (e : env) (st : state) :
  response_text (network e (requests st) url) = content ->
  content <> EmptyString ->
  get_website_content url e st
  = (Return content, State (db st) (ticks st) (S (requests st))).
Proof.
  intros Hbody Hnonempty. unfold get_website_content.
  destruct (network e (requests st) url) as [|status text|x];
    cbn in Hbody; subst content; try reflexivity; contradiction.
Qed.

(** The empty string is returned exactly when the request ended in a
    [RequestException] or the response has an empty text. *)
Lemma get_website_content_empty (url : string) (e : env) (st : state) :
  fst (get_website_content url e st) = Return EmptyString
  <-> fetch_failed (network e (requests st) url) = true
      \/ exists status : Z, network e (requests st) url = Reply status EmptyString.
Proof.
  unfold get_website_content.
  destruct (network e (requests st) url) as [|status text|x]; cbn.
  - split; [left; reflexivity|reflexivity].
  - destruct ((400 <=? status) && (status <? 600)).
    + split; [left; reflexivity|reflexivity].
    + split.
      * intros [= ->]. right. eauto.
      * intros [?|[status' [= _ ->]]]; [discriminate|reflexivity].
  - split; [discriminate|]. intros [?|[status ?]]; discriminate.
Qed.

Lemma get_website_content_state (url : string) (e : env) (st : state) :
  snd (get_website_content url e st)
  = State (db st) (ticks st) (S (requests st)).
Proof.
  unfold get_website_content.
  destruct (network e (requests st) url); reflexivity.
Qed.

Lemma monitor_url_empty_content (url : string) (w : Z) (s : stats) (e : env)
    (st st1 : state) (old : value) :
  should_fetch_content url w e st = (Return (true, old), st1) ->
  fst (get_website_content url e st1) = Return EmptyString ->
  monitor_url w s url e st
  = (Return (Stats (num_errors s + 1) (num_fetches s + 1) (num_changes s)
                   (num_new_pages s)),
     State (db st) (ticks st1) (S (requests st1))).
Proof.
  intros Hfetch Hempty. unfold monitor_url. rewrite bind_run, Hfetch.
  cbn beta iota. rewrite bind_run.
  pose proof (get_website_content_state url e st1) as Hstate.
  destruct (get_website_content url e st1) as [r st2].
  cbn [fst snd] in Hempty, Hstate. subst r st2. cbn.
  rewrite (should_fetch_content_store _ _ _ _ _ _ Hfetch). reflexivity.
Qed.

(** C6 (as amended): when the fetch of a watched URL is triggered and the
    request fails with a [RequestException], the loop counts one more fetch
    and one more error and leaves the whole store as it was: the snapshot of
    the URL, the archive and its [last_checked] are unchanged.  A run of
    [monitor_website_changes] on that URL alone returns one fetch and one
    error. *)
Theorem failed_fetch_leaves_url_untouched
    (url : string) (w : Z) (s : stats) (e : env) (st st1 : state) (old : value) :
  should_fetch_content url w e st = (Return (true, old), st1) ->
  fetch_failed (network e (requests st1) url) = true ->
  monitor_url w s url e st
  = (Return (Stats (num_errors s + 1) (num_fetches s + 1) (num_changes s)
                   (num_new_pages s)),
     State (db st) (ticks st1) (S (requests st1)))
  /\ monitor_website_changes [url] w e st
     = (Return (Stats 1 1 0 0), State (db st) (ticks st1) (S (requests st1))).
Proof.
  intros Hfetch Hfailed.
  assert (Hempty : fst (get_website_content url e st1) = Return EmptyString)
    by (apply get_website_content_empty; left; exact Hfailed).
  clear Hfailed. rename Hempty into Hfailed.
  split.
  - exact (monitor_url_empty_content url w s e st st1 old Hfetch Hfailed).
  - rewrite monitor_single_url.
    exact (monitor_url_empty_content url w (Stats 0 0 0 0) e st st1 old
             Hfetch Hfailed).
Qed.

Lemma failed_fetch_witness :
  monitor_website_changes [page] 60 (world_after 61 NoReply)
    (State watching_store 0 0)
  = (Return (Stats 1 1 0 0), State watching_store 1 1).
Proof.
  refine (proj2 (failed_fetch_leaves_url_untouched page 60 (Stats 0 0 0 0)
                   (world_after 61 NoReply) (State watching_store 0 0)
                   (State watching_store 1 0) (Some (get_content_hash "v1"))
                   _ _));
    vm_compute; reflexivity.
Defined.

(** An exception that is not a [RequestException] passes the [except] clause
    of [get_website_content] and the loop, which has no handler: the run ends
    with that exception after the request, with the store as it was. *)
Lemma monitor_url_escaped (url : string) (w : Z) (s : stats) (e : env)
    (st st1 : state) (old : value) (x : exn) :
  should_fetch_content url w e st = (Return (true, old), st1) ->
  network e (requests st1) url = Escaped x ->
  monitor_url w s url e st
  = (Raise x, State (db st) (ticks st1) (S (requests st1))).
Proof.
  intros Hfetch Hescaped. unfold monitor_url. rewrite bind_run, Hfetch.
  cbn beta iota. rewrite bind_run. unfold get_website_content.
  rewrite Hescaped. cbn.
  rewrite (should_fetch_content_store _ _ _ _ _ _ Hfetch). reflexivity.
Qed.

(** C6 (counterexample to the claim as stated): the fetch of the watched page
    [http://a..b], which has no snapshot, is triggered and fails with a
    [LocationParseError]; no error is counted, the run ends with the
    exception. *)
Lemma failed_fetch_outside_requests :
  ~ (forall (url : string) (w : Z) (s : stats) (e : env) (st st1 : state)
            (old : value),
        should_fetch_content url w e st = (Return (true, old), st1) ->
        request_fails (network e (requests st1) url) = true ->
        fst (monitor_url w s url e st)
        = Return (Stats (num_errors s + 1) (num_fetches s + 1) (num_changes s)
                        (num_new_pages s))).
Proof.
  intros Hclaim.
  pose (st := State (tracked_store []
                       [[Some unreachable_page;
                         Some (Datetime.isoformat checked_at)]] []) 0 0).
  assert (Hrun : fst (monitor_url 60 (Stats 0 0 0 0) unreachable_page
                        (world_after 61 (Escaped ValueError)) st)
                 = Return (Stats 1 1 0 0)).
  { apply (Hclaim unreachable_page 60 (Stats 0 0 0 0)
             (world_after 61 (Escaped ValueError)) st st None).
    - vm_compute. reflexivity.
    - reflexivity. }
  rewrite (monitor_url_escaped unreachable_page 60 (Stats 0 0 0 0)
             (world_after 61 (Escaped ValueError)) st st None ValueError)
    in Hrun; [discriminate Hrun|vm_compute; reflexivity|reflexivity].
Qed.

Lemma update_last_checked (d : database) (watched : list (list value))
    (v : value) (url : string) :
  d !! "urls"%string = Some (Table watch_columns (Some "url"%string) watched) ->
  Sql.update "urls" "last_checked" v "url" url d
  = Return (<["urls"%string :=
               Table watch_columns (Some "url"%string)
                 (map (fun r => if Sql.row_matches 0 url r
                                then <[1%nat := v]> r else r) watched)]> d).
Proof.
  intros Htab. unfold Sql.update, Sql.find_table. rewrite Htab. reflexivity.
Qed.

(** C5: when the fetch of a watched URL is triggered with prior hash [h] and
    succeeds with non-empty content whose hash is [h], the loop counts one
    more fetch and nothing else, rewrites [last_checked] of the URL's watch
    list rows to the time read after the fetch, and leaves every other table,
    [websites] and [website_archive] among them, as it was.  A run of
    [monitor_website_changes] on that URL alone returns one fetch and no
    error, change or new page. *)
Theorem unchanged_page_only_refreshes_last_checked
    (url : string) (w : Z) (s : stats) (e : env) (st st1 : state)
    (h content : string) (watched : list (list value)) :
  db st !! "urls"%string = Some (Table watch_columns (Some "url"%string) watched) ->
  should_fetch_content url w e st = (Return (true, Some h), st1) ->
  response_text (network e (requests st1) url) = content ->
  content <> EmptyString ->
  get_content_hash content = h ->
  let now := clock e (ticks st1) in
  let refreshed :=
    map (fun r => if Sql.row_matches 0 url r
                  then <[1%nat := Some (Datetime.isoformat now)]> r else r)
        watched in
  let final :=
    <["urls"%string := Table watch_columns (Some "url"%string) refreshed]> (db st) in
  monitor_url w s url e st
  = (Return (Stats (num_errors s) (num_fetches s + 1) (num_changes s)
                   (num_new_pages s)),
     State final (S (ticks st1)) (S (requests st1)))
  /\ monitor_website_changes [url] w e st
     = (Return (Stats 0 1 0 0), State final (S (ticks st1)) (S (requests st1)))
  /\ final !! "websites"%string = db st !! "websites"%string
  /\ final !! "website_archive"%string = db st !! "website_archive"%string.
Proof.
  intros Hwatch Hfetch Hbody Hnonempty Hhash now refreshed final.
  assert (Hstep : forall s0,
    monitor_url w s0 url e st
    = (Return (Stats (num_errors s0) (num_fetches s0 + 1) (num_changes s0)
                     (num_new_pages s0)),
       State final (S (ticks st1)) (S (requests st1)))).
  { intros s0. unfold monitor_url. rewrite bind_run, Hfetch. cbn beta iota.
    rewrite bind_run, (get_website_content_text url content e _ Hbody Hnonempty).
    cbn beta iota. rewrite bool_decide_eq_false_2 by exact Hnonempty.
    rewrite Hhash.
    rewrite bool_decide_eq_false_2 by (intros Hne; apply Hne; reflexivity).
    mstep. rewrite execute_run. cbn [db ticks requests].
    rewrite (should_fetch_content_store _ _ _ _ _ _ Hfetch).
    rewrite (update_last_checked _ _ _ _ Hwatch). reflexivity. }
  split; [apply Hstep|].
  split; [rewrite monitor_single_url; exact (Hstep (Stats 0 0 0 0))|].
  split; unfold final; rewrite lookup_insert_ne by discriminate; reflexivity.
Qed.

Lemma unchanged_page_witness :
  monitor_website_changes [page] 60 (world_after 61 (Reply 200 "v1"))
    (State watching_store 0 0)
  = (Return (Stats 0 1 0 0),
     State (<["urls"%string :=
               Table watch_columns (Some "url"%string)
                 (map (fun r =>
                         if Sql.row_matches 0 page r
                         then <[1%nat := Some (Datetime.isoformat
                                  (clock (world_after 61 (Reply 200 "v1")) 1))]> r
                         else r)
                      [[Some page; Some (Datetime.isoformat checked_at)]])]>
              watching_store) 2 1).
Proof.
  refine (proj1 (proj2 (unchanged_page_only_refreshes_last_checked page 60
           (Stats 0 0 0 0) (world_after 61 (Reply 200 "v1"))
           (State watching_store 0 0) (State watching_store 1 0)
           (get_content_hash "v1") "v1"
           [[Some page; Some (Datetime.isoformat checked_at)]] _ _ _ _ _)));
    vm_compute; try reflexivity; discriminate.
Defined.

(** ** What a statement does to the store *)

Lemma insert_effect (or_ignore : bool) (name : string) (cols : list string)
    (vals : list value) (d d' : database) :
  Sql.insert or_ignore name cols vals d = Return d' ->
  d' = d
  \/ exists t : table,
       let row := map (fun c => match Sql.position c cols with
                                | Some j => Sql.cell j vals
                                | None => None
                                end) (columns t) in
       d !! name = Some t
       /\ Sql.key_taken t row = false
       /\ d' = <[name := Sql.with_rows t (rows t ++ [row])]> d.
Proof.
  unfold Sql.insert, Sql.find_table.
  destruct (d !! name) as [t|] eqn:Htab; cbn [mbind outcome_bind]; [|discriminate].
  destruct (negb _); [discriminate|].
  destruct (negb _); [discriminate|].
  destruct (Sql.key_taken t _) eqn:Hkey.
  - destruct or_ignore; [|discriminate]. intros [= <-]. left. reflexivity.
  - intros [= <-]. right. exists t. cbn zeta. auto.
Qed.

Lemma update_effect (name col : string) (v : value) (wcol x : string)
    (d d' : database) :
  Sql.update name col v wcol x d = Return d' ->
  exists (t : table) (rs : list (list value)),
    d !! name = Some t /\ d' = <[name := Sql.with_rows t rs]> d.
Proof.
  unfold Sql.update, Sql.find_table.
  destruct (d !! name) as [t|] eqn:Htab; cbn [mbind outcome_bind]; [|discriminate].
  destruct (Sql.find_column col t); cbn [mbind outcome_bind]; [|discriminate].
  destruct (Sql.find_column wcol t); cbn [mbind outcome_bind]; [|discriminate].
  destruct (_ && _); [discriminate|]. intros [= <-]. eauto.
Qed.

Lemma delete_effect (name wcol x : string) (d d' : database) :
  Sql.delete_where name wcol x d = Return d' ->
  exists (t : table) (w : nat),
    d !! name = Some t
    /\ d' = <[name := Sql.with_rows t
                        (filter (fun r => negb (Sql.row_matches w x r)) (rows t))]> d.
Proof.
  unfold Sql.delete_where, Sql.find_table.
  destruct (d !! name) as [t|] eqn:Htab; cbn [mbind outcome_bind]; [|discriminate].
  destruct (Sql.find_column wcol t) as [w|]; cbn [mbind outcome_bind];
    [|discriminate].
  intros [= <-]. eauto.
Qed.

Lemma insert_elsewhere (or_ignore : bool) (name other : string)
    (cols : list string) (vals : list value) (d d' : database) :
  name <> other ->
  Sql.insert or_ignore name cols vals d = Return d' -> d' !! other = d !! other.
Proof.
  intros Hne Hrun. apply insert_effect in Hrun as [->|(t & _ & _ & ->)];
    [reflexivity|]. apply lookup_insert_ne, Hne.
Qed.

Lemma update_elsewhere (name other col : string) (v : value) (wcol x : string)
    (d d' : database) :
  name <> other ->
  Sql.update name col v wcol x d = Return d' -> d' !! other = d !! other.
Proof.
  intros Hne Hrun. apply update_effect in Hrun as (t & rs & _ & ->).
  apply lookup_insert_ne, Hne.
Qed.

Lemma delete_elsewhere (name other wcol x : string) (d d' : database) :
  name <> other ->
  Sql.delete_where name wcol x d = Return d' -> d' !! other = d !! other.
Proof.
  intros Hne Hrun. apply delete_effect in Hrun as (t & w & _ & ->).
  apply lookup_insert_ne, Hne.
Qed.

(** ** At most one snapshot per URL *)

Lemma exists_none_filter {A : Type} (p : A -> bool) (l : list A) :
  existsb p l = false -> filter p l = [].
Proof.
  induction l as [|a l IH]; [reflexivity|]. cbn [existsb].
  intros [Ha Hl]%orb_false_elim. rewrite filter_cons, Ha.
  rewrite decide_False by (intros []). apply IH, Hl.
Qed.

Lemma filter_after_delete {A : Type} (p q : A -> bool) (l : list A) :
  (length (filter p (filter q l)) <= length (filter p l))%nat.
Proof.
  induction l as [|a l IH]; [reflexivity|].
  rewrite (filter_cons q). destruct (q a); cbn [Is_true].
  - rewrite decide_True by exact I. rewrite !filter_cons.
    destruct (decide (p a)); cbn [length]; lia.
  - rewrite decide_False by (intros []). rewrite filter_cons.
    destruct (decide (p a)); cbn [length]; lia.
Qed.

Lemma keeps_one_snapshot_elsewhere (d d' : database) :
  d' !! "websites"%string = d !! "websites"%string -> keeps_one_snapshot d d'.
Proof. intros Hsame (ws & Htab & Hone). exists ws. rewrite Hsame. auto. Qed.

Lemma insert_keeps_one_snapshot (url : string) (b c v : value) (d d' : database) :
  Sql.insert false "websites" snapshot_columns [Some url; b; c; v] d = Return d' ->
  keeps_one_snapshot d d'.
Proof.
  intros Hrun (ws & Htab & Hone).
  apply insert_effect in Hrun as [->|(t & Ht & Hkey & ->)]; [exists ws; auto|].
  cbn zeta in Hkey. rewrite Htab in Ht. injection Ht as <-.
  cbn [columns rows Sql.with_rows primary_key] in *.
  change (map _ snapshot_columns) with [Some url; b; c; v] in *.
  exists (ws ++ [[Some url; b; c; v]]). split; [apply lookup_insert_eq|].
  intros u. rewrite filter_app, length_app, filter_cons, filter_nil.
  destruct (decide (Sql.row_matches 0 u [Some url; b; c; v])) as [Hm|Hm].
  - apply bool_decide_unpack in Hm. cbn in Hm. injection Hm as <-.
    cbn in Hkey. rewrite (exists_none_filter _ _ Hkey). reflexivity.
  - cbn [length]. specialize (Hone u). lia.
Qed.

Lemma delete_keeps_one_snapshot (url : string) (d d' : database) :
  Sql.delete_where "websites" "url" url d = Return d' -> keeps_one_snapshot d d'.
Proof.
  intros Hrun (ws & Htab & Hone).
  apply delete_effect in Hrun as (t & w & Ht & ->).
  rewrite Htab in Ht. injection Ht as <-.
  cbn [columns rows Sql.with_rows primary_key].
  eexists. split; [apply lookup_insert_eq|].
  intros u. etransitivity; [apply filter_after_delete|apply Hone].
Qed.

Lemma keeps_one_snapshot_refl (d : database) : keeps_one_snapshot d d.
Proof. intros H; exact H. Qed.

Lemma keeps_one_snapshot_trans (d1 d2 d3 : database) :
  keeps_one_snapshot d1 d2 -> keeps_one_snapshot d2 d3 -> keeps_one_snapshot d1 d3.
Proof. unfold keeps_one_snapshot. auto. Qed.

Lemma run_op_keeps_one_snapshot (o : store_op) :
  respects keeps_one_snapshot (run_op o).
Proof.
  pose proof keeps_one_snapshot_refl as Hrefl.
  pose proof keeps_one_snapshot_trans as Htrans.
  destruct o as [url content|url|new_urls|del_urls]; cbn [run_op].
  - unfold store_website_content.
    apply respects_bind; [assumption|apply respects_now; assumption|].
    intros now. apply respects_execute; [assumption|].
    intros d d'. apply insert_keeps_one_snapshot.
  - apply respects_bind; [assumption| |intros; apply respects_ret; assumption].
    unfold archive_old_website_content.
    apply respects_bind; [assumption|apply respects_fetchone; assumption|].
    intros data.
    apply respects_bind; [assumption|apply respects_subscript; assumption|].
    intros content. destruct data as [params|]; [|apply respects_raise; assumption].
    apply respects_bind; [assumption| |intros _].
    { apply respects_execute; [assumption|]. intros d d' Hrun.
      apply keeps_one_snapshot_elsewhere.
      eapply insert_elsewhere; [|exact Hrun]. discriminate. }
    apply respects_bind; [assumption| |intros _; apply respects_ret; assumption].
    apply respects_execute; [assumption|].
    intros d d'. apply delete_keeps_one_snapshot.
  - unfold update_urls.
    apply respects_bind; [assumption|apply respects_now; assumption|].
    intros now. apply respects_for_each; [assumption..|]. intros url.
    apply respects_except.
    apply respects_bind; [assumption| |intros _].
    + apply respects_execute; [assumption|]. intros d d' Hrun.
      apply keeps_one_snapshot_elsewhere.
      eapply insert_elsewhere; [|exact Hrun]. discriminate.
    + apply respects_execute; [assumption|]. intros d d' Hrun.
      apply keeps_one_snapshot_elsewhere.
      eapply update_elsewhere; [|exact Hrun]. discriminate.
  - unfold remove_urls. apply respects_for_each; [assumption..|]. intros url.
    apply respects_except. apply respects_execute; [assumption|].
    intros d d' Hrun. apply keeps_one_snapshot_elsewhere.
    eapply delete_elsewhere; [|exact Hrun]. discriminate.
Qed.

(** C8: in every state reached from a store that [create_tables] has set up
    by any sequence of calls of [store_website_content],
    [archive_old_website_content], [update_urls] and [remove_urls], the
    [websites] table holds at most one row for each URL. *)
Theorem at_most_one_snapshot_per_url (e : env) (st : state) (url : string) :
  reachable e st ->
  exists current : list (list value),
    Sql.select_star_where "websites" "url" url (db st) = Return current
    /\ (length current <= 1)%nat.
Proof.
  intros Hreach.
  assert (Hinv : one_snapshot_per_url (db st)).
  { induction Hreach as [t r|st o _ IH].
    - exists []. split; [apply fresh_snapshots|]. intros u. cbn. lia.
    - exact (run_op_keeps_one_snapshot o e st IH). }
  destruct Hinv as (ws & Htab & Hone).
  exists (filter (Sql.row_matches 0 url) ws). split; [|apply Hone].
  unfold Sql.select_star_where, Sql.find_table. rewrite Htab. reflexivity.
Qed.

Lemma at_most_one_snapshot_witness :
  exists current : list (list value),
    Sql.select_star_where "websites" "url" page
      (db (snd (run_op (StoreContent page "v2") (world_after 0 NoReply)
                 (snd (run_op (StoreContent page "v1") (world_after 0 NoReply)
                        (snd (create_tables (world_after 0 NoReply)
                                (State ∅ 0 0))))))))
    = Return current
    /\ (length current <= 1)%nat.
Proof.
  apply (at_most_one_snapshot_per_url (world_after 0 NoReply)).
  do 2 apply reachable_step. apply reachable_created.
Defined.

(** ** Empty content never becomes a snapshot *)

Lemma only_adds_content_refl (d : database) : only_adds_content d d.
Proof. intros t Htab Hcols. exists t. auto. Qed.

Lemma only_adds_content_trans (d1 d2 d3 : database) :
  only_adds_content d1 d2 -> only_adds_content d2 d3 -> only_adds_content d1 d3.
Proof.
  intros H12 H23 t Htab Hcols.
  destruct (H12 t Htab Hcols) as (t2 & Htab2 & Hcols2 & Hrows2).
  destruct (H23 t2 Htab2 Hcols2) as (t3 & Htab3 & Hcols3 & Hrows3).
  exists t3. split; [exact Htab3|]. split; [exact Hcols3|].
  intros row Hrow. destruct (Hrows3 row Hrow) as [Hin|Hnew]; auto.
Qed.

Lemma only_adds_content_elsewhere (d d' : database) :
  d' !! "websites"%string = d !! "websites"%string -> only_adds_content d d'.
Proof. intros Hsame t Htab Hcols. exists t. rewrite Hsame. auto. Qed.

Lemma insert_only_adds_content (a b c : value) (content : string)
    (d d' : database) :
  content <> EmptyString ->
  Sql.insert false "websites" snapshot_columns [a; b; c; Some content] d
    = Return d' ->
  only_adds_content d d'.
Proof.
  intros Hnonempty Hrun t Htab Hcols.
  apply insert_effect in Hrun as [->|(t0 & Ht0 & _ & ->)]; [exists t; auto|].
  rewrite Htab in Ht0. injection Ht0 as <-. rewrite Hcols.
  change (map _ snapshot_columns) with [a; b; c; Some content].
  eexists. split; [apply lookup_insert_eq|]. split; [exact Hcols|].
  cbn [rows Sql.with_rows]. intros row [Hold|Hnew%list_elem_of_singleton]%elem_of_app.
  - left. exact Hold.
  - right. exists content. subst row. split; [reflexivity|exact Hnonempty].
Qed.

Lemma delete_only_adds_content (url : string) (d d' : database) :
  Sql.delete_where "websites" "url" url d = Return d' -> only_adds_content d d'.
Proof.
  intros Hrun t Htab Hcols.
  apply delete_effect in Hrun as (t0 & w & Ht0 & ->).
  rewrite Htab in Ht0. injection Ht0 as <-.
  eexists. split; [apply lookup_insert_eq|]. split; [exact Hcols|].
  cbn [rows Sql.with_rows]. intros row [_ Hold]%list_elem_of_filter. left. exact Hold.
Qed.

Lemma monitor_url_only_adds_content (w : Z) (s : stats) (url : string) :
  respects only_adds_content (monitor_url w s url).
Proof.
  pose proof only_adds_content_refl as Hrefl.
  pose proof only_adds_content_trans as Htrans.
  assert (Hstore : forall content, content <> EmptyString ->
            respects only_adds_content (store_website_content url content)).
  { intros content Hnonempty. unfold store_website_content.
    apply respects_bind; [assumption|apply respects_now; assumption|].
    intros now. apply respects_execute; [assumption|].
    intros d d'. apply insert_only_adds_content, Hnonempty. }
  unfold monitor_url.
  apply respects_bind;
    [assumption|apply respects_should_fetch_content; assumption|].
  intros [[|] old]; [|apply respects_ret; assumption].
  apply respects_bind;
    [assumption|apply respects_get_website_content; assumption|].
  intros content. case_bool_decide as Hcontent; [apply respects_ret; assumption|].
  apply respects_bind; [assumption| |intros s'].
  - destruct old as [old_hash|].
    + case_bool_decide; [|apply respects_ret; assumption].
      apply respects_bind; [assumption| |intros old_content].
      * unfold archive_old_website_content.
        apply respects_bind; [assumption|apply respects_fetchone; assumption|].
        intros data.
        apply respects_bind; [assumption|apply respects_subscript; assumption|].
        intros v. destruct data as [params|]; [|apply respects_raise; assumption].
        apply respects_bind; [assumption| |intros _].
        { apply respects_execute; [assumption|]. intros d d' Hrun.
          apply only_adds_content_elsewhere.
          eapply insert_elsewhere; [|exact Hrun]. discriminate. }
        apply respects_bind;
          [assumption| |intros _; apply respects_ret; assumption].
        apply respects_execute; [assumption|].
        intros d d'. apply delete_only_adds_content.
      * apply respects_bind;
          [assumption|apply respects_highlight_diffs; assumption|intros _].
        apply respects_bind;
          [assumption|apply Hstore, Hcontent
          |intros _; apply respects_ret; assumption].
    + apply respects_bind;
        [assumption|apply Hstore, Hcontent
        |intros _; apply respects_ret; assumption].
  - apply respects_bind; [assumption|apply respects_now; assumption|].
    intros now.
    apply respects_bind; [assumption| |intros _; apply respects_ret; assumption].
    apply respects_execute; [assumption|]. intros d d' Hrun.
    apply only_adds_content_elsewhere.
    eapply update_elsewhere; [|exact Hrun]. discriminate.
Qed.

Lemma monitor_loop_only_adds_content (w : Z) (urls : list string) (s : stats) :
  respects only_adds_content (monitor_loop w s urls).
Proof.
  revert s. induction urls as [|url rest IH]; intros s; cbn [monitor_loop].
  - apply respects_ret, only_adds_content_refl.
  - apply respects_bind.
    + apply only_adds_content_trans.
    + apply monitor_url_only_adds_content.
    + intros s'. apply IH.
Qed.

(** C10: when a triggered fetch yields the empty string, be it that the
    request failed or that a successful response had an empty body,
    [monitor_website_changes] counts a fetch and an error for the URL and
    leaves the whole store as it was; and over any run of
    [monitor_website_changes] every row of [websites] that was not there
    before has a non-empty [content]. *)
Theorem empty_content_counts_as_error
    (url : string) (w : Z) (s : stats) (e : env) (st st1 : state) (old : value) :
  should_fetch_content url w e st = (Return (true, old), st1) ->
  (fetch_failed (network e (requests st1) url) = true
   \/ exists status : Z, network e (requests st1) url = Reply status EmptyString) ->
  monitor_url w s url e st
  = (Return (Stats (num_errors s + 1) (num_fetches s + 1) (num_changes s)
                   (num_new_pages s)),
     State (db st) (ticks st1) (S (requests st1)))
  /\ monitor_website_changes [url] w e st
     = (Return (Stats 1 1 0 0), State (db st) (ticks st1) (S (requests st1)))
  /\ forall (urls : list string) (w' : Z) (e' : env) (st' : state),
       only_adds_content (db st')
         (db (snd (monitor_website_changes urls w' e' st'))).
Proof.
  intros Hfetch Hempty. apply get_website_content_empty in Hempty.
  split; [|split].
  - apply (monitor_url_empty_content url w s e st st1 old Hfetch Hempty).
  - rewrite monitor_single_url.
    exact (monitor_url_empty_content url w (Stats 0 0 0 0) e st st1 old
             Hfetch Hempty).
  - intros urls w' e' st'. apply monitor_loop_only_adds_content.
Qed.

Lemma empty_content_witness :
  monitor_website_changes [page] 60 (world_after 61 (Reply 200 EmptyString))
    (State watching_store 0 0)
  = (Return (Stats 1 1 0 0), State watching_store 1 1).
Proof.
  refine (proj1 (proj2 (empty_content_counts_as_error page 60 (Stats 0 0 0 0)
                   (world_after 61 (Reply 200 EmptyString))
                   (State watching_store 0 0) (State watching_store 1 0)
                   (Some (get_content_hash "v1")) _ _))).
  - vm_compute. reflexivity.
  - right. exists 200. reflexivity.
Defined.

(** ** The hasher *)

Lemma hex_digit_in_alphabet (z : Z) : SHA256.hex_digit z ∈ hex_alphabet.
Proof.
  unfold SHA256.hex_digit. apply list_elem_of_In, nth_In.
  change (length hex_alphabet) with 16%nat.
  pose proof (Z.mod_pos_bound z 16 eq_refl). lia.
Qed.

Lemma hex_word_shape (w : Z) :
  length (SHA256.hex_word w) = 8%nat
  /\ Forall (fun c => c ∈ hex_alphabet) (SHA256.hex_word w).
Proof.
  split; [reflexivity|]. unfold SHA256.hex_word.
  apply Forall_forall. intros c (i & -> & _)%list_elem_of_fmap.
  apply hex_digit_in_alphabet.
Qed.

Lemma hexdigest_shape (c : SHA256.chain) :
  length (list_ascii_of_string (SHA256.hexdigest c)) = 64%nat
  /\ Forall (fun c => c ∈ hex_alphabet) (list_ascii_of_string (SHA256.hexdigest c)).
Proof.
  unfold SHA256.hexdigest. rewrite list_ascii_of_string_of_list_ascii.
  split; [reflexivity|].
  apply Forall_concat, Forall_forall. intros l (w & -> & _)%list_elem_of_fmap.
  apply hex_word_shape.
Qed.

Lemma string_length_list (s : string) :
  String.length s = length (list_ascii_of_string s).
Proof. induction s as [|a s IH]; cbn; congruence. Qed.

Module HasherFacts.
Import FIPS180.

(** *** The constants *)

Lemma first_primes :
  length primes = 64%nat /\ nth 0 primes 0 = 2 /\ nth 63 primes 0 = 311
  /\ forallb is_prime primes = true.
Proof. vm_compute. auto. Qed.

Lemma cube_roots_exact :
  Forall (fun p => let r := cube_root (p * 2 ^ 96) in
                   r * r * r <= p * 2 ^ 96 < (r + 1) * (r + 1) * (r + 1))
         primes.
Proof.
  apply Forall_forall. intros p Hp.
  assert (Hcheck : forallb (fun p => let r := cube_root (p * 2 ^ 96) in
                      (r * r * r <=? p * 2 ^ 96)
                      && (p * 2 ^ 96 <? (r + 1) * (r + 1) * (r + 1))) primes
                   = true) by (vm_compute; reflexivity).
  rewrite forallb_forall in Hcheck. apply list_elem_of_In in Hp.
  specialize (Hcheck p Hp). cbn zeta in *.
  apply andb_true_iff in Hcheck as [Hle Hlt].
  apply Z.leb_le in Hle. apply Z.ltb_lt in Hlt. lia.
Qed.

Lemma round_constants_are_cube_roots :
  map K (seq 0 64) = SHA256.round_constants.
Proof. vm_compute. reflexivity. Qed.

Lemma initial_chain_is_square_roots (bs : list bool) :
  H bs 0 = SHA256.initial_chain.
Proof. vm_compute. reflexivity. Qed.

(** *** The message schedule *)

Lemma W_low (M : nat -> Z) (t : nat) : (t < 16)%nat -> W M t = M t.
Proof. intros Ht. do 16 (destruct t as [|t]; [reflexivity|]). lia. Qed.

Lemma W_high (M : nat -> Z) (t : nat) :
  W M (16 + t)
  = SHA256.add32
      (SHA256.add32
         (SHA256.add32 (SHA256.small_sigma1 (W M (14 + t))) (W M (9 + t)))
         (SHA256.small_sigma0 (W M (1 + t))))
      (W M t).
Proof. reflexivity. Qed.

Lemma W_ext (M M' : nat -> Z) :
  (forall t, (t < 16)%nat -> M t = M' t) -> forall t, W M t = W M' t.
Proof.
  intros Hlow t. induction t as [t IH] using lt_wf_ind.
  destruct (le_lt_dec 16 t) as [Hge|Hlt].
  - replace t with (16 + (t - 16))%nat by lia. rewrite !W_high.
    rewrite !IH by lia. reflexivity.
  - rewrite !W_low by exact Hlt. apply Hlow, Hlt.
Qed.

Lemma nth_schedule_prefix (M : nat -> Z) (m i : nat) :
  (i < m)%nat -> nth i (rev (map (W M) (seq 0 m))) 0 = W M (m - 1 - i).
Proof.
  intros Hi. rewrite rev_nth by (rewrite length_map, length_seq; exact Hi).
  rewrite length_map, length_seq.
  rewrite (nth_indep _ 0 (W M 0)) by (rewrite length_map, length_seq; lia).
  rewrite (map_nth (W M)), seq_nth by lia. f_equal. lia.
Qed.

Lemma extend_schedule_spec (M : nat -> Z) (n m : nat) :
  (16 <= m)%nat ->
  SHA256.extend_schedule n (rev (map (W M) (seq 0 m)))
  = rev (map (W M) (seq 0 (m + n))).
Proof.
  revert m. induction n as [|n IH]; intros m Hm.
  - rewrite Nat.add_0_r. reflexivity.
  - cbn [SHA256.extend_schedule].
    assert (Hnext : SHA256.next_schedule_word (rev (map (W M) (seq 0 m)))
                    = W M m).
    { unfold SHA256.next_schedule_word.
      rewrite !nth_schedule_prefix by lia.
      replace (W M m) with (W M (16 + (m - 16))) by (f_equal; lia).
      rewrite W_high.
      replace (m - 1 - 1)%nat with (14 + (m - 16))%nat by lia.
      replace (m - 1 - 6)%nat with (9 + (m - 16))%nat by lia.
      replace (m - 1 - 14)%nat with (1 + (m - 16))%nat by lia.
      replace (m - 1 - 15)%nat with (m - 16)%nat by lia.
      reflexivity. }
    rewrite Hnext.
    replace (W M m :: rev (map (W M) (seq 0 m)))
      with (rev (map (W M) (seq 0 (S m))))
      by (rewrite seq_S, map_app, rev_app_distr; reflexivity).
    rewrite IH by lia. do 3 f_equal. lia.
Qed.

Lemma block_words (block : list Z) :
  length block = 16%nat -> block = map (fun t => nth t block 0) (seq 0 16).
Proof.
  intros Hlen. do 17 (destruct block as [|? block]; try discriminate).
  reflexivity.
Qed.

Lemma schedule_of_words (M : nat -> Z) :
  SHA256.schedule (map M (seq 0 16)) = map (W M) (seq 0 64).
Proof.
  unfold SHA256.schedule.
  assert (Hstart : map M (seq 0 16) = map (W M) (seq 0 16)).
  { apply map_ext_in. intros t Ht%in_seq. symmetry. apply W_low. lia. }
  etransitivity;
    [exact (f_equal (fun l => rev (SHA256.extend_schedule 48 (rev l))) Hstart)|].
  cbv beta. etransitivity;
    [exact (f_equal (@rev Z) (extend_schedule_spec M 48 16 (le_n 16)))|].
  apply rev_involutive.
Qed.

Lemma schedule_spec (block : list Z) :
  length block = 16%nat ->
  SHA256.schedule block = map (W (fun t => nth t block 0)) (seq 0 64).
Proof.
  intros Hlen.
  etransitivity; [exact (f_equal SHA256.schedule (block_words block Hlen))|].
  apply schedule_of_words.
Qed.

(** *** The rounds and the compression of a block *)

Lemma fold_rounds (M : nat -> Z) (c : SHA256.chain) (n : nat) :
  fold_left SHA256.round (map (fun t => (K t, W M t)) (seq 0 n)) c
  = rounds M c n.
Proof.
  induction n as [|n IH]; [reflexivity|].
  rewrite seq_S, map_app, fold_left_app, IH. reflexivity.
Qed.

Lemma combine_maps {A B C : Type} (f : A -> B) (g : A -> C) (l : list A) :
  combine (map f l) (map g l) = map (fun a => (f a, g a)) l.
Proof. induction l as [|a l IH]; [reflexivity|]. cbn. f_equal. exact IH. Qed.

Lemma rounds_ext (M M' : nat -> Z) (c : SHA256.chain) (n : nat) :
  (forall t, (t < 16)%nat -> M t = M' t) -> rounds M c n = rounds M' c n.
Proof.
  intros Hlow. induction n as [|n IH]; [reflexivity|].
  cbn [rounds]. rewrite IH, (W_ext M M' Hlow). reflexivity.
Qed.

Lemma compress_spec (c : SHA256.chain) (block : list Z) :
  length block = 16%nat ->
  SHA256.compress c block
  = let r := rounds (fun t => nth t block 0) c 64 in
    SHA256.Chain
      (SHA256.add32 (SHA256.wa c) (SHA256.wa r))
      (SHA256.add32 (SHA256.wb c) (SHA256.wb r))
      (SHA256.add32 (SHA256.wc c) (SHA256.wc r))
      (SHA256.add32 (SHA256.wd c) (SHA256.wd r))
      (SHA256.add32 (SHA256.we c) (SHA256.we r))
      (SHA256.add32 (SHA256.wf c) (SHA256.wf r))
      (SHA256.add32 (SHA256.wg c) (SHA256.wg r))
      (SHA256.add32 (SHA256.wh c) (SHA256.wh r)).
Proof.
  intros Hlen. unfold SHA256.compress.
  rewrite (schedule_spec block Hlen), <- round_constants_are_cube_roots.
  rewrite combine_maps, fold_rounds. reflexivity.
Qed.

(** *** Bit strings and the numbers they write *)

Lemma number_from (bs : list bool) (acc : Z) :
  fold_left (fun (acc : Z) (b : bool) => 2 * acc + Z.b2z b) bs acc
  = acc * 2 ^ Z.of_nat (length bs) + number bs.
Proof.
  unfold number. revert acc. induction bs as [|b bs IH]; intros acc.
  - cbn. lia.
  - cbn [fold_left length]. rewrite IH, (IH (2 * 0 + Z.b2z b)).
    rewrite Nat2Z.inj_succ, Z.pow_succ_r by lia. lia.
Qed.

Lemma number_app (xs ys : list bool) :
  number (xs ++ ys) = number xs * 2 ^ Z.of_nat (length ys) + number ys.
Proof. unfold number at 1. rewrite fold_left_app. apply number_from. Qed.

Lemma number_cons (b : bool) (bs : list bool) :
  number (b :: bs) = Z.b2z b * 2 ^ Z.of_nat (length bs) + number bs.
Proof.
  change (b :: bs) with ([b] ++ bs). rewrite number_app.
  unfold number at 1. cbn [fold_left]. lia.
Qed.

Lemma binary_length (w : nat) (z : Z) : length (binary w z) = w.
Proof. unfold binary. rewrite length_map, length_rev, length_seq. reflexivity. Qed.

Lemma binary_succ (w : nat) (z : Z) :
  binary (S w) z = Z.testbit z (Z.of_nat w) :: binary w z.
Proof. unfold binary. rewrite seq_S, rev_app_distr. reflexivity. Qed.

Lemma number_binary (w : nat) (z : Z) :
  number (binary w z) = z mod 2 ^ Z.of_nat w.
Proof.
  induction w as [|w IH].
  - cbn. rewrite Z.mod_1_r. reflexivity.
  - rewrite binary_succ, number_cons, binary_length, IH.
    rewrite Z.testbit_spec' by lia.
    rewrite Nat2Z.inj_succ, Z.pow_succ_r by lia.
    rewrite (Z.mul_comm 2), Z.rem_mul_r by lia. lia.
Qed.

(** *** Bytes as bits *)

Lemma bits_of_bytes_app (xs ys : list Z) :
  bits_of_bytes (xs ++ ys) = bits_of_bytes xs ++ bits_of_bytes ys.
Proof. unfold bits_of_bytes. rewrite map_app, concat_app. reflexivity. Qed.

Lemma bits_of_bytes_cons (b : Z) (bs : list Z) :
  bits_of_bytes (b :: bs) = binary 8 b ++ bits_of_bytes bs.
Proof. reflexivity. Qed.

Lemma bits_of_bytes_length (bs : list Z) :
  length (bits_of_bytes bs) = (8 * length bs)%nat.
Proof.
  induction bs as [|b bs IH]; [reflexivity|].
  rewrite bits_of_bytes_cons, length_app, binary_length, IH. cbn [length]. lia.
Qed.

Lemma number_four_bytes (b0 b1 b2 b3 : Z) :
  is_byte b0 -> is_byte b1 -> is_byte b2 -> is_byte b3 ->
  number (bits_of_bytes [b0; b1; b2; b3])
  = ((b0 * 256 + b1) * 256 + b2) * 256 + b3.
Proof.
  unfold is_byte. intros H0 H1 H2 H3.
  rewrite !bits_of_bytes_cons. change (bits_of_bytes []) with (@nil bool).
  rewrite app_nil_r, !number_app, !length_app, !binary_length, !number_binary.
  change (2 ^ Z.of_nat 8) with 256.
  change (2 ^ Z.of_nat (8 + 8)) with 65536.
  change (2 ^ Z.of_nat (8 + (8 + 8))) with 16777216.
  rewrite !Z.mod_small by lia. lia.
Qed.

Lemma words_of_bytes_length (n : nat) (bs : list Z) :
  (4 * n <= length bs)%nat -> length (SHA256.words_of_bytes n bs) = n.
Proof.
  revert bs. induction n as [|n IH]; intros bs Hlen; [reflexivity|].
  destruct bs as [|b0 [|b1 [|b2 [|b3 rest]]]]; cbn [length] in Hlen; try lia.
  cbn [SHA256.words_of_bytes length]. rewrite IH by lia. reflexivity.
Qed.

Lemma words_of_bytes_nth (n : nat) (bs : list Z) (j : nat) :
  Forall is_byte bs ->
  (4 * n <= length bs)%nat ->
  (j < n)%nat ->
  nth j (SHA256.words_of_bytes n bs) 0
  = number (firstn 32 (skipn (32 * j) (bits_of_bytes bs))).
Proof.
  revert bs j. induction n as [|n IH]; intros bs j Hbytes Hlen Hj; [lia|].
  destruct bs as [|b0 [|b1 [|b2 [|b3 rest]]]]; cbn [length] in Hlen; try lia.
  apply Forall_cons in Hbytes as [H0 Hbytes].
  apply Forall_cons in Hbytes as [H1 Hbytes].
  apply Forall_cons in Hbytes as [H2 Hbytes].
  apply Forall_cons in Hbytes as [H3 Hbytes].
  cbn [SHA256.words_of_bytes].
  change (b0 :: b1 :: b2 :: b3 :: rest) with ([b0; b1; b2; b3] ++ rest).
  rewrite bits_of_bytes_app.
  assert (Hfour : length (bits_of_bytes [b0; b1; b2; b3]) = 32%nat)
    by (rewrite bits_of_bytes_length; reflexivity).
  destruct j as [|j].
  - cbn [nth]. rewrite Nat.mul_0_r, drop_0.
    rewrite firstn_app, Hfour, Nat.sub_diag. cbn [firstn].
    rewrite app_nil_r, firstn_all2 by lia.
    symmetry. apply number_four_bytes; assumption.
  - cbn [nth]. rewrite IH by (try assumption; lia).
    replace (32 * S j)%nat with (32 * j + 32)%nat by lia.
    rewrite <- skipn_skipn. reflexivity.
Qed.

(** *** Padding *)

Lemma binary_app (n m : nat) (z : Z) :
  binary (n + m) z = binary n (z / 2 ^ Z.of_nat m) ++ binary m z.
Proof.
  induction n as [|n IH]; [reflexivity|].
  cbn [Nat.add]. rewrite !binary_succ, IH. cbn [app]. f_equal.
  rewrite Z.div_pow2_bits by lia. f_equal. lia.
Qed.

Lemma binary_mod (n : nat) (z : Z) :
  binary n (z mod 2 ^ Z.of_nat n) = binary n z.
Proof.
  unfold binary. apply map_ext_in. intros i Hi%in_rev%in_seq.
  apply Z.mod_pow2_bits_low. lia.
Qed.

Lemma bits_of_big_endian (w : nat) (z : Z) :
  bits_of_bytes (SHA256.big_endian w z) = binary (8 * w) z.
Proof.
  induction w as [|w IH]; [reflexivity|].
  unfold SHA256.big_endian in *. rewrite seq_S, rev_app_distr.
  cbn [Nat.add rev app map]. rewrite bits_of_bytes_cons, IH.
  replace (8 * S w)%nat with (8 + 8 * w)%nat by lia.
  rewrite binary_app. f_equal.
  replace (256 ^ Z.of_nat w) with (2 ^ Z.of_nat (8 * w))
    by (rewrite Nat2Z.inj_mul, Z.pow_mul_r by lia; reflexivity).
  apply (binary_mod 8).
Qed.

Lemma bits_of_zero_bytes (k : nat) :
  bits_of_bytes (repeat 0 k) = repeat false (8 * k).
Proof.
  induction k as [|k IH]; [reflexivity|].
  cbn [repeat]. rewrite bits_of_bytes_cons, IH.
  replace (8 * S k)%nat with (8 + 8 * k)%nat by lia.
  rewrite repeat_app. reflexivity.
Qed.

Lemma pad_bits (msg : list Z) :
  pad (bits_of_bytes msg) = bits_of_bytes (SHA256.pad msg).
Proof.
  unfold pad, SHA256.pad. cbv zeta.
  rewrite !bits_of_bytes_app, bits_of_zero_bytes, bits_of_big_endian.
  rewrite bits_of_bytes_length. f_equal.
  change (bits_of_bytes [128]) with ([true] ++ repeat false 7).
  rewrite <- !app_assoc. f_equal. rewrite app_assoc, <- repeat_app.
  f_equal; [f_equal|f_equal; lia].
  rewrite Nat2Z.inj_mul. change (Z.of_nat 8) with 8.
  assert (Hzeros : (448 - (8 * Z.of_nat (length msg) + 1)) mod 512
                   = 7 + 8 * ((55 - Z.of_nat (length msg)) mod 64))
    by (Z.div_mod_to_equations; lia).
  rewrite Hzeros.
  pose proof (Z.mod_pos_bound (55 - Z.of_nat (length msg)) 64 eq_refl).
  lia.
Qed.

Lemma pad_bytes (msg : list Z) :
  Forall is_byte msg -> Forall is_byte (SHA256.pad msg).
Proof.
  intros Hmsg. unfold SHA256.pad. cbv zeta.
  repeat apply Forall_app_2; [exact Hmsg| | |].
  - repeat constructor; unfold is_byte; lia.
  - apply Forall_forall. intros b Hb%list_elem_of_In%repeat_spec. subst b.
    unfold is_byte. lia.
  - apply Forall_forall. unfold SHA256.big_endian.
    intros b (i & -> & _)%list_elem_of_fmap. apply Z.mod_pos_bound. lia.
Qed.

Lemma pad_length (msg : list Z) :
  exists q : nat, length (SHA256.pad msg) = (64 * q)%nat.
Proof.
  unfold SHA256.pad. cbv zeta.
  rewrite !length_app, repeat_length. unfold SHA256.big_endian.
  rewrite length_map, length_rev, length_seq. cbn [length].
  pose proof (Z.mod_pos_bound (55 - Z.of_nat (length msg)) 64 eq_refl) as Hk.
  exists (Z.to_nat ((Z.of_nat (length msg) + 1
                     + (55 - Z.of_nat (length msg)) mod 64 + 8) / 64)).
  apply Nat2Z.inj. rewrite Nat2Z.inj_mul, !Nat2Z.inj_add, !Z2Nat.id.
  - change (Z.of_nat 64) with 64. change (Z.of_nat 1) with 1.
    change (Z.of_nat 8) with 8. Z.div_mod_to_equations. lia.
  - Z.div_mod_to_equations. lia.
  - lia.
Qed.

(** *** The blocks in turn *)

Lemma absorb_spec (bs : list bool) (ws : list Z) :
  (forall i t : nat,
     (t < 16)%nat -> (16 * i + t < length ws)%nat ->
     nth (16 * i + t) ws 0 = word bs i t) ->
  forall n i : nat,
    (16 * (i + n) <= length ws)%nat ->
    SHA256.absorb n (skipn (16 * i) ws) (H bs i) = H bs (i + n).
Proof.
  intros Hws n. induction n as [|n IH]; intros i Hlen.
  - rewrite Nat.add_0_r. reflexivity.
  - cbn [SHA256.absorb]. rewrite skipn_skipn.
    replace (16 + 16 * i)%nat with (16 * S i)%nat by lia.
    replace (i + S n)%nat with (S i + n)%nat by lia.
    rewrite <- IH by lia. f_equal.
    rewrite compress_spec
      by (rewrite length_firstn, length_skipn; lia).
    cbv zeta. cbn [H].
    rewrite (rounds_ext (fun t => nth t (firstn 16 (skipn (16 * i) ws)) 0)
               (word bs i)); [reflexivity|].
    intros t Ht. rewrite nth_firstn.
    destruct (Nat.ltb_spec t 16) as [_|]; [|lia].
    rewrite nth_skipn. apply Hws; lia.
Qed.

(** The digest [hashlib] computes on bytes is the hash the standard defines
    on their bits. *)
Lemma digest_is_standard_hash (msg : list Z) :
  Forall is_byte msg -> SHA256.digest msg = hash (bits_of_bytes msg).
Proof.
  intros Hmsg. unfold SHA256.digest, hash. cbv zeta.
  rewrite pad_bits. set (padded := SHA256.pad msg).
  destruct (pad_length msg) as [q Hq]. fold padded in Hq.
  pose proof (pad_bytes msg Hmsg) as Hbytes. fold padded in Hbytes.
  assert (Hfour : (length padded / 4 = 16 * q)%nat).
  { rewrite Hq. replace (64 * q)%nat with ((16 * q) * 4)%nat by lia.
    apply Nat.div_mul. lia. }
  assert (Hwords : length (SHA256.words_of_bytes (length padded / 4) padded)
                   = (16 * q)%nat)
    by (rewrite words_of_bytes_length; lia).
  set (ws := SHA256.words_of_bytes (length padded / 4) padded) in *.
  rewrite Hwords, bits_of_bytes_length, Hq.
  replace (16 * q / 16)%nat with q
    by (rewrite Nat.mul_comm, Nat.div_mul; lia).
  replace (8 * (64 * q) / 512)%nat with q
    by (replace (8 * (64 * q))%nat with (q * 512)%nat by lia;
        rewrite Nat.div_mul; lia).
  rewrite <- (initial_chain_is_square_roots (bits_of_bytes padded)).
  refine (absorb_spec (bits_of_bytes padded) ws _ q 0%nat _); [|lia].
  intros i t Ht Hit. rewrite Hwords in Hit. unfold ws.
  rewrite words_of_bytes_nth by (try assumption; lia).
  unfold word. do 3 f_equal. lia.
Qed.

(** *** The bytes of a content *)

Lemma encode_bytes (s : string) : Forall is_byte (encode s).
Proof.
  unfold encode. apply Forall_forall. intros b (a & -> & _)%list_elem_of_fmap.
  pose proof (N_ascii_bounded a). unfold is_byte. lia.
Qed.

Lemma encode_injective (x y : string) : encode x = encode y -> x = y.
Proof.
  unfold encode. intros Hsame.
  rewrite <- (string_of_list_ascii_of_string x),
          <- (string_of_list_ascii_of_string y).
  f_equal. revert Hsame.
  generalize (list_ascii_of_string x) (list_ascii_of_string y).
  induction l as [|a l IH]; intros [|b l']; cbn; try discriminate; [reflexivity|].
  intros [= Hab Hrest]. f_equal; [|apply IH, Hrest].
  apply N2Z.inj in Hab.
  rewrite <- (ascii_N_embedding a), <- (ascii_N_embedding b), Hab. reflexivity.
Qed.

(** *** Words of 32 bits and their hexadecimal digits *)

Lemma add32_word (a b : Z) : is_word (SHA256.add32 a b).
Proof. apply Z.mod_pos_bound. reflexivity. Qed.

Lemma compress_in_range (c : SHA256.chain) (block : list Z) :
  chain_in_range (SHA256.compress c block).
Proof. unfold SHA256.compress. cbv zeta. repeat constructor; apply add32_word. Qed.

Lemma absorb_in_range (n : nat) (ws : list Z) (c : SHA256.chain) :
  chain_in_range c -> chain_in_range (SHA256.absorb n ws c).
Proof.
  revert ws c. induction n as [|n IH]; intros ws c Hc; [exact Hc|].
  cbn [SHA256.absorb]. apply IH, compress_in_range.
Qed.

Lemma digest_in_range (msg : list Z) : chain_in_range (SHA256.digest msg).
Proof.
  unfold SHA256.digest. cbv zeta. apply absorb_in_range.
  repeat constructor; unfold is_word; cbn; lia.
Qed.

Lemma hex_value_digit (z : Z) : hex_value (SHA256.hex_digit z) = z mod 16.
Proof.
  unfold SHA256.hex_digit.
  pose proof (Z.mod_pos_bound z 16 eq_refl) as Hm.
  set (n := Z.to_nat (z mod 16)).
  assert (Hn : z mod 16 = Z.of_nat n) by lia.
  assert (Hcases : (n < 16)%nat) by lia.
  clearbody n. rewrite Hn.
  do 16 (destruct n as [|n]; [reflexivity|]). lia.
Qed.

Lemma hex_number_word (w acc : Z) :
  is_word w ->
  fold_left (fun acc a => 16 * acc + hex_value a) (SHA256.hex_word w) acc
  = 4294967296 * acc + w.
Proof.
  unfold is_word. intros Hw. unfold SHA256.hex_word.
  cbn [seq rev app map fold_left]. rewrite !hex_value_digit.
  change (16 ^ Z.of_nat 0) with 1. change (16 ^ Z.of_nat 1) with 16.
  change (16 ^ Z.of_nat 2) with 256. change (16 ^ Z.of_nat 3) with 4096.
  change (16 ^ Z.of_nat 4) with 65536. change (16 ^ Z.of_nat 5) with 1048576.
  change (16 ^ Z.of_nat 6) with 16777216.
  change (16 ^ Z.of_nat 7) with 268435456.
  Z.div_mod_to_equations. lia.
Qed.

Lemma hex_number_digest (c : SHA256.chain) :
  chain_in_range c -> hex_number (SHA256.hexdigest c) = chain_number c.
Proof.
  intros Hc. unfold hex_number, SHA256.hexdigest, chain_number.
  rewrite list_ascii_of_string_of_list_ascii.
  generalize 0. revert Hc. unfold chain_in_range.
  induction (SHA256.chain_words c) as [|w ws IH]; intros Hws acc;
    [reflexivity|].
  apply Forall_cons in Hws as [Hw Hws].
  cbn [map concat fold_left]. rewrite fold_left_app, hex_number_word by exact Hw.
  apply IH, Hws.
Qed.

Lemma chain_number_injective (c c' : SHA256.chain) :
  chain_in_range c -> chain_in_range c' ->
  chain_number c = chain_number c' -> c = c'.
Proof.
  destruct c as [a b c d e f g h], c' as [a' b' c' d' e' f' g' h'].
  unfold chain_in_range, chain_number, is_word, SHA256.chain_words.
  cbn [SHA256.chain_words SHA256.wa SHA256.wb SHA256.wc SHA256.wd SHA256.we
       SHA256.wf SHA256.wg SHA256.wh fold_left].
  rewrite !Forall_cons. intros Hc Hc' Hsame.
  assert (Hstep : forall x y u v : Z,
            0 <= u < 4294967296 -> 0 <= v < 4294967296 ->
            4294967296 * x + u = 4294967296 * y + v -> x = y /\ u = v)
    by (intros; lia).
  destruct Hc as (Ha & Hb & Hc & Hd & He & Hf & Hg & Hh & _).
  destruct Hc' as (Ha' & Hb' & Hc' & Hd' & He' & Hf' & Hg' & Hh' & _).
  apply Hstep in Hsame as [Hsame ->]; [|assumption..].
  apply Hstep in Hsame as [Hsame ->]; [|assumption..].
  apply Hstep in Hsame as [Hsame ->]; [|assumption..].
  apply Hstep in Hsame as [Hsame ->]; [|assumption..].
  apply Hstep in Hsame as [Hsame ->]; [|assumption..].
  apply Hstep in Hsame as [Hsame ->]; [|assumption..].
  apply Hstep in Hsame as [Hsame ->]; [|assumption..].
  apply Hstep in Hsame as [_ ->]; [|assumption..].
  reflexivity.
Qed.

Lemma hexdigest_injective (c c' : SHA256.chain) :
  chain_in_range c -> chain_in_range c' ->
  SHA256.hexdigest c = SHA256.hexdigest c' -> c = c'.
Proof.
  intros Hc Hc' Hsame. apply chain_number_injective; try assumption.
  rewrite <- !hex_number_digest by assumption. rewrite Hsame. reflexivity.
Qed.

End HasherFacts.


(** ** [create_tables] on any database *)

Lemma create_table_lookup (name : string) (cols : list string)
    (key : option string) (d : database) (n : string) :
  Sql.create_table_if_not_exists name cols key d !! n
  = match d !! n with
    | Some t => Some t
    | None => if decide (n = name) then Some (Table cols key []) else None
    end.
Proof.
  unfold Sql.create_table_if_not_exists.
  destruct (d !! name) as [t|] eqn:Hname.
  - destruct (d !! n) as [t'|] eqn:Hn; [reflexivity|].
    destruct (decide (n = name)) as [->|]; congruence.
  - destruct (decide (n = name)) as [->|Hne].
    + rewrite lookup_insert_eq, Hname. reflexivity.
    + rewrite lookup_insert_ne by congruence. destruct (d !! n); reflexivity.
Qed.

Lemma create_table_present (name : string) (cols : list string)
    (key : option string) (d : database) :
  is_Some (d !! name) -> Sql.create_table_if_not_exists name cols key d = d.
Proof.
  intros [t Ht]. unfold Sql.create_table_if_not_exists. rewrite Ht. reflexivity.
Qed.

(** X1: [create_tables] always returns; it leaves every table that already
    exists exactly as it is, rows and layout included, adds nothing but the
    three tables of the program where they are missing, and running it again
    changes nothing. *)
Theorem create_tables_keeps_existing_tables (e : env) (st : state) :
  fst (create_tables e st) = Return tt
  /\ (forall (name : string) (t : table),
        db st !! name = Some t -> db (snd (create_tables e st)) !! name = Some t)
  /\ (forall name : string,
        name ∈ ["websites"; "website_archive"; "urls"]%string ->
        is_Some (db (snd (create_tables e st)) !! name))
  /\ (forall name : string,
        name ∉ ["websites"; "website_archive"; "urls"]%string ->
        db (snd (create_tables e st)) !! name = db st !! name)
  /\ create_tables e (snd (create_tables e st))
     = (Return tt, snd (create_tables e st)).
Proof.
  rewrite create_tables_run. cbn [fst snd db ticks requests].
  assert (Hlook : forall n,
    Sql.create_table_if_not_exists "urls" ["url"%string] (Some "url"%string)
      (Sql.create_table_if_not_exists "website_archive" snapshot_columns None
         (Sql.create_table_if_not_exists "websites" snapshot_columns
            (Some "url"%string) (db st))) !! n
    = match db st !! n with
      | Some t => Some t
      | None =>
          if decide (n = "websites"%string)
          then Some (Table snapshot_columns (Some "url"%string) [])
          else if decide (n = "website_archive"%string)
               then Some (Table snapshot_columns None [])
               else if decide (n = "urls"%string)
                    then Some (Table ["url"%string] (Some "url"%string) [])
                    else None
      end).
  { intros n. rewrite !create_table_lookup.
    destruct (db st !! n); [reflexivity|].
    repeat case_decide; reflexivity. }
  split; [reflexivity|]. split; [|split; [|split]].
  - intros name t Ht. rewrite Hlook, Ht. reflexivity.
  - intros name Hin. rewrite Hlook. destruct (db st !! name); [eauto|].
    repeat (apply elem_of_cons in Hin as [->|Hin]); [..|inversion Hin];
      repeat case_decide; try congruence; eauto.
  - intros name Hout. rewrite Hlook. destruct (db st !! name); [reflexivity|].
    repeat case_decide; subst; try reflexivity; exfalso; apply Hout;
      repeat constructor.
  - rewrite create_tables_run. cbn [db ticks requests]. f_equal. f_equal.
    rewrite (create_table_present "websites").
    + rewrite (create_table_present "website_archive").
      * apply create_table_present. rewrite Hlook.
        destruct (db st !! "urls"%string); [eauto|].
        repeat case_decide; try congruence; eauto.
      * rewrite Hlook. destruct (db st !! "website_archive"%string); [eauto|].
        repeat case_decide; try congruence; eauto.
    + rewrite Hlook. destruct (db st !! "websites"%string); [eauto|].
      repeat case_decide; try congruence; eauto.
Qed.

(** ** The watch list operations always return *)

Lemma execute_raises_sqlite stmt (e : env) (st st' : state) (x : exn) :
  (forall d err, stmt d = Raise err -> is_sqlite_error err = true) ->
  execute stmt e st = (Raise x, st') -> is_sqlite_error x = true.
Proof.
  intros Hstmt. rewrite execute_run.
  destruct (stmt (db st)) as [d|err] eqn:Hrun; [discriminate|].
  intros [= <- _]. apply (Hstmt _ _ Hrun).
Qed.

Lemma except_returns (body : M unit) (e : env) (st : state) :
  (forall x st', body e st = (Raise x, st') -> is_sqlite_error x = true) ->
  fst (except_sqlite_error body e st) = Return tt.
Proof.
  intros Hbody. unfold except_sqlite_error.
  destruct (body e st) as [[[]|x] st'] eqn:Hrun; [reflexivity|].
  rewrite (Hbody x st' eq_refl). reflexivity.
Qed.

Lemma for_each_returns {A : Type} (l : list A) (body : A -> M unit)
    (e : env) (st : state) :
  (forall a st0, fst (body a e st0) = Return tt) ->
  fst (for_each l body e st) = Return tt.
Proof.
  intros Hbody. revert st. induction l as [|a l IH]; intros st; [reflexivity|].
  cbn [for_each]. rewrite bind_run. specialize (Hbody a st).
  destruct (body a e st) as [[[]|x] st']; [apply IH|discriminate].
Qed.

(** X2: given URLs that sqlite3 can bind (texts with a UTF-8 encoding, of at
    most [INT_MAX] bytes), [update_urls] and [remove_urls] never raise,
    whatever the store holds: every database error is caught for the URL it
    concerns and the loop goes on.  Beyond that premise binding the URL
    raises an error that is no [sqlite3.Error], which the [except] clauses
    let through. *)
Theorem watch_list_updates_never_raise (urls : list string) (e : env) (st : state) :
  Forall bindable urls ->
  fst (update_urls urls e st) = Return tt
  /\ fst (remove_urls urls e st) = Return tt.
Proof.
  intros _. split.
  - unfold update_urls. rewrite bind_run. cbn [datetime_now].
    apply for_each_returns. intros url st0. apply except_returns.
    intros x st'. rewrite bind_run.
    destruct (execute _ e st0) as [[[]|x0] st1] eqn:Hins.
    + apply execute_raises_sqlite. intros d err. apply update_raises.
    + intros [= <- _]. revert Hins. apply execute_raises_sqlite.
      intros d err. apply insert_raises.
  - unfold remove_urls. apply for_each_returns. intros url st0.
    apply except_returns. intros x st'. apply execute_raises_sqlite.
    intros d err. apply delete_raises.
Qed.

Lemma watch_list_updates_witness :
  fst (update_urls [page; "http://exämple.com"%string]
         (world_after 0 NoReply) (State ∅ 0 0)) = Return tt
  /\ fst (remove_urls [page; "http://exämple.com"%string]
            (world_after 0 NoReply) (State ∅ 0 0)) = Return tt.
Proof.
  apply (watch_list_updates_never_raise [page; "http://exämple.com"%string]
           (world_after 0 NoReply) (State ∅ 0 0)).
  repeat (apply List.Forall_cons;
          [split; [reflexivity|vm_compute; discriminate]|]).
  apply List.Forall_nil.
Defined.

(** ** [remove_urls] *)

Lemma filter_twice {A : Type} (p q : A -> bool) (l : list A) :
  filter q (filter p l) = filter (fun a => p a && q a) l.
Proof.
  induction l as [|a l IH]; [reflexivity|].
  rewrite (filter_cons p), (filter_cons (fun a => p a && q a)).
  destruct (p a); cbn [andb Is_true].
  - rewrite decide_True by exact I. rewrite filter_cons, IH.
    destruct (q a); cbn [Is_true];
      [rewrite !decide_True by exact I|rewrite !decide_False by (intros [])];
      reflexivity.
  - rewrite !decide_False by (intros []). exact IH.
Qed.

Lemma filter_all {A : Type} (l : list A) : filter (fun _ : A => true) l = l.
Proof.
  induction l as [|a l IH]; [reflexivity|].
  rewrite filter_cons, decide_True by exact I. f_equal. exact IH.
Qed.

Lemma table_eta (t : table) : Sql.with_rows t (rows t) = t.
Proof. destruct t; reflexivity. Qed.

Lemma delete_watched (t : table) (w : nat) (url : string) (d : database) :
  d !! "urls"%string = Some t ->
  Sql.position "url" (columns t) = Some w ->
  Sql.delete_where "urls" "url" url d
  = Return (<["urls"%string :=
               Sql.with_rows t
                 (filter (fun r => negb (Sql.row_matches w url r)) (rows t))]> d).
Proof.
  intros Htab Hcol. unfold Sql.delete_where, Sql.find_table, Sql.find_column.
  rewrite Htab. cbn [mbind outcome_bind]. rewrite Hcol. reflexivity.
Qed.

Lemma remove_urls_run (del_urls : list string) (t : table) (w : nat)
    (e : env) (st : state) :
  db st !! "urls"%string = Some t ->
  Sql.position "url" (columns t) = Some w ->
  remove_urls del_urls e st
  = (Return tt,
     State (<["urls"%string :=
               Sql.with_rows t
                 (filter (fun r =>
                            forallb (fun u => negb (Sql.row_matches w u r)) del_urls)
                         (rows t))]> (db st))
           (ticks st) (requests st)).
Proof.
  unfold remove_urls. revert t st.
  induction del_urls as [|u rest IH]; intros t st Htab Hcol.
  - cbn [for_each forallb mret M_ret]. rewrite filter_all, table_eta.
    rewrite (insert_id _ _ _ Htab), state_eta. reflexivity.
  - cbn [for_each]. rewrite bind_run. unfold except_sqlite_error at 1.
    rewrite execute_run, (delete_watched t w u _ Htab Hcol).
    cbn [db ticks requests].
    rewrite (IH (Sql.with_rows t
                   (filter (fun r => negb (Sql.row_matches w u r)) (rows t))));
      [|apply lookup_insert_eq|exact Hcol].
    cbn [db ticks requests Sql.with_rows columns primary_key rows].
    rewrite insert_insert_eq, filter_twice. reflexivity.
Qed.

Lemma map_filter_cell {A B : Type} (f : A -> B) (p : B -> bool) (l : list A) :
  map f (filter (fun a => p (f a)) l) = filter p (map f l).
Proof.
  induction l as [|a l IH]; [reflexivity|]. cbn [map].
  rewrite !filter_cons. destruct (p (f a)); cbn [Is_true].
  - rewrite !decide_True by exact I. cbn [map]. f_equal. exact IH.
  - rewrite !decide_False by (intros []). exact IH.
Qed.

(** ** The order of a scan *)

Lemma ascii_compare_trans (a b c : ascii) :
  Ascii.compare a b <> Gt -> Ascii.compare b c <> Gt -> Ascii.compare a c <> Gt.
Proof.
  unfold Ascii.compare. rewrite !N.compare_le_iff. apply N.le_trans.
Qed.

Lemma string_leb_trans (a b c : string) :
  String.leb a b = true -> String.leb b c = true -> String.leb a c = true.
Proof.
  unfold String.leb. revert b c.
  induction a as [|x a IH]; intros [|y b] [|z c]; cbn; try congruence.
  unfold Ascii.compare.
  destruct (N.compare_spec (N_of_ascii x) (N_of_ascii y)) as [Hxy|Hxy|Hxy];
    destruct (N.compare_spec (N_of_ascii y) (N_of_ascii z)) as [Hyz|Hyz|Hyz];
    try congruence.
  - rewrite Hxy, Hyz, N.compare_refl. apply IH.
  - rewrite Hxy. apply N.compare_lt_iff in Hyz. rewrite Hyz. reflexivity.
  - rewrite <- Hyz. apply N.compare_lt_iff in Hxy. rewrite Hxy. reflexivity.
  - assert (Hxz : (N_of_ascii x < N_of_ascii z)%N) by lia.
    apply N.compare_lt_iff in Hxz. rewrite Hxz. reflexivity.
Qed.

Lemma key_le_total (a b : value) :
  Sql.key_le a b = true \/ Sql.key_le b a = true.
Proof. destruct a as [x|], b as [y|]; cbn; auto. apply String.leb_total. Qed.

Lemma key_le_trans (a b c : value) :
  Sql.key_le a b = true -> Sql.key_le b c = true -> Sql.key_le a c = true.
Proof.
  destruct a as [x|], b as [y|], c as [z|]; cbn; try congruence.
  apply string_leb_trans.
Qed.

Lemma index_insert_first (i : nat) (r : list value) (l : list (list value)) :
  Forall (index_le i r) l -> Sql.index_insert i r l = r :: l.
Proof.
  intros Hall. destruct Hall as [|r' l Hle _]; [reflexivity|].
  cbn [Sql.index_insert].
  unfold index_le in Hle. rewrite Hle. reflexivity.
Qed.

Lemma index_insert_elements (i : nat) (r r0 : list value) (l : list (list value)) :
  r0 ∈ Sql.index_insert i r l <-> r0 = r \/ r0 ∈ l.
Proof.
  induction l as [|r' l IH]; cbn [Sql.index_insert].
  - rewrite list_elem_of_singleton, elem_of_nil. tauto.
  - destruct (Sql.key_le _ _).
    + rewrite elem_of_cons. reflexivity.
    + rewrite !elem_of_cons, IH. tauto.
Qed.

Lemma index_insert_sorted (i : nat) (r : list value) (l : list (list value)) :
  StronglySorted (index_le i) l ->
  StronglySorted (index_le i) (Sql.index_insert i r l).
Proof.
  induction 1 as [|r' l Hsorted IH Hall]; cbn [Sql.index_insert].
  - repeat constructor.
  - destruct (Sql.key_le (Sql.cell i r) (Sql.cell i r')) eqn:Hle.
    + constructor; [constructor; assumption|].
      constructor; [exact Hle|].
      eapply Forall_impl; [exact Hall|]. intros r0 Hr0.
      exact (key_le_trans _ _ _ Hle Hr0).
    + constructor; [exact IH|].
      apply Forall_forall. intros r0 [->|Hr0]%index_insert_elements.
      * destruct (key_le_total (Sql.cell i r) (Sql.cell i r')); [congruence|assumption].
      * rewrite Forall_forall in Hall. apply Hall, Hr0.
Qed.

Lemma index_order_sorted (i : nat) (l : list (list value)) :
  StronglySorted (index_le i) (Sql.index_order i l).
Proof.
  induction l as [|r l IH]; cbn; [constructor|].
  apply index_insert_sorted, IH.
Qed.

Lemma index_order_elements (i : nat) (r : list value) (l : list (list value)) :
  r ∈ Sql.index_order i l <-> r ∈ l.
Proof.
  induction l as [|r' l IH]; cbn [Sql.index_order foldr]; [reflexivity|].
  change (foldr (Sql.index_insert i) [] l) with (Sql.index_order i l).
  rewrite index_insert_elements, elem_of_cons, IH. reflexivity.
Qed.

Lemma index_insert_permutation (i : nat) (r : list value) (l : list (list value)) :
  Sql.index_insert i r l ≡ₚ r :: l.
Proof.
  induction l as [|r' l IH]; cbn [Sql.index_insert]; [reflexivity|].
  destruct (Sql.key_le _ _); [reflexivity|].
  rewrite IH. apply Permutation_swap.
Qed.

Lemma index_order_permutation (i : nat) (l : list (list value)) :
  Sql.index_order i l ≡ₚ l.
Proof.
  induction l as [|r l IH]; cbn [Sql.index_order foldr]; [reflexivity|].
  change (foldr (Sql.index_insert i) [] l) with (Sql.index_order i l).
  rewrite index_insert_permutation, IH. reflexivity.
Qed.

(** Dropping rows and reading the index commute: the index keeps rows with
    equal keys in storage order. *)
Lemma index_insert_filter (p : list value -> bool) (i : nat) (r : list value)
    (l : list (list value)) :
  StronglySorted (index_le i) l ->
  filter p (Sql.index_insert i r l)
  = if p r then Sql.index_insert i r (filter p l) else filter p l.
Proof.
  induction 1 as [|r' l Hsorted IH Hall]; cbn [Sql.index_insert].
  - rewrite filter_cons, filter_nil. destruct (p r); cbn [Is_true];
      [rewrite decide_True by exact I|rewrite decide_False by (intros [])];
      reflexivity.
  - destruct (Sql.key_le (Sql.cell i r) (Sql.cell i r')) eqn:Hle.
    + rewrite (filter_cons _ r). destruct (p r); cbn [Is_true];
        [rewrite decide_True by exact I|rewrite decide_False by (intros []);
                                         reflexivity].
      symmetry. apply index_insert_first.
      apply Forall_forall. intros r0 [_ Hr0]%list_elem_of_filter.
      apply elem_of_cons in Hr0 as [->|Hr0]; [exact Hle|].
      rewrite Forall_forall in Hall.
      exact (key_le_trans _ _ _ Hle (Hall r0 Hr0)).
    + rewrite !(filter_cons _ r'), IH.
      destruct (p r'); cbn [Is_true];
        [rewrite !decide_True by exact I|rewrite !decide_False by (intros []);
                                          reflexivity].
      destruct (p r); [|reflexivity].
      cbn [Sql.index_insert]. rewrite Hle. reflexivity.
Qed.

Lemma index_order_filter (p : list value -> bool) (i : nat)
    (l : list (list value)) :
  filter p (Sql.index_order i l) = Sql.index_order i (filter p l).
Proof.
  induction l as [|r l IH]; [reflexivity|].
  cbn [Sql.index_order foldr].
  change (foldr (Sql.index_insert i) [] l) with (Sql.index_order i l).
  rewrite index_insert_filter by apply index_order_sorted.
  rewrite filter_cons, IH. destruct (p r); cbn [Is_true];
    [rewrite decide_True by exact I|rewrite decide_False by (intros [])];
    reflexivity.
Qed.

(** So do rewriting rows without touching the key, and reading the index. *)
Lemma index_order_map (g : list value -> list value) (i : nat)
    (l : list (list value)) :
  (forall r, Sql.cell i (g r) = Sql.cell i r) ->
  Sql.index_order i (map g l) = map g (Sql.index_order i l).
Proof.
  intros Hkey.
  assert (Hinsert : forall r s,
            Sql.index_insert i (g r) (map g s) = map g (Sql.index_insert i r s)).
  { intros r s. induction s as [|r' s IH]; [reflexivity|].
    cbn [map Sql.index_insert]. rewrite !Hkey.
    destruct (Sql.key_le _ _); [reflexivity|]. cbn [map]. f_equal. exact IH. }
  induction l as [|r l IH]; [reflexivity|].
  cbn [map Sql.index_order foldr].
  change (foldr (Sql.index_insert i) [] (map g l)) with (Sql.index_order i (map g l)).
  change (foldr (Sql.index_insert i) [] l) with (Sql.index_order i l).
  rewrite IH. apply Hinsert.
Qed.

Lemma get_all_urls_run (t : table) (w : nat) (e : env) (st : state) :
  db st !! "urls"%string = Some t ->
  Sql.position "url" (columns t) = Some w ->
  get_all_urls e st = (Return (map (Sql.cell w) (Sql.scan_order "url" w t)), st).
Proof.
  intros Htab Hcol. unfold get_all_urls. rewrite bind_run, fetchall_run.
  unfold Sql.select_all, Sql.find_table, Sql.find_column. rewrite Htab.
  cbn [mbind outcome_bind]. rewrite Hcol. cbn [mbind outcome_bind mret M_ret].
  rewrite map_map. reflexivity.
Qed.

(** X3: on a store whose watch list has a [url] column, [remove_urls]
    deletes exactly the rows whose url is one of the URLs given and nothing
    else: a URL that is not watched is a no-op, the other tables are
    untouched, and [get_all_urls] afterwards returns the earlier listing
    without the removed URLs, in the same order. *)
Theorem remove_urls_deletes_exact_matches
    (del_urls : list string) (t : table) (w : nat) (e : env) (st : state) :
  db st !! "urls"%string = Some t ->
  Sql.position "url" (columns t) = Some w ->
  let kept :=
    filter (fun r => forallb (fun u => negb (Sql.row_matches w u r)) del_urls)
           (rows t) in
  let st' :=
    State (<["urls"%string := Sql.with_rows t kept]> (db st))
          (ticks st) (requests st) in
  remove_urls del_urls e st = (Return tt, st')
  /\ (forall listing : list value,
        fst (get_all_urls e st) = Return listing ->
        fst (get_all_urls e st')
        = Return (filter (fun v : value => v ∉ (Some <$> del_urls)) listing)).
Proof.
  intros Htab Hcol kept st'. split; [apply remove_urls_run; assumption|].
  intros listing. rewrite (get_all_urls_run t w e st Htab Hcol).
  intros [= <-].
  rewrite (get_all_urls_run (Sql.with_rows t kept) w e st');
    [|apply lookup_insert_eq|exact Hcol].
  cbn [fst]. f_equal.
  assert (Horder : Sql.scan_order "url" w (Sql.with_rows t kept)
                   = filter (fun r => forallb (fun u => negb (Sql.row_matches w u r))
                                              del_urls)
                            (Sql.scan_order "url" w t)).
  { unfold Sql.scan_order. cbn [Sql.with_rows columns primary_key rows].
    destruct (_ && _); [|reflexivity].
    symmetry. apply index_order_filter. }
  rewrite Horder. unfold Sql.row_matches.
  etransitivity;
    [exact (map_filter_cell (Sql.cell w)
              (fun v => forallb (fun u => negb (bool_decide (v = Some u))) del_urls)
              (Sql.scan_order "url" w t))|].
  apply list_filter_iff. intros v. rewrite forallb_True, Forall_forall.
  split.
  - intros Hall (u & -> & Hu)%list_elem_of_fmap. specialize (Hall u Hu).
    rewrite bool_decide_eq_true_2 in Hall by reflexivity. exact Hall.
  - intros Hout u Hu. apply Is_true_true, negb_true_iff, bool_decide_eq_false.
    intros ->. apply Hout, list_elem_of_fmap. eauto.
Qed.

Lemma remove_urls_witness :
  fst (get_all_urls (world_after 0 NoReply)
         (snd (remove_urls [page; "http://other.example"%string]
                 (world_after 0 NoReply) (State watching_store 0 0))))
  = Return [].
Proof.
  pose proof (remove_urls_deletes_exact_matches
                [page; "http://other.example"%string]
                (Table watch_columns (Some "url"%string)
                   [[Some page; Some (Datetime.isoformat checked_at)]])
                0 (world_after 0 NoReply) (State watching_store 0 0)
                eq_refl eq_refl) as [Hrun Hlist].
  rewrite Hrun. cbn [snd].
  rewrite (Hlist [Some page]); [|reflexivity]. vm_compute. reflexivity.
Defined.

(** ** [update_urls] on a watch list that carries [last_checked] *)

Lemma insert_or_ignore_watched (watched : list (list value)) (url : string)
    (stamp : value) (d : database) :
  d !! "urls"%string = Some (Table watch_columns (Some "url"%string) watched) ->
  Sql.insert true "urls" ["url"; "last_checked"]%string [Some url; stamp] d
  = Return (<["urls"%string :=
               Table watch_columns (Some "url"%string)
                 (if existsb (Sql.row_matches 0 url) watched then watched
                  else watched ++ [[Some url; stamp]])]> d).
Proof.
  intros Htab. unfold Sql.insert, Sql.find_table. rewrite Htab.
  cbn [mbind outcome_bind].
  change (forallb _ ["url"; "last_checked"]%string) with true. cbn [negb].
  change (length ["url"; "last_checked"]%string =? length [Some url; stamp])%nat
    with true. cbn [negb].
  change (map _ (columns _)) with [Some url; stamp].
  change (Sql.key_taken _ [Some url; stamp])
    with (existsb (Sql.row_matches 0 url) watched).
  destruct (existsb (Sql.row_matches 0 url) watched); [|reflexivity].
  rewrite (insert_id _ _ _ Htab). reflexivity.
Qed.

Lemma update_urls_turn (watched : list (list value)) (url : string)
    (stamp : value) (e : env) (st : state) :
  db st !! "urls"%string = Some (Table watch_columns (Some "url"%string) watched) ->
  except_sqlite_error (
    execute (Sql.insert true "urls" ["url"; "last_checked"]%string
               [Some url; stamp]);;
    execute (Sql.update "urls" "last_checked" stamp "url" url)) e st
  = (Return tt,
     State (<["urls"%string :=
               Table watch_columns (Some "url"%string)
                 (watch_row stamp watched url)]> (db st))
           (ticks st) (requests st)).
Proof.
  intros Htab. unfold except_sqlite_error. rewrite bind_run, execute_run.
  rewrite (insert_or_ignore_watched _ _ _ _ Htab). cbn [db ticks requests].
  rewrite execute_run. cbn [db ticks requests].
  rewrite (update_last_checked _ _ _ _ (lookup_insert_eq _ _ _)).
  rewrite insert_insert_eq. reflexivity.
Qed.

Lemma update_urls_loop (stamp : value) (new_urls : list string)
    (watched : list (list value)) (e : env) (st : state) :
  db st !! "urls"%string = Some (Table watch_columns (Some "url"%string) watched) ->
  for_each new_urls (fun url =>
    except_sqlite_error (
      execute (Sql.insert true "urls" ["url"; "last_checked"]%string
                 [Some url; stamp]);;
      execute (Sql.update "urls" "last_checked" stamp "url" url))) e st
  = (Return tt,
     State (<["urls"%string :=
               Table watch_columns (Some "url"%string)
                 (foldl (watch_row stamp) watched new_urls)]> (db st))
           (ticks st) (requests st)).
Proof.
  revert watched st.
  induction new_urls as [|url rest IH]; intros watched st Htab.
  - cbn [for_each foldl mret M_ret]. rewrite (insert_id _ _ _ Htab), state_eta.
    reflexivity.
  - cbn [for_each foldl]. rewrite bind_run.
    rewrite (update_urls_turn watched url stamp e st Htab).
    rewrite (IH (watch_row stamp watched url)); [|apply lookup_insert_eq].
    cbn [db ticks requests]. rewrite insert_insert_eq. reflexivity.
Qed.

Lemma update_urls_run (new_urls : list string) (watched : list (list value))
    (e : env) (st : state) :
  db st !! "urls"%string = Some (Table watch_columns (Some "url"%string) watched) ->
  update_urls new_urls e st
  = (Return tt,
     State (<["urls"%string :=
               Table watch_columns (Some "url"%string)
                 (foldl (watch_row (Some (Datetime.isoformat (clock e (ticks st)))))
                        watched new_urls)]> (db st))
           (S (ticks st)) (requests st)).
Proof.
  intros Htab. unfold update_urls. rewrite bind_run. cbn [datetime_now].
  apply (update_urls_loop _ new_urls watched e
           (State (db st) (S (ticks st)) (requests st)) Htab).
Qed.

Lemma cell_key_after_stamp (r : list value) (v : value) :
  Sql.cell 0 (<[1%nat := v]> r) = Sql.cell 0 r.
Proof. destruct r as [|a [|b r]]; reflexivity. Qed.

Lemma key_taken_listed (u : string) (watched : list (list value)) :
  existsb (Sql.row_matches 0 u) watched = true
  <-> Some u ∈ map (Sql.cell 0) watched.
Proof.
  rewrite existsb_exists. split.
  - intros (r & Hr & Hm). apply bool_decide_eq_true in Hm. rewrite <- Hm.
    apply list_elem_of_In, in_map, Hr.
  - intros (r & Hm & Hr)%list_elem_of_fmap. exists r.
    split; [apply list_elem_of_In, Hr|]. apply bool_decide_eq_true. congruence.
Qed.

Lemma keys_watch_row (stamp : value) (watched : list (list value)) (u : string) :
  map (Sql.cell 0) (watch_row stamp watched u)
  = map (Sql.cell 0) watched
    ++ (if existsb (Sql.row_matches 0 u) watched then [] else [Some u]).
Proof.
  unfold watch_row. rewrite map_map.
  erewrite map_ext;
    [|intros r; destruct (Sql.row_matches 0 u r);
      [apply cell_key_after_stamp|reflexivity]].
  destruct (existsb (Sql.row_matches 0 u) watched).
  - rewrite app_nil_r. reflexivity.
  - rewrite map_app. reflexivity.
Qed.

Lemma keys_after_update (stamp : value) (new_urls : list string)
    (watched : list (list value)) :
  let listing := map (Sql.cell 0) (foldl (watch_row stamp) watched new_urls) in
  map (Sql.cell 0) watched `prefix_of` listing
  /\ (forall v : value,
        v ∈ listing <-> v ∈ map (Sql.cell 0) watched \/ v ∈ Some <$> new_urls)
  /\ (NoDup (map (Sql.cell 0) watched) -> NoDup listing).
Proof.
  revert watched. induction new_urls as [|u rest IH]; intros watched; cbn zeta.
  - cbn [foldl]. split; [reflexivity|]. split; [|auto].
    intros v. rewrite fmap_nil, elem_of_nil. tauto.
  - cbn [foldl]. destruct (IH (watch_row stamp watched u)) as (Hpre & Hin & Hnodup).
    rewrite keys_watch_row in Hpre, Hin, Hnodup.
    split; [|split].
    + etransitivity; [|exact Hpre]. apply prefix_app_r. reflexivity.
    + intros v. rewrite Hin, elem_of_app, fmap_cons, elem_of_cons.
      destruct (existsb (Sql.row_matches 0 u) watched) eqn:Hkey.
      * apply key_taken_listed in Hkey. rewrite elem_of_nil.
        split; [tauto|]. intros [?|[->|?]]; tauto.
      * rewrite list_elem_of_singleton. tauto.
    + intros Hold. apply Hnodup.
      destruct (existsb (Sql.row_matches 0 u) watched) eqn:Hkey.
      * rewrite app_nil_r. exact Hold.
      * apply NoDup_app. split; [exact Hold|]. split; [|apply NoDup_singleton].
        intros v Hv ->%list_elem_of_singleton.
        apply key_taken_listed in Hv. congruence.
Qed.

Lemma index_order_keys_sorted (i : nat) (l : list (list value)) :
  StronglySorted (fun a b : value => Sql.key_le a b = true)
                 (map (Sql.cell i) (Sql.index_order i l)).
Proof.
  pose proof (index_order_sorted i l) as Hsorted.
  induction Hsorted as [|r s _ IH Hall]; cbn [map]; constructor.
  - exact IH.
  - apply Forall_forall. intros v (r' & -> & Hr')%list_elem_of_fmap.
    rewrite Forall_forall in Hall. apply Hall, Hr'.
Qed.



(** The watch list holds [http://example.com]; [http://a.example], added
    after it, is listed before it. *)
Example listing_in_index_order :
  fst ((update_urls ["http://a.example"]%string;; get_all_urls)
         (world_after 0 NoReply) (State watching_store 0 0))
  = Return [Some "http://a.example"%string; Some page].
Proof. vm_compute. reflexivity. Qed.

Lemma filter_map_invariant {A : Type} (p : A -> bool) (g : A -> A) (l : list A) :
  (forall a, p (g a) = p a) -> filter p (map g l) = map g (filter p l).
Proof.
  intros Hinv. induction l as [|a l IH]; [reflexivity|]. cbn [map].
  rewrite !filter_cons, Hinv. destruct (p a); cbn [Is_true].
  - rewrite !decide_True by exact I. cbn [map]. f_equal. exact IH.
  - rewrite !decide_False by (intros []). exact IH.
Qed.

Lemma row_matches_after_stamp (u u' : string) (stamp : value) (r : list value) :
  Sql.row_matches 0 u
    (if Sql.row_matches 0 u' r then <[1%nat := stamp]> r else r)
  = Sql.row_matches 0 u r.
Proof.
  destruct (Sql.row_matches 0 u' r); [|reflexivity].
  unfold Sql.row_matches. rewrite cell_key_after_stamp. reflexivity.
Qed.

Lemma row_matches_two_urls (u u' : string) (r : list value) :
  u <> u' -> Sql.row_matches 0 u r = true -> Sql.row_matches 0 u' r = false.
Proof.
  intros Hne Hu. apply bool_decide_eq_true in Hu. apply bool_decide_eq_false.
  congruence.
Qed.

Lemma selected_after_other_url (stamp : value) (watched : list (list value))
    (u u' : string) :
  u <> u' ->
  filter (Sql.row_matches 0 u) (watch_row stamp watched u')
  = filter (Sql.row_matches 0 u) watched.
Proof.
  intros Hne. unfold watch_row.
  rewrite filter_map_invariant by (intros r; apply row_matches_after_stamp).
  assert (Hsame : filter (Sql.row_matches 0 u)
                    (if existsb (Sql.row_matches 0 u') watched then watched
                     else watched ++ [[Some u'; stamp]])
                  = filter (Sql.row_matches 0 u) watched).
  { destruct (existsb _ watched); [reflexivity|].
    rewrite filter_app, filter_cons, filter_nil.
    rewrite decide_False, app_nil_r; [reflexivity|].
    intros Hm. apply bool_decide_unpack in Hm. cbn in Hm. congruence. }
  rewrite Hsame. erewrite map_ext_in; [apply map_id|].
  intros r Hr. apply list_elem_of_In, list_elem_of_filter in Hr as [Hm _].
  apply Is_true_true in Hm. rewrite (row_matches_two_urls u u' r Hne Hm).
  reflexivity.
Qed.

Lemma selected_unique (u : string) (watched : list (list value)) :
  NoDup (map (Sql.cell 0) watched) ->
  existsb (Sql.row_matches 0 u) watched = true ->
  exists r : list value,
    filter (Sql.row_matches 0 u) watched = [r] /\ r ∈ watched
    /\ Sql.cell 0 r = Some u.
Proof.
  induction watched as [|r0 rest IH]; [discriminate|].
  cbn [map existsb]. intros [Hfresh Hrest]%NoDup_cons Hkey.
  rewrite filter_cons. destruct (Sql.row_matches 0 u r0) eqn:Hm; cbn [Is_true].
  - rewrite decide_True by exact I. apply bool_decide_eq_true in Hm.
    exists r0. split; [|split; [left|exact Hm]].
    f_equal. apply exists_none_filter.
    destruct (existsb (Sql.row_matches 0 u) rest) eqn:Hx; [|reflexivity].
    apply key_taken_listed in Hx. rewrite <- Hm in Hx. contradiction.
  - rewrite decide_False by (intros []). cbn [orb] in Hkey.
    destruct (IH Hrest Hkey) as (r & Hsel & Hin & Hcell).
    exists r. split; [exact Hsel|]. split; [right; exact Hin|exact Hcell].
Qed.

Lemma selected_after_same_url (stamp : value) (watched : list (list value))
    (u : string) :
  Forall (fun r => length r = 2%nat) watched ->
  NoDup (map (Sql.cell 0) watched) ->
  filter (Sql.row_matches 0 u) (watch_row stamp watched u) = [[Some u; stamp]].
Proof.
  intros Hwide Hnodup. unfold watch_row.
  rewrite filter_map_invariant by (intros r; apply row_matches_after_stamp).
  destruct (existsb (Sql.row_matches 0 u) watched) eqn:Hkey.
  - destruct (selected_unique u watched Hnodup Hkey) as (r & -> & Hin & Hcell).
    cbn [map]. unfold Sql.row_matches. rewrite Hcell.
    rewrite bool_decide_eq_true_2 by reflexivity.
    rewrite Forall_forall in Hwide. specialize (Hwide r Hin).
    destruct r as [|a [|b [|c r]]]; try discriminate.
    cbn in Hcell. subst a. reflexivity.
  - rewrite filter_app, (exists_none_filter _ _ Hkey), filter_cons, filter_nil.
    rewrite row_matches_own_key, decide_True by exact I.
    cbn [app map]. rewrite row_matches_own_key. reflexivity.
Qed.

Lemma watch_row_keeps_shape (stamp : value) (watched : list (list value))
    (u : string) :
  Forall (fun r => length r = 2%nat) watched ->
  NoDup (map (Sql.cell 0) watched) ->
  Forall (fun r => length r = 2%nat) (watch_row stamp watched u)
  /\ NoDup (map (Sql.cell 0) (watch_row stamp watched u)).
Proof.
  intros Hwide Hnodup. split.
  - unfold watch_row. apply Forall_forall.
    intros r (r0 & -> & Hr0)%list_elem_of_fmap.
    assert (Hlen : length r0 = 2%nat).
    { destruct (existsb _ watched).
      - rewrite Forall_forall in Hwide. apply Hwide, Hr0.
      - apply elem_of_app in Hr0 as [Hr0|Hnew%list_elem_of_singleton];
          [|subst r0; reflexivity].
        rewrite Forall_forall in Hwide. apply Hwide, Hr0. }
    destruct (Sql.row_matches 0 u r0); [rewrite length_insert|]; exact Hlen.
  - rewrite keys_watch_row.
    destruct (existsb (Sql.row_matches 0 u) watched) eqn:Hkey.
    + rewrite app_nil_r. exact Hnodup.
    + apply NoDup_app. split; [exact Hnodup|]. split; [|apply NoDup_singleton].
      intros v Hv ->%list_elem_of_singleton.
      apply key_taken_listed in Hv. congruence.
Qed.

Lemma selected_after_update (stamp : value) (new_urls : list string)
    (watched : list (list value)) (u : string) :
  Forall (fun r => length r = 2%nat) watched ->
  NoDup (map (Sql.cell 0) watched) ->
  (u ∈ new_urls \/ filter (Sql.row_matches 0 u) watched = [[Some u; stamp]] ->
   filter (Sql.row_matches 0 u) (foldl (watch_row stamp) watched new_urls)
   = [[Some u; stamp]])
  /\ (u ∉ new_urls ->
      filter (Sql.row_matches 0 u) (foldl (watch_row stamp) watched new_urls)
      = filter (Sql.row_matches 0 u) watched).
Proof.
  revert watched. induction new_urls as [|u' rest IH]; intros watched Hwide Hnodup.
  - cbn [foldl]. split; [|reflexivity]. intros [Hin|Hsel]; [inversion Hin|exact Hsel].
  - cbn [foldl].
    destruct (watch_row_keeps_shape stamp watched u' Hwide Hnodup) as [Hwide' Hnodup'].
    destruct (IH _ Hwide' Hnodup') as [IHin IHout].
    split.
    + intros Hcase. apply IHin.
      destruct (decide (u = u')) as [<-|Hne].
      * right. apply selected_after_same_url; assumption.
      * destruct Hcase as [Hin|Hsel].
        { apply elem_of_cons in Hin as [->|Hin]; [congruence|left; exact Hin]. }
        right. rewrite selected_after_other_url by exact Hne. exact Hsel.
    + intros Hout. apply not_elem_of_cons in Hout as [Hne Hout].
      rewrite IHout by exact Hout. apply selected_after_other_url, Hne.
Qed.

Lemma select_last_checked (watched : list (list value)) (u : string)
    (d : database) :
  d !! "urls"%string = Some (Table watch_columns (Some "url"%string) watched) ->
  Sql.select_where "last_checked" "urls" "url" u d
  = Return (map (fun r => [Sql.cell 1 r]) (filter (Sql.row_matches 0 u) watched)).
Proof.
  intros Htab. unfold Sql.select_where, Sql.find_table. rewrite Htab. reflexivity.
Qed.

(** X5: on a well-formed watch list that carries [last_checked], after
    [update_urls] the query [should_fetch_content] makes for [last_checked]
    returns, for each URL given, exactly one row holding the timestamp read
    at the start of the call, and returns for every other URL what it
    returned before. *)
Theorem update_urls_stamps_given_urls
    (new_urls : list string) (watched : list (list value))
    (e : env) (st : state) (u : string) :
  db st !! "urls"%string = Some (Table watch_columns (Some "url"%string) watched) ->
  Forall (fun r => length r = 2%nat) watched ->
  NoDup (map (Sql.cell 0) watched) ->
  (u ∈ new_urls ->
   Sql.select_where "last_checked" "urls" "url" u
     (db (snd (update_urls new_urls e st)))
   = Return [[Some (Datetime.isoformat (clock e (ticks st)))]])
  /\ (u ∉ new_urls ->
      Sql.select_where "last_checked" "urls" "url" u
        (db (snd (update_urls new_urls e st)))
      = Sql.select_where "last_checked" "urls" "url" u (db st)).
Proof.
  intros Htab Hwide Hnodup.
  rewrite (update_urls_run new_urls watched e st Htab). cbn [snd db].
  rewrite (select_last_checked _ u _ (lookup_insert_eq _ _ _)).
  rewrite (select_last_checked _ u _ Htab).
  destruct (selected_after_update (Some (Datetime.isoformat (clock e (ticks st))))
              new_urls watched u Hwide Hnodup) as [Hin Hout].
  split.
  - intros Hu. rewrite Hin by (left; exact Hu). reflexivity.
  - intros Hu. rewrite Hout by exact Hu. reflexivity.
Qed.

Lemma update_urls_stamps_witness :
  Sql.select_where "last_checked" "urls" "url" page
    (db (snd (update_urls [page] (world_after 90 NoReply) (State watching_store 0 0))))
  = Return [[Some (Datetime.isoformat (clock (world_after 90 NoReply) 0))]].
Proof.
  refine (proj1 (update_urls_stamps_given_urls [page]
                   [[Some page; Some (Datetime.isoformat checked_at)]]
                   (world_after 90 NoReply) (State watching_store 0 0) page
                   eq_refl _ _) _).
  - repeat constructor.
  - repeat constructor. intros Hin. inversion Hin.
  - left.
Defined.

(** ** Adding URLs and removing them again *)

Lemma watch_row_appends (stamp : value) (rows0 : list (list value)) (u : string) :
  (forall r, r ∈ rows0 -> Sql.row_matches 0 u r = true -> r = [Some u; stamp]) ->
  watch_row stamp rows0 u
  = rows0 ++ (if existsb (Sql.row_matches 0 u) rows0 then []
              else [[Some u; stamp]]).
Proof.
  intros Hown. unfold watch_row.
  destruct (existsb (Sql.row_matches 0 u) rows0).
  - rewrite app_nil_r. erewrite map_ext_in; [apply map_id|].
    intros r Hr. destruct (Sql.row_matches 0 u r) eqn:Hm; [|reflexivity].
    rewrite (Hown r (proj2 (list_elem_of_In _ _) Hr) Hm). reflexivity.
  - rewrite map_app. cbn [map]. rewrite row_matches_own_key. f_equal.
    erewrite map_ext_in; [apply map_id|].
    intros r Hr. destruct (Sql.row_matches 0 u r) eqn:Hm; [|reflexivity].
    rewrite (Hown r (proj2 (list_elem_of_In _ _) Hr) Hm). reflexivity.
Qed.

Lemma added_rows (stamp : value) (given new_urls : list string)
    (watched added : list (list value)) :
  (forall u, u ∈ given -> existsb (Sql.row_matches 0 u) watched = false) ->
  (forall u, u ∈ new_urls -> u ∈ given) ->
  Forall (fun r => exists u, u ∈ given /\ r = [Some u; stamp]) added ->
  exists added' : list (list value),
    foldl (watch_row stamp) (watched ++ added) new_urls = watched ++ added'
    /\ Forall (fun r => exists u, u ∈ given /\ r = [Some u; stamp]) added'.
Proof.
  intros Hfresh. revert added.
  induction new_urls as [|u rest IH]; intros added Hsub Hadded.
  - exists added. split; [reflexivity|exact Hadded].
  - cbn [foldl]. rewrite watch_row_appends.
    + rewrite <- app_assoc. apply IH.
      * intros u' Hu'. apply Hsub. right. exact Hu'.
      * apply Forall_app. split; [exact Hadded|].
        destruct (existsb _ _); constructor; [|constructor].
        exists u. split; [apply Hsub; left|reflexivity].
    + intros r [Hr|Hr]%elem_of_app Hm.
      * exfalso. assert (Hu : u ∈ given) by (apply Hsub; left).
        pose proof (Hfresh u Hu) as Hnone.
        apply exists_none_filter in Hnone.
        assert (Hin : r ∈ filter (Sql.row_matches 0 u) watched).
        { apply list_elem_of_filter. split; [rewrite Hm; exact I|exact Hr]. }
        rewrite Hnone in Hin. inversion Hin.
      * rewrite Forall_forall in Hadded.
        destruct (Hadded r Hr) as (u' & _ & ->).
        apply bool_decide_eq_true in Hm. cbn in Hm. congruence.
Qed.

Lemma rows_kept (urls : list string) (watched : list (list value)) :
  (forall u, u ∈ urls -> existsb (Sql.row_matches 0 u) watched = false) ->
  filter (fun r => forallb (fun u => negb (Sql.row_matches 0 u r)) urls) watched
  = watched.
Proof.
  induction watched as [|r rest IH]; intros Hnone; [reflexivity|].
  rewrite filter_cons, decide_True.
  - f_equal. apply IH. intros u Hu. specialize (Hnone u Hu).
    cbn [existsb] in Hnone. apply orb_false_elim in Hnone as [_ Hrest].
    exact Hrest.
  - apply Is_true_true, forallb_forall. intros u Hu.
    apply list_elem_of_In in Hu. specialize (Hnone u Hu). cbn [existsb] in Hnone.
    apply orb_false_elim in Hnone as [Hr _]. rewrite Hr. reflexivity.
Qed.

(** X6: on a store whose watch list carries [last_checked], adding URLs none
    of which is watched and then removing the same URLs gives back the store
    as it was, whatever the order and the repetitions in the list. *)
Theorem update_then_remove_restores_store
    (urls : list string) (watched : list (list value)) (e : env) (st : state) :
  db st !! "urls"%string = Some (Table watch_columns (Some "url"%string) watched) ->
  (forall u, u ∈ urls -> Some u ∉ map (Sql.cell 0) watched) ->
  (update_urls urls;; remove_urls urls) e st
  = (Return tt, State (db st) (S (ticks st)) (requests st)).
Proof.
  intros Htab Hfresh.
  assert (Hnone : forall u, u ∈ urls ->
            existsb (Sql.row_matches 0 u) watched = false).
  { intros u Hu. destruct (existsb _ watched) eqn:Hkey; [|reflexivity].
    apply key_taken_listed in Hkey. destruct (Hfresh u Hu Hkey). }
  rewrite bind_run, (update_urls_run urls watched e st Htab).
  set (stamp := Some (Datetime.isoformat (clock e (ticks st)))).
  destruct (added_rows stamp urls urls watched [] Hnone (fun u H => H)
              (List.Forall_nil _)) as (added & Hrows & Hadded).
  rewrite app_nil_r in Hrows. rewrite Hrows.
  erewrite remove_urls_run; [|apply lookup_insert_eq|reflexivity].
  cbn [db ticks requests rows Sql.with_rows columns primary_key].
  rewrite insert_insert_eq. do 2 f_equal.
  rewrite <- (insert_id _ _ _ Htab) at 2. do 2 f_equal.
  rewrite filter_app.
  replace (filter _ added) with (@nil (list value)).
  - rewrite app_nil_r. apply rows_kept, Hnone.
  - symmetry. clear Hrows. induction Hadded as [|r added (u & Hu & ->) _ IH];
      [reflexivity|].
    rewrite filter_cons, decide_False; [exact IH|].
    intros Hall. apply Is_true_true in Hall. rewrite forallb_forall in Hall.
    specialize (Hall u (proj1 (list_elem_of_In _ _) Hu)).
    rewrite row_matches_own_key in Hall. discriminate.
Qed.

Lemma update_then_remove_witness :
  (update_urls ["http://new.example"; "http://other.example"]%string;;
   remove_urls ["http://new.example"; "http://other.example"]%string)
    (world_after 5 NoReply) (State watching_store 0 0)
  = (Return tt, State watching_store 1 0).
Proof.
  apply (update_then_remove_restores_store
           ["http://new.example"; "http://other.example"]%string
           [[Some page; Some (Datetime.isoformat checked_at)]]
           (world_after 5 NoReply) (State watching_store 0 0) eq_refl).
  intros u Hu Hin. apply list_elem_of_singleton in Hin.
  repeat (apply elem_of_cons in Hu as [->|Hu]); [discriminate..|inversion Hu].
Defined.

(** ** Conflicts and missing columns *)

(** X7: [store_website_content] for a URL that already has a snapshot raises
    an [IntegrityError] from the PRIMARY KEY of [websites] and leaves the
    store as it was; only the clock has been read. *)
Theorem store_existing_snapshot_conflicts
    (url content : string) (e : env) (st : state)
    (snapshots : list (list value)) :
  db st !! "websites"%string
    = Some (Table snapshot_columns (Some "url"%string) snapshots) ->
  Some url ∈ map (Sql.cell 0) snapshots ->
  store_website_content url content e st
  = (Raise IntegrityError, State (db st) (S (ticks st)) (requests st)).
Proof.
  intros Htab Hin. apply key_taken_listed in Hin.
  unfold store_website_content. mstep. rewrite execute_run. cbn [db ticks requests].
  unfold Sql.insert, Sql.find_table. rewrite Htab. cbn [mbind outcome_bind].
  change (forallb _ snapshot_columns) with true. cbn [negb].
  change (length snapshot_columns =? length _)%nat with true. cbn [negb].
  change (map _ (columns _))
    with [Some url; Some (Datetime.isoformat (clock e (ticks st)));
          Some (get_content_hash content); Some content].
  change (Sql.key_taken _ _) with (existsb (Sql.row_matches 0 url) snapshots).
  rewrite Hin. reflexivity.
Qed.

Lemma store_existing_snapshot_witness :
  store_website_content page "v2" (world_after 5 NoReply) (State watching_store 0 0)
  = (Raise IntegrityError, State watching_store 1 0).
Proof.
  apply (store_existing_snapshot_conflicts page "v2" (world_after 5 NoReply)
           (State watching_store 0 0) [snapshot_row page checked_at "v1"]).
  - reflexivity.
  - left.
Defined.

Lemma select_where_raises (col name wcol x : string) (d : database) (err : exn) :
  Sql.select_where col name wcol x d = Raise err -> err = OperationalError.
Proof.
  unfold Sql.select_where, mbind, outcome_bind. sql_cases; intros [= <-];
    reflexivity.
Qed.

Lemma select_missing_column (col name wcol x : string) (d : database) :
  (forall t, d !! name = Some t -> Sql.position col (columns t) = None) ->
  Sql.select_where col name wcol x d = Raise OperationalError.
Proof.
  intros Hmissing. unfold Sql.select_where, Sql.find_table.
  destruct (d !! name) as [t|] eqn:Htab; [|reflexivity].
  cbn [mbind outcome_bind]. unfold Sql.find_column.
  rewrite (Hmissing t eq_refl). reflexivity.
Qed.

(** X8: when the watch list has no [last_checked] column, or there is no
    watch list at all, [should_fetch_content] raises an [OperationalError]
    for every URL, so [monitor_website_changes] on a non-empty list stops at
    its first URL with that error, having changed nothing and fetched
    nothing.  A store that [create_tables] has just set up is such a store. *)
Theorem monitor_without_last_checked_column
    (url : string) (rest : list string) (w : Z) (e : env) (st : state) :
  (forall t, db st !! "urls"%string = Some t ->
             Sql.position "last_checked" (columns t) = None) ->
  should_fetch_content url w e st = (Raise OperationalError, st)
  /\ monitor_website_changes (url :: rest) w e st = (Raise OperationalError, st).
Proof.
  intros Hmissing.
  assert (Hfetch : should_fetch_content url w e st = (Raise OperationalError, st)).
  { unfold should_fetch_content. rewrite bind_run, fetchone_run.
    destruct (Sql.select_where "content_hash" "websites" "url" url (db st))
      as [rs|x] eqn:Hsnap.
    - rewrite bind_run, fetchone_run.
      rewrite (select_missing_column _ _ _ _ _ Hmissing). reflexivity.
    - apply select_where_raises in Hsnap. subst x. reflexivity. }
  split; [exact Hfetch|].
  unfold monitor_website_changes. rewrite monitor_loop_cons.
  unfold monitor_url. rewrite bind_run, Hfetch. reflexivity.
Qed.

Lemma monitor_without_last_checked_witness :
  monitor_website_changes [page] 60 (world_after 0 (Reply 200 "v1"))
    (snd (create_tables (world_after 0 (Reply 200 "v1")) (State ∅ 0 0)))
  = (Raise OperationalError,
     snd (create_tables (world_after 0 (Reply 200 "v1")) (State ∅ 0 0))).
Proof.
  refine (proj2 (monitor_without_last_checked_column page [] 60
                   (world_after 0 (Reply 200 "v1"))
                   (snd (create_tables (world_after 0 (Reply 200 "v1"))
                           (State ∅ 0 0))) _)).
  intros t Htab. rewrite fresh_watch_list in Htab. injection Htab as <-.
  reflexivity.
Defined.

(** ** The three outcomes of a triggered or skipped fetch *)

Lemma listed_selected (u : string) (watched : list (list value)) :
  Some u ∈ map (Sql.cell 0) watched ->
  exists (r : list value) (more : list (list value)),
    filter (Sql.row_matches 0 u) watched = r :: more.
Proof.
  intros Hin. apply key_taken_listed in Hin.
  destruct (filter (Sql.row_matches 0 u) watched) as [|r more] eqn:Hsel; [|eauto].
  apply filter_none_exists in Hsel. congruence.
Qed.

Lemma select_content_hash (snapshots : list (list value)) (u : string)
    (d : database) :
  d !! "websites"%string
    = Some (Table snapshot_columns (Some "url"%string) snapshots) ->
  Sql.select_where "content_hash" "websites" "url" u d
  = Return (map (fun r => [Sql.cell 2 r]) (filter (Sql.row_matches 0 u) snapshots)).
Proof.
  intros Htab. unfold Sql.select_where, Sql.find_table. rewrite Htab. reflexivity.
Qed.



Lemma filter_after_removal {A : Type} (p : A -> bool) (l : list A) :
  filter p (filter (fun a => negb (p a)) l) = [].
Proof.
  induction l as [|a l IH]; [reflexivity|].
  rewrite (filter_cons (fun a => negb (p a))). destruct (p a) eqn:Hp; cbn [negb Is_true].
  - rewrite decide_False by (intros []). exact IH.
  - rewrite decide_True by exact I. rewrite filter_cons, Hp.
    rewrite decide_False by (intros []). exact IH.
Qed.

Lemma select_star_snapshots (snapshots : list (list value)) (u : string)
    (d : database) :
  d !! "websites"%string
    = Some (Table snapshot_columns (Some "url"%string) snapshots) ->
  Sql.select_star_where "websites" "url" u d
  = Return (filter (Sql.row_matches 0 u) snapshots).
Proof.
  intros Htab. unfold Sql.select_star_where, Sql.find_table. rewrite Htab.
  reflexivity.
Qed.

Lemma archive_existing_snapshot (url : string) (e : env) (st : state)
    (stamp hash : value) (old_content : string)
    (snapshots archived : list (list value)) :
  db st !! "websites"%string
    = Some (Table snapshot_columns (Some "url"%string) snapshots) ->
  db st !! "website_archive"%string
    = Some (Table snapshot_columns None archived) ->
  filter (Sql.row_matches 0 url) snapshots
    = [[Some url; stamp; hash; Some old_content]] ->
  archive_old_website_content url e st
  = (Return (Some old_content),
     State (<["websites"%string :=
               Table snapshot_columns (Some "url"%string)
                 (filter (fun r => negb (Sql.row_matches 0 url r)) snapshots)]>
              (<["website_archive"%string :=
                  Table snapshot_columns None
                    (archived ++ [[Some url; stamp; hash; Some old_content]])]>
                 (db st)))
           (ticks st) (requests st)).
Proof.
  intros Hweb Harch Hone. unfold archive_old_website_content.
  rewrite bind_run, fetchone_run, (select_star_snapshots _ _ _ Hweb), Hone. mstep.
  rewrite execute_run. cbn [db ticks requests].
  rewrite (insert_four_columns _ _ _ _ _ _ _ _ Harch) by reflexivity.
  mstep. rewrite execute_run. cbn [db ticks requests].
  unfold Sql.delete_where, Sql.find_table.
  rewrite lookup_insert_ne by discriminate. rewrite Hweb.
  reflexivity.
Qed.

(** X10: for a watched URL whose fetch is triggered with prior hash [h] and
    returns non-empty content with another hash, on a store laid out as the
    program expects and holding one snapshot of the URL,
    [monitor_website_changes] appends that snapshot, unchanged, to the
    archive, replaces it in [websites] by one holding the new content, its
    SHA-256 and the time of the write, counts one fetch and one change, and
    sets [last_checked] of the URL to the time read after the write. *)
Theorem changed_page_is_archived_and_replaced
    (url : string) (w : Z) (s : stats) (e : env) (st st1 : state)
    (h content old_content : string) (stamp hash : value)
    (snapshots watched archived : list (list value)) :
  db st !! "websites"%string
    = Some (Table snapshot_columns (Some "url"%string) snapshots) ->
  db st !! "website_archive"%string
    = Some (Table snapshot_columns None archived) ->
  db st !! "urls"%string = Some (Table watch_columns (Some "url"%string) watched) ->
  filter (Sql.row_matches 0 url) snapshots
    = [[Some url; stamp; hash; Some old_content]] ->
  should_fetch_content url w e st = (Return (true, Some h), st1) ->
  response_text (network e (requests st1) url) = content ->
  content <> EmptyString ->
  get_content_hash content <> h ->
  let refreshed :=
    map (fun r => if Sql.row_matches 0 url r
                  then <[1%nat := Some (Datetime.isoformat (clock e (S (ticks st1))))]> r
                  else r) watched in
  let final :=
    <["urls"%string := Table watch_columns (Some "url"%string) refreshed]>
      (<["websites"%string :=
          Table snapshot_columns (Some "url"%string)
            (filter (fun r => negb (Sql.row_matches 0 url r)) snapshots
             ++ [snapshot_row url (clock e (ticks st1)) content])]>
         (<["website_archive"%string :=
             Table snapshot_columns None
               (archived ++ [[Some url; stamp; hash; Some old_content]])]>
            (db st))) in
  monitor_url w s url e st
  = (Return (Stats (num_errors s) (num_fetches s + 1) (num_changes s + 1)
                   (num_new_pages s)),
     State final (S (S (ticks st1))) (S (requests st1)))
  /\ monitor_website_changes [url] w e st
     = (Return (Stats 0 1 1 0), State final (S (S (ticks st1))) (S (requests st1))).
Proof.
  intros Hweb Harch Hwatch Hone Hfetch Hbody Hnonempty Hhash refreshed final.
  pose proof (should_fetch_content_store _ _ _ _ _ _ Hfetch) as Hdb.
  assert (Hstep : forall s0,
    monitor_url w s0 url e st
    = (Return (Stats (num_errors s0) (num_fetches s0 + 1) (num_changes s0 + 1)
                     (num_new_pages s0)),
       State final (S (S (ticks st1))) (S (requests st1)))).
  { intros s0. unfold monitor_url. rewrite bind_run, Hfetch. cbn beta iota.
    rewrite bind_run, (get_website_content_text url content e _ Hbody Hnonempty).
    cbn beta iota. rewrite bool_decide_eq_false_2 by exact Hnonempty.
    rewrite bool_decide_eq_true_2 by congruence.
    rewrite !bind_run.
    rewrite (archive_existing_snapshot url e
               (State (db st1) (ticks st1) (S (requests st1)))
               stamp hash old_content snapshots archived)
      by (cbn [db]; rewrite ?Hdb; assumption).
    cbn [highlight_diffs]. mstep.
    erewrite store_website_content_new;
      [|apply lookup_insert_eq|apply filter_after_removal].
    mstep. rewrite execute_run. cbn [db ticks requests].
    rewrite insert_insert_eq.
    erewrite update_last_checked;
      [|rewrite !lookup_insert_ne by discriminate; rewrite Hdb; exact Hwatch].
    rewrite Hdb. reflexivity. }
  split; [apply Hstep|].
  rewrite monitor_single_url. exact (Hstep (Stats 0 0 0 0)).
Qed.

Lemma changed_page_witness :
  fst (monitor_website_changes [page] 60 (world_after 61 (Reply 200 "v2"))
         (State watching_store 0 0))
  = Return (Stats 0 1 1 0).
Proof.
  refine (f_equal fst (proj2 (changed_page_is_archived_and_replaced page 60
            (Stats 0 0 0 0) (world_after 61 (Reply 200 "v2"))
            (State watching_store 0 0) (State watching_store 1 0)
            (get_content_hash "v1") "v2" "v1"
            (Some (Datetime.isoformat checked_at)) (Some (get_content_hash "v1"))
            [snapshot_row page checked_at "v1"]
            [[Some page; Some (Datetime.isoformat checked_at)]] []
            eq_refl eq_refl eq_refl _ _ _ _ _)));
    vm_compute; try reflexivity; discriminate.
Defined.

Lemma should_fetch_content_recent
    (url : string) (w : Z) (e : env) (st : state)
    (stored_hash : value) (text : string) (t : Z)
    (more_hashes more_watched : list (list value)) :
  Sql.select_where "content_hash" "websites" "url" url (db st)
    = Return ([stored_hash] :: more_hashes) ->
  Sql.select_where "last_checked" "urls" "url" url (db st)
    = Return ([Some text] :: more_watched) ->
  Datetime.strptime text = Some t ->
  Datetime.valid (clock e (ticks st) - w * Datetime.us_per_minute) = true ->
  clock e (ticks st) - t <= w * Datetime.us_per_minute ->
  should_fetch_content url w e st
  = (Return (false, None), State (db st) (S (ticks st)) (requests st)).
Proof.
  intros Hsnap Hwatch Hparse Hrange Hrecent. unfold should_fetch_content.
  rewrite bind_run, fetchone_run, Hsnap. cbn [head].
  rewrite bind_run, fetchone_run, Hwatch. cbn [head].
  mstep. rewrite Hparse. mstep. unfold Datetime.minus_minutes.
  rewrite Hrange. mstep.
  replace (_ <? _) with false by (symmetry; apply Z.ltb_ge; lia). reflexivity.
Qed.

(** X11: a watched URL with a snapshot whose [last_checked] is at most the
    window old is skipped: [monitor_website_changes] makes no request,
    changes nothing in the store and counts nothing; it only reads the clock
    once. *)
Theorem recently_checked_url_is_skipped
    (url : string) (w : Z) (s : stats) (e : env) (st : state)
    (stored_hash : value) (text : string) (t : Z)
    (more_hashes more_watched : list (list value)) :
  Sql.select_where "content_hash" "websites" "url" url (db st)
    = Return ([stored_hash] :: more_hashes) ->
  Sql.select_where "last_checked" "urls" "url" url (db st)
    = Return ([Some text] :: more_watched) ->
  Datetime.strptime text = Some t ->
  Datetime.valid (clock e (ticks st) - w * Datetime.us_per_minute) = true ->
  clock e (ticks st) - t <= w * Datetime.us_per_minute ->
  monitor_url w s url e st
  = (Return s, State (db st) (S (ticks st)) (requests st))
  /\ monitor_website_changes [url] w e st
     = (Return (Stats 0 0 0 0), State (db st) (S (ticks st)) (requests st)).
Proof.
  intros Hsnap Hwatch Hparse Hrange Hrecent.
  pose proof (should_fetch_content_recent url w e st stored_hash text t
                more_hashes more_watched Hsnap Hwatch Hparse Hrange Hrecent)
    as Hfetch.
  assert (Hstep : forall s0,
    monitor_url w s0 url e st
    = (Return s0, State (db st) (S (ticks st)) (requests st))).
  { intros s0. unfold monitor_url. rewrite bind_run, Hfetch. reflexivity. }
  split; [apply Hstep|]. rewrite monitor_single_url. apply Hstep.
Qed.

Lemma recently_checked_witness :
  monitor_website_changes [page] 60 (world_after 59 (Reply 200 "v2"))
    (State watching_store 0 0)
  = (Return (Stats 0 0 0 0), State watching_store 1 0).
Proof.
  refine (proj2 (recently_checked_url_is_skipped page 60 (Stats 0 0 0 0)
                   (world_after 59 (Reply 200 "v2")) (State watching_store 0 0)
                   (Some (get_content_hash "v1")) (Datetime.isoformat checked_at)
                   checked_at [] [] _ _ _ _ _));
    vm_compute; try reflexivity; discriminate.
Defined.

(** ** What the loop and the store operations never do *)

Section StatementFrame.

Variable R : database -> database -> Prop.
Hypothesis R_refl : forall d, R d d.
Hypothesis R_trans : forall d1 d2 d3, R d1 d2 -> R d2 d3 -> R d1 d3.
Hypothesis R_insert_snapshot : forall vals d d',
  Sql.insert false "websites" snapshot_columns vals d = Return d' -> R d d'.
Hypothesis R_insert_archive : forall vals d d',
  Sql.insert false "website_archive" snapshot_columns vals d = Return d' -> R d d'.
Hypothesis R_delete_snapshot : forall u d d',
  Sql.delete_where "websites" "url" u d = Return d' -> R d d'.
Hypothesis R_update_watched : forall v u d d',
  Sql.update "urls" "last_checked" v "url" u d = Return d' -> R d d'.

Lemma frame_store (url content : string) :
  respects R (store_website_content url content).
Proof.
  unfold store_website_content.
  apply respects_bind; [assumption|apply respects_now; assumption|].
  intros now. apply respects_execute; [assumption|]. apply R_insert_snapshot.
Qed.

Lemma frame_archive (url : string) :
  respects R (archive_old_website_content url).
Proof.
  unfold archive_old_website_content.
  apply respects_bind; [assumption|apply respects_fetchone; assumption|].
  intros data.
  apply respects_bind; [assumption|apply respects_subscript; assumption|].
  intros v. destruct data as [params|]; [|apply respects_raise; assumption].
  apply respects_bind; [assumption| |intros _].
  { apply respects_execute; [assumption|]. apply R_insert_archive. }
  apply respects_bind; [assumption| |intros _; apply respects_ret; assumption].
  apply respects_execute; [assumption|]. apply R_delete_snapshot.
Qed.

Lemma frame_monitor_url (w : Z) (s : stats) (url : string) :
  respects R (monitor_url w s url).
Proof.
  unfold monitor_url.
  apply respects_bind;
    [assumption|apply respects_should_fetch_content; assumption|].
  intros [[|] old]; [|apply respects_ret; assumption].
  apply respects_bind;
    [assumption|apply respects_get_website_content; assumption|].
  intros content. case_bool_decide; [apply respects_ret; assumption|].
  apply respects_bind; [assumption| |intros s'].
  - destruct old as [old_hash|].
    + case_bool_decide; [|apply respects_ret; assumption].
      apply respects_bind; [assumption|apply frame_archive|intros old_content].
      apply respects_bind;
        [assumption|apply respects_highlight_diffs; assumption|intros _].
      apply respects_bind;
        [assumption|apply frame_store|intros _; apply respects_ret; assumption].
    + apply respects_bind;
        [assumption|apply frame_store|intros _; apply respects_ret; assumption].
  - apply respects_bind; [assumption|apply respects_now; assumption|].
    intros now.
    apply respects_bind; [assumption| |intros _; apply respects_ret; assumption].
    apply respects_execute; [assumption|]. apply R_update_watched.
Qed.

Lemma frame_monitor_loop (w : Z) (urls : list string) (s : stats) :
  respects R (monitor_loop w s urls).
Proof.
  revert s. induction urls as [|url rest IH]; intros s; cbn [monitor_loop].
  - apply respects_ret. assumption.
  - apply respects_bind; [assumption|apply frame_monitor_url|].
    intros s'. apply IH.
Qed.

End StatementFrame.

Lemma position_names (c c' : string) (cols : list string) (i : nat) :
  Sql.position c cols = Some i -> Sql.position c' cols = Some i -> c = c'.
Proof.
  revert i. induction cols as [|x cols IH]; intros i; [discriminate|].
  cbn [Sql.position].
  destruct (String.eqb x c) eqn:Hc, (String.eqb x c') eqn:Hc'.
  - apply String.eqb_eq in Hc, Hc'. congruence.
  - intros [= <-]. destruct (Sql.position c' cols); discriminate.
  - intros H [= <-]. destruct (Sql.position c cols); discriminate.
  - destruct (Sql.position c cols) as [j|] eqn:Hj; [|discriminate].
    destruct (Sql.position c' cols) as [j'|] eqn:Hj'; [|discriminate].
    cbn. intros [= <-] [= ->]. eapply IH; eauto.
Qed.

Lemma same_watched_urls_elsewhere (d d' : database) :
  d' !! "urls"%string = d !! "urls"%string -> same_watched_urls d d'.
Proof.
  intros Hsame. unfold same_watched_urls, Sql.select_all, Sql.find_table.
  rewrite Hsame. reflexivity.
Qed.

Lemma update_keeps_watched_urls (v : value) (u : string) (d d' : database) :
  Sql.update "urls" "last_checked" v "url" u d = Return d' ->
  same_watched_urls d d'.
Proof.
  unfold Sql.update, Sql.find_table.
  destruct (d !! "urls"%string) as [t|] eqn:Htab; cbn [mbind outcome_bind];
    [|discriminate].
  unfold Sql.find_column.
  destruct (Sql.position "last_checked" (columns t)) as [i|] eqn:Hi;
    cbn [mbind outcome_bind]; [|discriminate].
  destruct (Sql.position "url" (columns t)) as [k|] eqn:Hk;
    cbn [mbind outcome_bind]; [|discriminate].
  destruct (_ && _); [discriminate|]. intros [= <-].
  unfold same_watched_urls, Sql.select_all, Sql.find_table.
  rewrite lookup_insert_eq, Htab. cbn [mbind outcome_bind].
  unfold Sql.find_column. cbn [columns Sql.with_rows]. rewrite Hk.
  cbn [mbind outcome_bind]. f_equal.
  assert (Hkey : forall r : list value,
            Sql.cell k (if Sql.row_matches k u r then <[i := v]> r else r)
            = Sql.cell k r).
  { intros r. destruct (Sql.row_matches k u r); [|reflexivity].
    unfold Sql.cell. rewrite list_lookup_insert_ne; [reflexivity|].
    intros ->. pose proof (position_names _ _ _ _ Hi Hk). discriminate. }
  assert (Horder :
            Sql.scan_order "url" k
              (Sql.with_rows t
                 (map (fun r => if Sql.row_matches k u r then <[i := v]> r else r)
                      (rows t)))
            = map (fun r => if Sql.row_matches k u r then <[i := v]> r else r)
                  (Sql.scan_order "url" k t)).
  { unfold Sql.scan_order. cbn [Sql.with_rows columns primary_key rows].
    destruct (_ && _); [|reflexivity].
    apply index_order_map, Hkey. }
  rewrite Horder, map_map. apply map_ext. intros r. f_equal. apply Hkey.
Qed.

(** X12: [monitor_website_changes] never adds a URL to the watch list nor
    removes one: whatever the store, the URLs, the clock and the network,
    and whether the run returns or raises, [get_all_urls] gives afterwards
    what it gave before. *)
Theorem monitoring_keeps_watched_urls
    (urls : list string) (w : Z) (e : env) (st : state) :
  fst (get_all_urls e (snd (monitor_website_changes urls w e st)))
  = fst (get_all_urls e st).
Proof.
  assert (Hsame : same_watched_urls (db st)
                    (db (snd (monitor_website_changes urls w e st)))).
  { apply (frame_monitor_loop same_watched_urls).
    - intros d. reflexivity.
    - intros d1 d2 d3 H12 H23. unfold same_watched_urls in *. congruence.
    - intros vals d d' Hrun. apply same_watched_urls_elsewhere.
      eapply insert_elsewhere; [|exact Hrun]. discriminate.
    - intros vals d d' Hrun. apply same_watched_urls_elsewhere.
      eapply insert_elsewhere; [|exact Hrun]. discriminate.
    - intros u d d' Hrun. apply same_watched_urls_elsewhere.
      eapply delete_elsewhere; [|exact Hrun]. discriminate.
    - intros v u d d'. apply update_keeps_watched_urls. }
  unfold get_all_urls. rewrite !bind_run, !fetchall_run.
  unfold same_watched_urls in Hsame. rewrite Hsame.
  destruct (Sql.select_all "url" "urls" (db st)); reflexivity.
Qed.

Lemma archive_grows_refl (d : database) : archive_grows d d.
Proof. intros t Ht. exists t. auto. Qed.

Lemma archive_grows_trans (d1 d2 d3 : database) :
  archive_grows d1 d2 -> archive_grows d2 d3 -> archive_grows d1 d3.
Proof.
  intros H12 H23 t Ht.
  destruct (H12 t Ht) as (t2 & Ht2 & Hc2 & Hk2 & Hp2).
  destruct (H23 t2 Ht2) as (t3 & Ht3 & Hc3 & Hk3 & Hp3).
  exists t3. repeat split; try congruence. etransitivity; eassumption.
Qed.

Lemma archive_grows_elsewhere (d d' : database) :
  d' !! "website_archive"%string = d !! "website_archive"%string ->
  archive_grows d d'.
Proof. intros Hsame t Ht. exists t. rewrite Hsame. auto. Qed.

Lemma insert_grows_archive (or_ignore : bool) (name : string)
    (cols : list string) (vals : list value) (d d' : database) :
  Sql.insert or_ignore name cols vals d = Return d' -> archive_grows d d'.
Proof.
  intros Hrun. apply insert_effect in Hrun as [->|(t0 & Ht0 & _ & ->)];
    [apply archive_grows_refl|].
  destruct (decide (name = "website_archive"%string)) as [->|Hne].
  - intros t Ht. rewrite Ht0 in Ht. injection Ht as <-.
    eexists. split; [apply lookup_insert_eq|]. cbn [Sql.with_rows columns
      primary_key rows]. repeat split. apply prefix_app_r. reflexivity.
  - apply archive_grows_elsewhere, lookup_insert_ne, Hne.
Qed.

(** X13: the archive is append-only.  Over any call of a store operation and
    any run of [monitor_website_changes], returning or raising, the
    [website_archive] table keeps its layout and every row it had, in place;
    rows are only ever added after them. *)
Theorem archive_is_append_only (e : env) (st : state) :
  (forall o : store_op, archive_grows (db st) (db (snd (run_op o e st))))
  /\ (forall (urls : list string) (w : Z),
        archive_grows (db st) (db (snd (monitor_website_changes urls w e st)))).
Proof.
  pose proof archive_grows_refl as Hrefl.
  pose proof archive_grows_trans as Htrans.
  assert (Hdel : forall name u d d', name <> "website_archive"%string ->
            Sql.delete_where name "url" u d = Return d' -> archive_grows d d').
  { intros name u d d' Hne Hrun. apply archive_grows_elsewhere.
    eapply delete_elsewhere; [exact Hne|exact Hrun]. }
  assert (Hupd : forall v u d d',
            Sql.update "urls" "last_checked" v "url" u d = Return d' ->
            archive_grows d d').
  { intros v u d d' Hrun. apply archive_grows_elsewhere.
    eapply update_elsewhere; [|exact Hrun]. discriminate. }
  split.
  - intros [url content|url|new_urls|del_urls]; cbn [run_op].
    + apply (frame_store archive_grows); try assumption.
      intros vals d d'. apply insert_grows_archive.
    + apply (respects_bind archive_grows); [assumption..| |].
      * apply (frame_archive archive_grows); try assumption.
        -- intros vals d d'. apply insert_grows_archive.
        -- intros u d d'. apply Hdel. discriminate.
      * intros v. apply respects_ret. assumption.
    + unfold update_urls.
      apply (respects_bind archive_grows);
        [assumption|apply respects_now; assumption|].
      intros now. apply respects_for_each; [assumption..|]. intros url.
      apply respects_except. apply respects_bind; [assumption| |intros _].
      * apply respects_execute; [assumption|].
        intros d d'. apply insert_grows_archive.
      * apply respects_execute; [assumption|]. intros d d'. apply Hupd.
    + unfold remove_urls. apply respects_for_each; [assumption..|]. intros url.
      apply respects_except. apply respects_execute; [assumption|].
      intros d d'. apply Hdel. discriminate.
  - intros urls w. apply (frame_monitor_loop archive_grows); try assumption.
    + intros vals d d'. apply insert_grows_archive.
    + intros vals d d'. apply insert_grows_archive.
    + intros u d d'. apply Hdel. discriminate.
Qed.

(** ** The counters of a run *)

Lemma bind_returns {A B : Type} (m : M A) (k : A -> M B) (e : env)
    (st st2 : state) (b : B) :
  (m ≫= k) e st = (Return b, st2) ->
  exists (a : A) (st1 : state),
    m e st = (Return a, st1) /\ k a e st1 = (Return b, st2).
Proof.
  rewrite bind_run. destruct (m e st) as [[a|x] st1]; [eauto|discriminate].
Qed.

Lemma keeps_requests_run {A : Type} (m : M A) (e : env) (st st' : state)
    (r : outcome A) :
  keeps_requests m -> m e st = (r, st') -> requests st' = requests st.
Proof. intros Hkeeps Hrun. specialize (Hkeeps e st). rewrite Hrun in Hkeeps. exact Hkeeps. Qed.

Lemma keeps_requests_ret {A : Type} (a : A) : keeps_requests (mret a).
Proof. intros e st. reflexivity. Qed.

Lemma keeps_requests_raise {A : Type} (x : exn) : keeps_requests (@raise A x).
Proof. intros e st. reflexivity. Qed.

Lemma keeps_requests_bind {A B : Type} (m : M A) (k : A -> M B) :
  keeps_requests m -> (forall a, keeps_requests (k a)) -> keeps_requests (m ≫= k).
Proof.
  intros Hm Hk e st. rewrite bind_run. specialize (Hm e st).
  destruct (m e st) as [[a|x] st1]; cbn [snd] in *; [|exact Hm].
  rewrite Hk. exact Hm.
Qed.

Lemma keeps_requests_fetchone q : keeps_requests (fetchone q).
Proof. intros e st. rewrite fetchone_run. reflexivity. Qed.

Lemma keeps_requests_subscript data i : keeps_requests (subscript data i).
Proof.
  destruct data as [r|]; cbn; [|apply keeps_requests_raise].
  destruct (r !! i); [apply keeps_requests_ret|apply keeps_requests_raise].
Qed.

Lemma keeps_requests_now : keeps_requests datetime_now.
Proof. intros e st. reflexivity. Qed.

Lemma keeps_requests_execute stmt : keeps_requests (execute stmt).
Proof. intros e st. rewrite execute_run. destruct (stmt (db st)); reflexivity. Qed.

Lemma keeps_requests_should_fetch url w :
  keeps_requests (should_fetch_content url w).
Proof.
  unfold should_fetch_content.
  apply keeps_requests_bind; [apply keeps_requests_fetchone|]. intros hash_result.
  apply keeps_requests_bind; [apply keeps_requests_fetchone|]. intros row.
  apply keeps_requests_bind; [apply keeps_requests_subscript|]. intros timestamp.
  destruct hash_result as [hr|]; [|apply keeps_requests_ret].
  apply keeps_requests_bind; [apply keeps_requests_subscript|]. intros old.
  apply keeps_requests_bind.
  { destruct timestamp as [text|]; [|apply keeps_requests_raise].
    destruct (Datetime.strptime text);
      [apply keeps_requests_ret|apply keeps_requests_raise]. }
  intros last. apply keeps_requests_bind; [apply keeps_requests_now|]. intros now.
  apply keeps_requests_bind.
  { destruct (Datetime.minus_minutes now w);
      [apply keeps_requests_ret|apply keeps_requests_raise]. }
  intros bound. destruct (last <? bound); apply keeps_requests_ret.
Qed.

Lemma keeps_requests_store url content :
  keeps_requests (store_website_content url content).
Proof.
  unfold store_website_content.
  apply keeps_requests_bind; [apply keeps_requests_now|]. intros now.
  apply keeps_requests_execute.
Qed.

Lemma keeps_requests_archive url :
  keeps_requests (archive_old_website_content url).
Proof.
  unfold archive_old_website_content.
  apply keeps_requests_bind; [apply keeps_requests_fetchone|]. intros data.
  apply keeps_requests_bind; [apply keeps_requests_subscript|]. intros v.
  destruct data as [params|]; [|apply keeps_requests_raise].
  apply keeps_requests_bind; [apply keeps_requests_execute|]. intros _.
  apply keeps_requests_bind; [apply keeps_requests_execute|]. intros _.
  apply keeps_requests_ret.
Qed.

Lemma keeps_requests_highlight a b : keeps_requests (highlight_diffs a b).
Proof.
  destruct a, b; cbn; first [apply keeps_requests_ret|apply keeps_requests_raise].
Qed.

Lemma monitor_url_counts (w : Z) (s s' : stats) (url : string) (e : env)
    (st st' : state) :
  monitor_url w s url e st = (Return s', st') ->
  num_fetches s' - num_fetches s
    = Z.of_nat (requests st') - Z.of_nat (requests st)
  /\ 0 <= num_fetches s' - num_fetches s <= 1
  /\ num_errors s <= num_errors s'
  /\ num_changes s <= num_changes s'
  /\ num_new_pages s <= num_new_pages s'
  /\ (num_errors s' + num_changes s' + num_new_pages s')
     - (num_errors s + num_changes s + num_new_pages s)
     <= num_fetches s' - num_fetches s.
Proof.
  unfold monitor_url. intros Hrun.
  apply bind_returns in Hrun as ([fetch old] & st1 & Hfetch & Hrun).
  apply (keeps_requests_run _ _ _ _ _ (keeps_requests_should_fetch url w))
    in Hfetch as Hr1.
  destruct fetch; [|injection Hrun as <- <-; rewrite Hr1; lia].
  apply bind_returns in Hrun as (content & st2 & Hget & Hrun).
  pose proof (get_website_content_state url e st1) as Hst2.
  rewrite Hget in Hst2. cbn [snd] in Hst2. subst st2. clear Hget.
  case_bool_decide as Hcontent.
  { injection Hrun as <- <-. cbn [num_errors num_fetches num_changes
      num_new_pages requests]. rewrite Hr1. lia. }
  apply bind_returns in Hrun as (s2 & st3 & Hmid & Hrun).
  apply bind_returns in Hrun as (now & st4 & Hnow & Hrun).
  injection Hnow as <- <-.
  apply bind_returns in Hrun as ([] & st5 & Hupd & Hrun).
  injection Hrun as <- <-.
  apply (keeps_requests_run _ _ _ _ _ (keeps_requests_execute _)) in Hupd as Hr5.
  cbn [requests] in Hr5.
  assert (Hmid' : requests st3 = S (requests st1)
                  /\ num_fetches s2 = num_fetches s + 1
                  /\ num_errors s2 = num_errors s
                  /\ num_changes s <= num_changes s2
                  /\ num_new_pages s <= num_new_pages s2
                  /\ num_changes s2 + num_new_pages s2
                     <= num_changes s + num_new_pages s + 1).
  { destruct old as [old_hash|].
    - case_bool_decide.
      + apply bind_returns in Hmid as (old_content & sta & Harch & Hmid).
        apply bind_returns in Hmid as ([] & stb & Hdiff & Hmid).
        apply bind_returns in Hmid as ([] & stc & Hstore & Hmid).
        injection Hmid as <- <-.
        apply (keeps_requests_run _ _ _ _ _ (keeps_requests_archive url))
          in Harch.
        apply (keeps_requests_run _ _ _ _ _ (keeps_requests_highlight _ _))
          in Hdiff.
        apply (keeps_requests_run _ _ _ _ _ (keeps_requests_store _ _))
          in Hstore.
        cbn [requests num_errors num_fetches num_changes num_new_pages] in *.
        split; [congruence|lia].
      + injection Hmid as <- <-.
        cbn [requests num_errors num_fetches num_changes num_new_pages].
        split; [reflexivity|lia].
    - apply bind_returns in Hmid as ([] & stc & Hstore & Hmid).
      injection Hmid as <- <-.
      apply (keeps_requests_run _ _ _ _ _ (keeps_requests_store _ _)) in Hstore.
      cbn [requests num_errors num_fetches num_changes num_new_pages] in *.
      split; [exact Hstore|lia]. }
  destruct Hmid' as (Hr3 & Hf & He & Hc & Hn & Hsum).
  rewrite Hr5, Hr3, Hr1. lia.
Qed.

Lemma monitor_loop_counts (w : Z) (urls : list string) (s s' : stats) (e : env)
    (st st' : state) :
  monitor_loop w s urls e st = (Return s', st') ->
  num_fetches s' - num_fetches s
    = Z.of_nat (requests st') - Z.of_nat (requests st)
  /\ 0 <= num_fetches s' - num_fetches s <= Z.of_nat (length urls)
  /\ num_errors s <= num_errors s'
  /\ num_changes s <= num_changes s'
  /\ num_new_pages s <= num_new_pages s'
  /\ (num_errors s' + num_changes s' + num_new_pages s')
     - (num_errors s + num_changes s + num_new_pages s)
     <= num_fetches s' - num_fetches s.
Proof.
  revert s st. induction urls as [|url rest IH]; intros s st Hrun.
  - injection Hrun as <- <-. cbn [length]. lia.
  - cbn [monitor_loop] in Hrun.
    apply bind_returns in Hrun as (s1 & st1 & Hstep & Hrest).
    apply monitor_url_counts in Hstep. apply IH in Hrest.
    cbn [length]. lia.
Qed.

(** X14: when [monitor_website_changes] returns, its counters are
    consistent: none is negative, the errors, changes and new pages together
    do not exceed the fetches, the fetches do not exceed the number of URLs
    given, and the fetches are exactly the requests made during the run. *)
Theorem monitor_counters_are_consistent
    (urls : list string) (w : Z) (e : env) (st st' : state) (s : stats) :
  monitor_website_changes urls w e st = (Return s, st') ->
  0 <= num_errors s /\ 0 <= num_changes s /\ 0 <= num_new_pages s
  /\ num_errors s + num_changes s + num_new_pages s <= num_fetches s
  /\ num_fetches s <= Z.of_nat (length urls)
  /\ Z.of_nat (requests st') = Z.of_nat (requests st) + num_fetches s.
Proof.
  intros Hrun. apply monitor_loop_counts in Hrun.
  cbn [num_errors num_fetches num_changes num_new_pages] in Hrun. lia.
Qed.

Lemma monitor_counters_witness :
  0 <= 1 /\ 0 <= 0 /\ 0 <= 0 /\ 1 + 0 + 0 <= 1
  /\ 1 <= Z.of_nat (length [page])
  /\ Z.of_nat 1 = Z.of_nat 0 + 1.
Proof.
  apply (monitor_counters_are_consistent [page] 60
           (world_after 61 (Reply 200 EmptyString)) (State watching_store 0 0)
           (State watching_store 1 1) (Stats 1 1 0 0)).
  vm_compute. reflexivity.
Defined.

(** X15: [should_fetch_content] only reads: whatever it returns or raises,
    it leaves the store as it found it and makes no request. *)
Theorem should_fetch_content_only_reads
    (url : string) (w : Z) (e : env) (st : state) :
  db (snd (should_fetch_content url w e st)) = db st
  /\ requests (snd (should_fetch_content url w e st)) = requests st.
Proof.
  split; [|apply keeps_requests_should_fetch].
  symmetry.
  apply (respects_should_fetch_content eq (fun d => eq_refl)
           (fun d1 d2 d3 H1 H2 => eq_trans H1 H2) url w e st).
Qed.

(** ** Timestamps written and read back *)

Module TimestampFacts.

Import Datetime.

Lemma all_in_spec (bits : nat) (lo : Z) (f : Z -> bool) :
  all_in bits lo f = true ->
  forall i, lo <= i < lo + 2 ^ Z.of_nat bits -> f i = true.
Proof.
  revert lo. induction bits as [|b IH]; intros lo Hall i Hi.
  - cbn in Hi. assert (i = lo) by lia. subst i. exact Hall.
  - cbn [all_in] in Hall. apply andb_prop in Hall as [Hlow Hhigh].
    rewrite Nat2Z.inj_succ, Z.pow_succ_r in Hi by lia.
    destruct (Z_lt_ge_dec i (lo + 2 ^ Z.of_nat b)).
    + apply (IH lo Hlow). lia.
    + apply (IH _ Hhigh). lia.
Qed.

Lemma month_day_checked (leapyear : bool) :
  all_in 9 0 (month_day_ok leapyear) = true.
Proof. destruct leapyear; vm_compute; reflexivity. Qed.

Lemma month_and_day_correct (leapyear : bool) (k : Z) :
  0 <= k < 365 ->
  let '(m, d) := month_and_day leapyear k in
  1 <= m <= 12
  /\ 1 <= d <= (if (m =? 2) && leapyear then 29
                else nth (Z.to_nat m) Datetime.month_lengths 0)
  /\ nth (Z.to_nat m) Datetime.month_offsets 0
     + (if (2 <? m) && leapyear then 1 else 0) + d = k + 1.
Proof.
  intros Hk.
  pose proof (all_in_spec 9 0 _ (month_day_checked leapyear) k) as Hok.
  unfold month_day_ok in Hok.
  replace (k <? 365) with true in Hok by (symmetry; apply Z.ltb_lt; lia).
  destruct (month_and_day leapyear k) as [m d].
  specialize (Hok ltac:(cbn; lia)).
  repeat (apply andb_prop in Hok as [Hok ?]).
  repeat match goal with
         | H : (_ <=? _) = true |- _ => apply Z.leb_le in H
         | H : (_ =? _) = true |- _ => apply Z.eqb_eq in H
         end.
  lia.
Qed.

Lemma is_leap_cycle (a b c dd : Z) :
  0 <= a -> 0 <= b <= 3 -> 0 <= c <= 24 -> 0 <= dd <= 3 ->
  Datetime.is_leap (400 * a + 100 * b + 4 * c + dd + 1)
  = (dd =? 3) && (negb (c =? 24) || (b =? 3)).
Proof.
  intros Ha Hb Hc Hd. unfold Datetime.is_leap.
  destruct (Z.eqb_spec dd 3) as [Hdd|Hdd];
    destruct (Z.eqb_spec c 24) as [Hcc|Hcc];
    destruct (Z.eqb_spec b 3) as [Hbb|Hbb];
    destruct (Z.eqb_spec ((400 * a + 100 * b + 4 * c + dd + 1) mod 4) 0) as [H4|H4];
    destruct (Z.eqb_spec ((400 * a + 100 * b + 4 * c + dd + 1) mod 100) 0) as [H100|H100];
    destruct (Z.eqb_spec ((400 * a + 100 * b + 4 * c + dd + 1) mod 400) 0) as [H400|H400];
    cbn; try reflexivity; exfalso;
    Z.div_mod_to_equations; lia.
Qed.

Lemma days_before_year_cycle (a b c dd : Z) :
  0 <= a -> 0 <= b <= 3 -> 0 <= c <= 24 -> 0 <= dd <= 3 ->
  Datetime.days_before_year (400 * a + 100 * b + 4 * c + dd + 1)
  = 146097 * a + 36524 * b + 1461 * c + 365 * dd.
Proof.
  intros Ha Hb Hc Hd. unfold Datetime.days_before_year. cbn zeta.
  Z.div_mod_to_equations. lia.
Qed.

Lemma ord2ymd_correct (n : Z) :
  1 <= n <= Datetime.max_ordinal ->
  let '(y, m, d) := Datetime.ord2ymd n in
  1 <= y <= 9999 /\ 1 <= m <= 12 /\ 1 <= d <= Datetime.days_in_month y m
  /\ Datetime.ymd2ord y m d = n.
Proof.
  unfold Datetime.max_ordinal. intros Hn. unfold Datetime.ord2ymd. cbv zeta.
  set (a := (n - 1) / 146097).
  set (r := (n - 1) mod 146097).
  set (b := r / 36524).
  set (r2 := r mod 36524).
  set (c := r2 / 1461).
  set (r3 := r2 mod 1461).
  set (dd := r3 / 365).
  set (k := r3 mod 365).
  assert (Ha : n - 1 = 146097 * a + r /\ 0 <= r < 146097)
    by (unfold a, r; Z.div_mod_to_equations; lia).
  assert (Hb : r = 36524 * b + r2 /\ 0 <= r2 < 36524)
    by (unfold b, r2; Z.div_mod_to_equations; lia).
  assert (Hc : r2 = 1461 * c + r3 /\ 0 <= r3 < 1461)
    by (unfold c, r3; Z.div_mod_to_equations; lia).
  assert (Hd : r3 = 365 * dd + k /\ 0 <= k < 365)
    by (unfold dd, k; Z.div_mod_to_equations; lia).
  clearbody a r b r2 c r3 dd k.
  assert (Hyear : a * 400 + 1 + b * 100 + c * 4 + dd
                  = 400 * a + 100 * b + 4 * c + dd + 1) by ring.
  rewrite !Hyear.
  destruct (Z.eqb_spec dd 4) as [Hdd|Hdd]; cbn [orb].
  - (* last day of a leap year closing a 4-year cycle *)
    replace (400 * a + 100 * b + 4 * c + dd + 1 - 1)
      with (400 * a + 100 * b + 4 * c + 3 + 1) by lia.
    unfold Datetime.ymd2ord, Datetime.days_in_month, Datetime.days_before_month.
    rewrite is_leap_cycle, days_before_year_cycle by lia.
    replace (c =? 24) with false by (symmetry; apply Z.eqb_neq; lia).
    change (nth (Z.to_nat 12) Datetime.month_lengths 0) with 31.
    change (nth (Z.to_nat 12) Datetime.month_offsets 0) with 334.
    cbn. lia.
  - destruct (Z.eqb_spec b 4) as [Hbb|Hbb].
    + (* last day of a 400-year cycle *)
      replace (400 * a + 100 * b + 4 * c + dd + 1 - 1)
        with (400 * a + 100 * 3 + 4 * 24 + 3 + 1) by lia.
      unfold Datetime.ymd2ord, Datetime.days_in_month, Datetime.days_before_month.
      rewrite is_leap_cycle, days_before_year_cycle by lia.
      change (nth (Z.to_nat 12) Datetime.month_lengths 0) with 31.
      change (nth (Z.to_nat 12) Datetime.month_offsets 0) with 334.
      cbn. lia.
    + pose proof (month_and_day_correct
                    ((dd =? 3) && (negb (c =? 24) || (b =? 3))) k
                    ltac:(lia)) as Hmd.
      unfold month_and_day in Hmd. cbv zeta in Hmd.
      unfold Datetime.ymd2ord, Datetime.days_in_month, Datetime.days_before_month.
      destruct (k <? _).
      * rewrite is_leap_cycle, days_before_year_cycle by lia.
        destruct Hmd as (Hm & Hday & Hsum). repeat split; try lia.
      * rewrite is_leap_cycle, days_before_year_cycle by lia.
        destruct Hmd as (Hm & Hday & Hsum). repeat split; try lia.
Qed.

Lemma code_digit_char (z : Z) : code (digit_char z) = 48 + z mod 10.
Proof.
  unfold code, digit_char. pose proof (Z.mod_pos_bound z 10 eq_refl).
  rewrite N_ascii_embedding by lia. lia.
Qed.

Lemma is_digit_digit_char (z : Z) : is_digit (digit_char z) = true.
Proof.
  unfold is_digit. rewrite code_digit_char.
  pose proof (Z.mod_pos_bound z 10 eq_refl).
  apply andb_true_intro. split; apply Z.leb_le; lia.
Qed.

Lemma digit_value_digit_char (z : Z) : digit_value (digit_char z) = z mod 10.
Proof. unfold digit_value. rewrite code_digit_char. lia. Qed.

Lemma is_space_digit_char (z : Z) : is_space (digit_char z) = false.
Proof.
  unfold is_space. rewrite code_digit_char.
  pose proof (Z.mod_pos_bound z 10 eq_refl).
  repeat (apply orb_false_intro); try apply andb_false_intro2;
    try apply Z.eqb_neq; try apply Z.leb_gt; lia.
Qed.

Lemma zero_padded_2 (z : Z) :
  zero_padded 2 z = [digit_char (z / 10); digit_char z].
Proof. unfold zero_padded. cbn [seq rev app map]. rewrite Z.div_1_r. reflexivity. Qed.

Lemma zero_padded_4 (z : Z) :
  zero_padded 4 z
  = [digit_char (z / 1000); digit_char (z / 100); digit_char (z / 10); digit_char z].
Proof. unfold zero_padded. cbn [seq rev app map]. rewrite Z.div_1_r. reflexivity. Qed.

Lemma zero_padded_6 (z : Z) :
  zero_padded 6 z
  = [digit_char (z / 100000); digit_char (z / 10000); digit_char (z / 1000);
     digit_char (z / 100); digit_char (z / 10); digit_char z].
Proof. unfold zero_padded. cbn [seq rev app map]. rewrite Z.div_1_r. reflexivity. Qed.

Lemma two_digits_padded (ok : Z -> Z -> bool) (z : Z) (rest : list ascii) :
  0 <= z < 100 -> ok (z / 10) (z mod 10) = true ->
  two_digits ok (zero_padded 2 z ++ rest) = [(z, rest)].
Proof.
  intros Hz Hok. rewrite zero_padded_2. cbn [app two_digits].
  rewrite !is_digit_digit_char, !digit_value_digit_char.
  replace ((z / 10) mod 10) with (z / 10) by (Z.div_mod_to_equations; lia).
  rewrite Hok. cbn [andb]. do 2 f_equal. Z.div_mod_to_equations; lia.
Qed.

Lemma year_field_padded (y : Z) (rest : list ascii) :
  0 <= y <= 9999 -> year_field (zero_padded 4 y ++ rest) = [(y, rest)].
Proof.
  intros Hy. rewrite zero_padded_4. cbn [app year_field].
  rewrite !is_digit_digit_char, !digit_value_digit_char. cbn [andb].
  do 2 f_equal. Z.div_mod_to_equations; lia.
Qed.

Lemma starts_with_app {A : Type} (x : A) (l l' : list A) :
  starts_with x l -> starts_with x (l ++ l').
Proof. intros [tl ->]. exists (tl ++ l'). reflexivity. Qed.

Lemma starts_with_here {A : Type} (x : A) (l : list A) : starts_with x (x :: l).
Proof. exists l. reflexivity. Qed.

Lemma then_starts {A B : Type} (p : matches A) (k : A -> list ascii -> matches B)
    (a : A) (r : list ascii) (x : B * list ascii) :
  starts_with (a, r) p -> starts_with x (k a r) -> starts_with x (then_ p k).
Proof.
  intros [tl ->] Hk. unfold then_. cbn [map concat fst snd].
  apply starts_with_app, Hk.
Qed.

Lemma literal_here (c : ascii) (rest : list ascii) :
  starts_with (tt, rest) (literal c (c :: rest)).
Proof. cbn [literal]. rewrite Ascii.eqb_refl. apply starts_with_here. Qed.

Lemma month_field_padded (m : Z) (rest : list ascii) :
  1 <= m <= 12 -> starts_with (m, rest) (month_field (zero_padded 2 m ++ rest)).
Proof.
  intros Hm. unfold month_field. rewrite two_digits_padded; [apply starts_with_here|lia|].
  destruct (Z.eqb_spec (m / 10) 1), (Z.eqb_spec (m / 10) 0),
    (Z.leb_spec (m mod 10) 2), (Z.leb_spec 1 (m mod 10));
    cbn; try reflexivity; exfalso; Z.div_mod_to_equations; lia.
Qed.

Lemma day_field_padded (d : Z) (rest : list ascii) :
  1 <= d <= 31 -> starts_with (d, rest) (day_field (zero_padded 2 d ++ rest)).
Proof.
  intros Hd. unfold day_field. rewrite two_digits_padded; [apply starts_with_here|lia|].
  destruct (Z.eqb_spec (d / 10) 3), (Z.eqb_spec (d / 10) 1),
    (Z.eqb_spec (d / 10) 2), (Z.eqb_spec (d / 10) 0),
    (Z.leb_spec (d mod 10) 1), (Z.leb_spec 1 (d mod 10));
    cbn; try reflexivity; exfalso; Z.div_mod_to_equations; lia.
Qed.

Lemma hour_field_padded (h : Z) (rest : list ascii) :
  0 <= h <= 23 -> starts_with (h, rest) (hour_field (zero_padded 2 h ++ rest)).
Proof.
  intros Hh. unfold hour_field. rewrite two_digits_padded; [apply starts_with_here|lia|].
  destruct (Z.eqb_spec (h / 10) 2), (Z.leb_spec (h mod 10) 3),
    (Z.leb_spec (h / 10) 1);
    cbn; try reflexivity; exfalso; Z.div_mod_to_equations; lia.
Qed.

Lemma minute_field_padded (m : Z) (rest : list ascii) :
  0 <= m <= 59 -> starts_with (m, rest) (minute_field (zero_padded 2 m ++ rest)).
Proof.
  intros Hm. unfold minute_field. rewrite two_digits_padded; [apply starts_with_here|lia|].
  apply Z.leb_le. Z.div_mod_to_equations; lia.
Qed.

Lemma second_field_padded (s : Z) (rest : list ascii) :
  0 <= s <= 59 -> starts_with (s, rest) (second_field (zero_padded 2 s ++ rest)).
Proof.
  intros Hs. unfold second_field. rewrite two_digits_padded; [apply starts_with_here|lia|].
  apply orb_true_intro. right. apply Z.leb_le. Z.div_mod_to_equations; lia.
Qed.

Lemma spaces_before_digit (z : Z) (rest : list ascii) :
  starts_with (tt, digit_char z :: rest) (spaces (" "%char :: digit_char z :: rest)).
Proof.
  cbn [spaces]. change (is_space " ") with true. cbn iota.
  rewrite is_space_digit_char. apply starts_with_here.
Qed.

Lemma fraction_field_padded (us : Z) :
  0 <= us < 1000000 -> starts_with (us, []) (fraction_field (zero_padded 6 us)).
Proof.
  intros Hus. unfold fraction_field. rewrite zero_padded_6.
  cbn [fraction_digits]. rewrite !is_digit_digit_char, !digit_value_digit_char.
  cbn [app]. change (100000 / 10) with 10000. change (10000 / 10) with 1000.
  change (1000 / 10) with 100. change (100 / 10) with 10. change (10 / 10) with 1.
  replace (0 + (us / 100000) mod 10 * 100000 + (us / 10000) mod 10 * 10000
           + (us / 1000) mod 10 * 1000 + (us / 100) mod 10 * 100
           + (us / 10) mod 10 * 10 + us mod 10 * 1) with us
    by (Z.div_mod_to_equations; lia).
  apply starts_with_here.
Qed.

Lemma spaces_before_padded (z : Z) (rest : list ascii) :
  starts_with (tt, zero_padded 2 z ++ rest)
    (spaces (" "%char :: zero_padded 2 z ++ rest)).
Proof. rewrite zero_padded_2. cbn [app]. apply spaces_before_digit. Qed.

Lemma timestamp_matches_formatted (y m d h mi s us : Z) :
  0 <= y <= 9999 -> 1 <= m <= 12 -> 1 <= d <= 31 -> 0 <= h <= 23 ->
  0 <= mi <= 59 -> 0 <= s <= 59 -> 0 <= us < 1000000 ->
  starts_with ((y, m, d, h, mi, s, us), [])
    (timestamp_matches
       (zero_padded 4 y ++ ["-"%char] ++ zero_padded 2 m ++ ["-"%char]
        ++ zero_padded 2 d ++ [" "%char]
        ++ zero_padded 2 h ++ [":"%char]
        ++ zero_padded 2 mi ++ [":"%char]
        ++ zero_padded 2 s ++ "."%char :: zero_padded 6 us)).
Proof.
  intros Hy Hm Hd Hh Hmi Hs Hus. unfold timestamp_matches.
  eapply then_starts; [rewrite year_field_padded by lia; apply starts_with_here|].
  cbn [app]. eapply then_starts; [apply literal_here|].
  eapply then_starts; [apply month_field_padded; lia|].
  cbn [app]. eapply then_starts; [apply literal_here|].
  eapply then_starts; [apply day_field_padded; lia|].
  cbn [app]. eapply then_starts; [apply spaces_before_padded|].
  eapply then_starts; [apply hour_field_padded; lia|].
  cbn [app]. eapply then_starts; [apply literal_here|].
  eapply then_starts; [apply minute_field_padded; lia|].
  cbn [app]. eapply then_starts; [apply literal_here|].
  eapply then_starts; [apply second_field_padded; lia|].
  eapply then_starts; [apply literal_here|].
  eapply then_starts; [apply fraction_field_padded; lia|].
  apply starts_with_here.
Qed.

Lemma days_in_month_bound (y m : Z) : days_in_month y m <= 31.
Proof.
  unfold days_in_month. destruct ((m =? 2) && is_leap y); [lia|].
  unfold month_lengths.
  destruct (Z.to_nat m) as [|[|[|[|[|[|[|[|[|[|[|[|[|[|?]]]]]]]]]]]]]]; cbn; lia.
Qed.

Lemma strptime_isoformat (t : Z) :
  valid t = true -> t mod us_per_second <> 0 ->
  strptime (isoformat t) = Some t.
Proof.
  unfold valid, max_ordinal, us_per_day, us_per_second.
  intros [Hlo Hhi]%andb_prop Hus. apply Z.leb_le in Hlo. apply Z.ltb_lt in Hhi.
  unfold isoformat, strptime, us_per_day, us_per_second.
  pose proof (ord2ymd_correct (t / (86400 * 1000000) + 1)) as Hcal.
  unfold max_ordinal in Hcal.
  destruct (ord2ymd (t / (86400 * 1000000) + 1)) as [[y m] d].
  destruct Hcal as (Hy & Hm & Hd & Hord); [Z.div_mod_to_equations; lia|].
  pose proof (days_in_month_bound y m) as Hdim.
  rewrite list_ascii_of_string_of_list_ascii.
  replace (t mod 1000000 =? 0) with false by (symmetry; apply Z.eqb_neq; exact Hus).
  set (secs := t mod (86400 * 1000000) / 1000000).
  assert (Hsecs : 0 <= secs < 86400) by (unfold secs; Z.div_mod_to_equations; lia).
  destruct (timestamp_matches_formatted y m d (secs / 3600) (secs mod 3600 / 60)
              (secs mod 60) (t mod 1000000)) as [tl ->];
    try (Z.div_mod_to_equations; lia).
  replace (1 <=? y) with true by (symmetry; apply Z.leb_le; lia).
  replace (d <=? days_in_month y m) with true by (symmetry; apply Z.leb_le; lia).
  replace (secs mod 60 <=? 59) with true
    by (symmetry; apply Z.leb_le; Z.div_mod_to_equations; lia).
  cbn [andb]. f_equal. rewrite Hord. unfold secs.
  Z.div_mod_to_equations. lia.
Qed.

Lemma then_nil {A B : Type} (p : matches A) (k : A -> list ascii -> matches B) :
  (forall a r, (a, r) ∈ p -> k a r = []) -> then_ p k = [].
Proof.
  intros Hk. unfold then_. induction p as [|[a r] p IH]; [reflexivity|].
  cbn [map concat fst snd]. rewrite (Hk a r) by left. cbn [app].
  apply IH. intros a' r' Hin. apply Hk. right. exact Hin.
Qed.

Lemma two_digits_dotless ok s a r :
  dotless s -> (a, r) ∈ two_digits ok s -> dotless r.
Proof.
  unfold dotless, two_digits. intros Hs.
  destruct s as [|c1 [|c2 rest]]; [inversion 1..|].
  destruct (_ && _); [|inversion 1].
  intros [= -> ->]%list_elem_of_singleton.
  intros Hin. apply Hs. do 2 right. exact Hin.
Qed.

Lemma one_digit_dotless ok s a r :
  dotless s -> (a, r) ∈ one_digit ok s -> dotless r.
Proof.
  unfold dotless, one_digit. intros Hs.
  destruct s as [|c1 rest]; [inversion 1|].
  destruct (_ && _); [|inversion 1].
  intros [= -> ->]%list_elem_of_singleton.
  intros Hin. apply Hs. right. exact Hin.
Qed.

Lemma literal_dotless c s a r :
  dotless s -> (a, r) ∈ literal c s -> dotless r.
Proof.
  unfold dotless, literal. intros Hs.
  destruct s as [|c1 rest]; [inversion 1|].
  destruct (Ascii.eqb c1 c); [|inversion 1].
  intros [= -> ->]%list_elem_of_singleton.
  intros Hin. apply Hs. right. exact Hin.
Qed.

Lemma year_field_dotless s a r :
  dotless s -> (a, r) ∈ year_field s -> dotless r.
Proof.
  unfold dotless, year_field. intros Hs.
  destruct s as [|c1 [|c2 [|c3 [|c4 rest]]]]; [inversion 1..|].
  destruct (_ && _); [|inversion 1].
  intros [= -> ->]%list_elem_of_singleton.
  intros Hin. apply Hs. do 4 right. exact Hin.
Qed.

Lemma spaces_dotless s a r :
  dotless s -> (a, r) ∈ spaces s -> dotless r.
Proof.
  unfold dotless. induction s as [|c rest IH]; [inversion 2|].
  intros Hs. cbn [spaces]. destruct (is_space c); [|inversion 1].
  assert (Hrest : "."%char ∉ rest) by (intros Hin; apply Hs; right; exact Hin).
  intros [Hin|Hin]%elem_of_app.
  - apply IH; assumption.
  - apply list_elem_of_singleton in Hin. injection Hin as -> ->. exact Hrest.
Qed.

Lemma month_field_dotless s a r :
  dotless s -> (a, r) ∈ month_field s -> dotless r.
Proof.
  intros Hs [Hin|Hin]%elem_of_app;
    [eapply two_digits_dotless|eapply one_digit_dotless]; eassumption.
Qed.

Lemma day_field_dotless s a r :
  dotless s -> (a, r) ∈ day_field s -> dotless r.
Proof.
  intros Hs [Hin|[Hin|Hin]%elem_of_app]%elem_of_app.
  - eapply two_digits_dotless; eassumption.
  - eapply one_digit_dotless; eassumption.
  - destruct s as [|sp rest]; [inversion Hin|].
    destruct (Ascii.eqb sp " "); [|inversion Hin].
    eapply one_digit_dotless; [|exact Hin].
    intros Hdot. apply Hs. right. exact Hdot.
Qed.

Lemma hour_field_dotless s a r :
  dotless s -> (a, r) ∈ hour_field s -> dotless r.
Proof.
  intros Hs [Hin|Hin]%elem_of_app;
    [eapply two_digits_dotless|eapply one_digit_dotless]; eassumption.
Qed.

Lemma minute_field_dotless s a r :
  dotless s -> (a, r) ∈ minute_field s -> dotless r.
Proof.
  intros Hs [Hin|Hin]%elem_of_app;
    [eapply two_digits_dotless|eapply one_digit_dotless]; eassumption.
Qed.

Lemma second_field_dotless s a r :
  dotless s -> (a, r) ∈ second_field s -> dotless r.
Proof.
  intros Hs [Hin|Hin]%elem_of_app;
    [eapply two_digits_dotless|eapply one_digit_dotless]; eassumption.
Qed.

Lemma literal_dot_dotless (s : list ascii) : dotless s -> literal "." s = [].
Proof.
  unfold dotless, literal. intros Hs. destruct s as [|c rest]; [reflexivity|].
  destruct (Ascii.eqb_spec c "."); [|reflexivity].
  exfalso. apply Hs. subst c. left.
Qed.

Lemma timestamp_matches_dotless (s : list ascii) :
  dotless s -> timestamp_matches s = [].
Proof.
  intros H0. unfold timestamp_matches.
  apply then_nil. intros y s1 H1%(year_field_dotless _ _ _ H0).
  apply then_nil. intros ? s2 H2%(literal_dotless _ _ _ _ H1).
  apply then_nil. intros m s3 H3%(month_field_dotless _ _ _ H2).
  apply then_nil. intros ? s4 H4%(literal_dotless _ _ _ _ H3).
  apply then_nil. intros d s5 H5%(day_field_dotless _ _ _ H4).
  apply then_nil. intros ? s6 H6%(spaces_dotless _ _ _ H5).
  apply then_nil. intros h s7 H7%(hour_field_dotless _ _ _ H6).
  apply then_nil. intros ? s8 H8%(literal_dotless _ _ _ _ H7).
  apply then_nil. intros mi s9 H9%(minute_field_dotless _ _ _ H8).
  apply then_nil. intros ? s10 H10%(literal_dotless _ _ _ _ H9).
  apply then_nil. intros sec s11 H11%(second_field_dotless _ _ _ H10).
  rewrite (literal_dot_dotless _ H11). reflexivity.
Qed.

Lemma zero_padded_dotless (width : nat) (z : Z) : dotless (zero_padded width z).
Proof.
  unfold dotless, zero_padded. intros (i & Hdot & _)%list_elem_of_fmap.
  pose proof (code_digit_char (z / 10 ^ Z.of_nat i)) as Hcode.
  rewrite <- Hdot in Hcode. pose proof (Z.mod_pos_bound (z / 10 ^ Z.of_nat i) 10 eq_refl).
  change (code ".") with 46 in Hcode. lia.
Qed.

Lemma strptime_isoformat_whole_second (t : Z) :
  t mod us_per_second = 0 -> strptime (isoformat t) = None.
Proof.
  intros Hus. unfold strptime, isoformat.
  destruct (ord2ymd (t / us_per_day + 1)) as [[y m] d].
  rewrite list_ascii_of_string_of_list_ascii, Hus. cbn [Z.eqb].
  rewrite timestamp_matches_dotless; [reflexivity|].
  unfold dotless. rewrite app_nil_r, !elem_of_app, !list_elem_of_singleton.
  pose proof (zero_padded_dotless 4 y). pose proof (zero_padded_dotless 2 m).
  pose proof (zero_padded_dotless 2 d).
  pose proof (zero_padded_dotless 2 (t mod us_per_day / us_per_second / 3600)).
  pose proof (zero_padded_dotless 2 (t mod us_per_day / us_per_second mod 3600 / 60)).
  pose proof (zero_padded_dotless 2 (t mod us_per_day / us_per_second mod 60)).
  unfold dotless in *. intuition discriminate.
Qed.

End TimestampFacts.

(** ** A [last_checked] written by the program, read by the program *)

Lemma select_where_elsewhere (col name wcol x : string) (d d' : database) :
  d' !! name = d !! name ->
  Sql.select_where col name wcol x d' = Sql.select_where col name wcol x d.
Proof.
  intros Hsame. unfold Sql.select_where, Sql.find_table. rewrite Hsame.
  reflexivity.
Qed.

Lemma should_fetch_content_parsed
    (url : string) (w : Z) (e : env) (st : state)
    (stored_hash : value) (text : string) (t : Z)
    (more_hashes more_watched : list (list value)) :
  Sql.select_where "content_hash" "websites" "url" url (db st)
    = Return ([stored_hash] :: more_hashes) ->
  Sql.select_where "last_checked" "urls" "url" url (db st)
    = Return ([Some text] :: more_watched) ->
  Datetime.strptime text = Some t ->
  Datetime.valid (clock e (ticks st) - w * Datetime.us_per_minute) = true ->
  should_fetch_content url w e st
  = (Return (if bool_decide (w * Datetime.us_per_minute < clock e (ticks st) - t)
             then (true, stored_hash) else (false, None)),
     State (db st) (S (ticks st)) (requests st)).
Proof.
  intros Hsnap Hwatch Hparse Hrange. unfold should_fetch_content.
  rewrite bind_run, fetchone_run, Hsnap. cbn [head].
  rewrite bind_run, fetchone_run, Hwatch. cbn [head].
  mstep. rewrite Hparse. mstep. unfold Datetime.minus_minutes.
  rewrite Hrange. mstep.
  case_bool_decide as Hlt.
  - replace (_ <? _) with true by (symmetry; apply Z.ltb_lt; lia). reflexivity.
  - replace (_ <? _) with false by (symmetry; apply Z.ltb_ge; lia). reflexivity.
Qed.

Lemma should_fetch_content_unparsed
    (url : string) (w : Z) (e : env) (st : state)
    (stored_hash : value) (text : string)
    (more_hashes more_watched : list (list value)) :
  Sql.select_where "content_hash" "websites" "url" url (db st)
    = Return ([stored_hash] :: more_hashes) ->
  Sql.select_where "last_checked" "urls" "url" url (db st)
    = Return ([Some text] :: more_watched) ->
  Datetime.strptime text = None ->
  should_fetch_content url w e st = (Raise ValueError, st).
Proof.
  intros Hsnap Hwatch Hparse. unfold should_fetch_content.
  rewrite bind_run, fetchone_run, Hsnap. cbn [head].
  rewrite bind_run, fetchone_run, Hwatch. cbn [head].
  mstep. rewrite Hparse. reflexivity.
Qed.

(** X17: a [last_checked] that [update_urls] writes at a time with a
    non-zero microsecond part is read back by [should_fetch_content] as that
    very time: for a URL with a snapshot, the call that follows decides by
    the time elapsed since [update_urls] read the clock, fetching exactly
    when it exceeds the window. *)
Theorem written_last_checked_is_read_back
    (new_urls : list string) (url : string) (w : Z) (e : env) (st : state)
    (stored_hash : value) (more_hashes watched : list (list value)) :
  Sql.select_where "content_hash" "websites" "url" url (db st)
    = Return ([stored_hash] :: more_hashes) ->
  db st !! "urls"%string = Some (Table watch_columns (Some "url"%string) watched) ->
  Forall (fun r => length r = 2%nat) watched ->
  NoDup (map (Sql.cell 0) watched) ->
  url ∈ new_urls ->
  Datetime.valid (clock e (ticks st)) = true ->
  clock e (ticks st) mod Datetime.us_per_second <> 0 ->
  Datetime.valid (clock e (S (ticks st)) - w * Datetime.us_per_minute) = true ->
  (update_urls new_urls;; should_fetch_content url w) e st
  = (Return (if bool_decide (w * Datetime.us_per_minute
                             < clock e (S (ticks st)) - clock e (ticks st))
             then (true, stored_hash) else (false, None)),
     State (db (snd (update_urls new_urls e st))) (S (S (ticks st))) (requests st)).
Proof.
  intros Hsnap Hwatch Hwide Hnodup Hin Hvalid Hus Hrange.
  rewrite bind_run, (update_urls_run new_urls watched e st Hwatch). cbn [snd db].
  match goal with
  | |- should_fetch_content _ _ _ ?s = _ =>
      pose proof (should_fetch_content_parsed url w e s stored_hash
                    (Datetime.isoformat (clock e (ticks st)))
                    (clock e (ticks st)) more_hashes []) as Hread
  end.
  cbn [db ticks requests] in Hread. apply Hread.
  - rewrite (select_where_elsewhere _ _ _ _ (db st)); [exact Hsnap|].
    apply lookup_insert_ne. discriminate.
  - rewrite (select_last_checked _ url _ (lookup_insert_eq _ _ _)).
    destruct (selected_after_update
                (Some (Datetime.isoformat (clock e (ticks st))))
                new_urls watched url Hwide Hnodup) as [Hsel _].
    rewrite Hsel by (left; exact Hin). reflexivity.
  - apply TimestampFacts.strptime_isoformat; assumption.
  - exact Hrange.
Qed.

Lemma written_last_checked_witness :
  (update_urls [page];; should_fetch_content page 60)
    (Env (fun n => checked_at + Z.of_nat n * 61 * Datetime.us_per_minute)
         (fun _ _ => NoReply))
    (State watching_store 0 0)
  = (Return (if bool_decide
                  (60 * Datetime.us_per_minute
                   < (checked_at + Z.of_nat 1 * 61 * Datetime.us_per_minute)
                     - (checked_at + Z.of_nat 0 * 61 * Datetime.us_per_minute))
             then (true, Some (get_content_hash "v1")) else (false, None)),
     State (db (snd (update_urls [page]
                       (Env (fun n => checked_at
                                      + Z.of_nat n * 61 * Datetime.us_per_minute)
                            (fun _ _ => NoReply))
                       (State watching_store 0 0)))) 2 0).
Proof.
  apply (written_last_checked_is_read_back [page] page 60
           (Env (fun n => checked_at + Z.of_nat n * 61 * Datetime.us_per_minute)
                (fun _ _ => NoReply))
           (State watching_store 0 0) (Some (get_content_hash "v1")) []
           [[Some page; Some (Datetime.isoformat checked_at)]]).
  - vm_compute. reflexivity.
  - reflexivity.
  - repeat constructor.
  - repeat constructor. intros Hin. inversion Hin.
  - left.
  - vm_compute. reflexivity.
  - vm_compute. discriminate.
  - vm_compute. reflexivity.
Defined.

(** X18: a [last_checked] that [update_urls] writes at a whole second has no
    fractional part in its text, and the format of [should_fetch_content]
    demands one: for a URL with a snapshot the call that follows raises a
    [ValueError], and so does [monitor_website_changes] when it reaches the
    URL, without a fetch. *)
Theorem whole_second_last_checked_cannot_be_read
    (new_urls rest : list string) (url : string) (w : Z) (e : env) (st : state)
    (stored_hash : value) (more_hashes watched : list (list value)) :
  Sql.select_where "content_hash" "websites" "url" url (db st)
    = Return ([stored_hash] :: more_hashes) ->
  db st !! "urls"%string = Some (Table watch_columns (Some "url"%string) watched) ->
  Forall (fun r => length r = 2%nat) watched ->
  NoDup (map (Sql.cell 0) watched) ->
  url ∈ new_urls ->
  clock e (ticks st) mod Datetime.us_per_second = 0 ->
  (update_urls new_urls;; should_fetch_content url w) e st
  = (Raise ValueError, snd (update_urls new_urls e st))
  /\ (update_urls new_urls;; monitor_website_changes (url :: rest) w) e st
     = (Raise ValueError, snd (update_urls new_urls e st)).
Proof.
  intros Hsnap Hwatch Hwide Hnodup Hin Hus.
  assert (Hfetch : should_fetch_content url w e (snd (update_urls new_urls e st))
                   = (Raise ValueError, snd (update_urls new_urls e st))).
  { rewrite (update_urls_run new_urls watched e st Hwatch). cbn [snd].
    apply (should_fetch_content_unparsed url w e _ stored_hash
             (Datetime.isoformat (clock e (ticks st))) more_hashes []).
    - cbn [db]. rewrite (select_where_elsewhere _ _ _ _ (db st)); [exact Hsnap|].
      apply lookup_insert_ne. discriminate.
    - cbn [db]. rewrite (select_last_checked _ url _ (lookup_insert_eq _ _ _)).
      destruct (selected_after_update
                  (Some (Datetime.isoformat (clock e (ticks st))))
                  new_urls watched url Hwide Hnodup) as [Hsel _].
      rewrite Hsel by (left; exact Hin). reflexivity.
    - apply TimestampFacts.strptime_isoformat_whole_second, Hus. }
  assert (Hret : fst (update_urls new_urls e st) = Return tt)
    by (rewrite (update_urls_run new_urls watched e st Hwatch); reflexivity).
  split.
  - rewrite bind_run. destruct (update_urls new_urls e st) as [[[]|x] st1];
      [exact Hfetch|discriminate].
  - rewrite bind_run. destruct (update_urls new_urls e st) as [[[]|x] st1];
      [|discriminate].
    cbn [snd] in Hfetch. unfold monitor_website_changes.
    rewrite monitor_loop_cons. unfold monitor_url. rewrite bind_run, Hfetch.
    reflexivity.
Qed.

Lemma whole_second_witness :
  (update_urls [page];; should_fetch_content page 60)
    (Env (fun n => checked_at - 500000 + Z.of_nat n * Datetime.us_per_minute)
         (fun _ _ => NoReply))
    (State watching_store 0 0)
  = (Raise ValueError,
     snd (update_urls [page]
            (Env (fun n => checked_at - 500000 + Z.of_nat n * Datetime.us_per_minute)
                 (fun _ _ => NoReply))
            (State watching_store 0 0))).
Proof.
  refine (proj1 (whole_second_last_checked_cannot_be_read [page] [] page 60
           (Env (fun n => checked_at - 500000 + Z.of_nat n * Datetime.us_per_minute)
                (fun _ _ => NoReply))
           (State watching_store 0 0) (Some (get_content_hash "v1")) []
           [[Some page; Some (Datetime.isoformat checked_at)]] _ eq_refl _ _ _ _)).
  - vm_compute. reflexivity.
  - repeat constructor.
  - repeat constructor. intros Hin. inversion Hin.
  - left.
  - vm_compute. reflexivity.
Defined.

(** ** Two runs in a row *)

Lemma monitor_url_new_page
    (url : string) (w : Z) (s : stats) (e : env) (st : state) (content : string)
    (snapshots watched : list (list value)) :
  db st !! "websites"%string
    = Some (Table snapshot_columns (Some "url"%string) snapshots) ->
  db st !! "urls"%string = Some (Table watch_columns (Some "url"%string) watched) ->
  filter (Sql.row_matches 0 url) snapshots = [] ->
  Some url ∈ map (Sql.cell 0) watched ->
  response_text (network e (requests st) url) = content ->
  content <> EmptyString ->
  monitor_url w s url e st
  = (Return (Stats (num_errors s) (num_fetches s + 1) (num_changes s)
                   (num_new_pages s + 1)),
     State (<["urls"%string :=
               Table watch_columns (Some "url"%string)
                 (map (fun r =>
                         if Sql.row_matches 0 url r
                         then <[1%nat := Some (Datetime.isoformat
                                                 (clock e (S (ticks st))))]> r
                         else r) watched)]>
              (<["websites"%string :=
                  Table snapshot_columns (Some "url"%string)
                    (snapshots ++ [snapshot_row url (clock e (ticks st)) content])]>
                 (db st)))
           (S (S (ticks st))) (S (requests st))).
Proof.
  intros Hweb Hwatch Hfree Hlisted Hbody Hnonempty.
  destruct (listed_selected url watched Hlisted) as (r & more & Hsel).
  assert (Hfetch : should_fetch_content url w e st = (Return (true, None), st)).
  { unfold should_fetch_content.
    rewrite bind_run, fetchone_run, (select_content_hash _ _ _ Hweb), Hfree.
    cbn [map head].
    rewrite bind_run, fetchone_run, (select_last_checked _ _ _ Hwatch), Hsel.
    reflexivity. }
  unfold monitor_url. rewrite bind_run, Hfetch. cbn beta iota.
  rewrite bind_run, (get_website_content_text url content e _ Hbody Hnonempty).
  cbn beta iota. rewrite bool_decide_eq_false_2 by exact Hnonempty.
  rewrite !bind_run.
  rewrite (store_website_content_new url content e
             (State (db st) (ticks st) (S (requests st))) snapshots Hweb Hfree).
  mstep. rewrite execute_run. cbn [db ticks requests].
  erewrite update_last_checked;
    [reflexivity|rewrite lookup_insert_ne by discriminate; exact Hwatch].
Qed.

Lemma selected_after_refresh (stamp : value) (url : string)
    (watched : list (list value)) :
  Forall (fun r => length r = 2%nat) watched ->
  Some url ∈ map (Sql.cell 0) watched ->
  exists more : list (list value),
    map (fun r => [Sql.cell 1 r])
        (filter (Sql.row_matches 0 url)
           (map (fun r => if Sql.row_matches 0 url r
                          then <[1%nat := stamp]> r else r) watched))
    = [stamp] :: more.
Proof.
  intros Hwide Hlisted.
  destruct (listed_selected url watched Hlisted) as (r & more & Hsel).
  rewrite filter_map_invariant by (intros r0; apply row_matches_after_stamp).
  assert (Hr : r ∈ filter (Sql.row_matches 0 url) watched)
    by (rewrite Hsel; left).
  apply list_elem_of_filter in Hr as [Hm Hr].
  rewrite Forall_forall in Hwide. specialize (Hwide r Hr).
  rewrite Hsel. cbn [map]. apply Is_true_true in Hm. rewrite Hm.
  destruct r as [|a [|b [|c r]]]; try discriminate.
  eexists. reflexivity.
Qed.

Lemma selected_new_snapshot (url : string) (t : Z) (content : string)
    (snapshots : list (list value)) :
  filter (Sql.row_matches 0 url) snapshots = [] ->
  map (fun r => [Sql.cell 2 r])
      (filter (Sql.row_matches 0 url) (snapshots ++ [snapshot_row url t content]))
  = [[Some (get_content_hash content)]].
Proof.
  intros Hfree. rewrite filter_app, Hfree, filter_cons, filter_nil.
  rewrite decide_True; [reflexivity|].
  apply Is_true_true, bool_decide_eq_true. reflexivity.
Qed.



(** X20: when the first of two runs of [monitor_website_changes] stores a new
    page and stamps [last_checked] at a whole second, the second run raises a
    [ValueError] on reading it back, before any request and before it reads
    the clock; the store stays as the first run left it. *)
Theorem second_run_after_whole_second_raises
    (url : string) (w : Z) (e : env) (st : state) (content : string)
    (snapshots watched : list (list value)) :
  db st !! "websites"%string
    = Some (Table snapshot_columns (Some "url"%string) snapshots) ->
  db st !! "urls"%string = Some (Table watch_columns (Some "url"%string) watched) ->
  filter (Sql.row_matches 0 url) snapshots = [] ->
  Some url ∈ map (Sql.cell 0) watched ->
  Forall (fun r => length r = 2%nat) watched ->
  response_text (network e (requests st) url) = content ->
  content <> EmptyString ->
  clock e (S (ticks st)) mod Datetime.us_per_second = 0 ->
  (monitor_website_changes [url] w;; monitor_website_changes [url] w) e st
  = (Raise ValueError, snd (monitor_website_changes [url] w e st)).
Proof.
  intros Hweb Hwatch Hfree Hlisted Hwide Hbody Hnonempty Hus.
  rewrite bind_run, !monitor_single_url.
  rewrite (monitor_url_new_page url w (Stats 0 0 0 0) e st content snapshots
             watched Hweb Hwatch Hfree Hlisted Hbody Hnonempty).
  cbn [snd]. rewrite monitor_single_url. unfold monitor_url. rewrite bind_run.
  destruct (selected_after_refresh
              (Some (Datetime.isoformat (clock e (S (ticks st))))) url watched
              Hwide Hlisted) as [more Hstamp].
  match goal with
  | |- context [should_fetch_content url w e ?s] =>
      pose proof (should_fetch_content_unparsed url w e s
                    (Some (get_content_hash content))
                    (Datetime.isoformat (clock e (S (ticks st)))) [] more) as Hfail
  end.
  cbn [db ticks requests] in Hfail. rewrite Hfail.
  - reflexivity.
  - rewrite (select_content_hash
               (snapshots ++ [snapshot_row url (clock e (ticks st)) content]) url)
      by (rewrite lookup_insert_ne by discriminate; apply lookup_insert_eq).
    rewrite selected_new_snapshot by exact Hfree. reflexivity.
  - rewrite (select_last_checked _ url _ (lookup_insert_eq _ _ _)).
    f_equal. exact Hstamp.
  - apply TimestampFacts.strptime_isoformat_whole_second, Hus.
Qed.

Lemma second_run_after_whole_second_witness :
  (monitor_website_changes [page] 60;; monitor_website_changes [page] 60)
    (Env (fun n => checked_at - 500000 + Z.of_nat n * Datetime.us_per_minute)
         (fun _ _ => Reply 200 "hello"))
    (State (tracked_store [] [[Some page; Some (Datetime.isoformat checked_at)]] [])
           0 0)
  = (Raise ValueError,
     snd (monitor_website_changes [page] 60
            (Env (fun n => checked_at - 500000 + Z.of_nat n * Datetime.us_per_minute)
                 (fun _ _ => Reply 200 "hello"))
            (State (tracked_store []
                      [[Some page; Some (Datetime.isoformat checked_at)]] [])
                   0 0))).
Proof.
  apply (second_run_after_whole_second_raises page 60
           (Env (fun n => checked_at - 500000 + Z.of_nat n * Datetime.us_per_minute)
                (fun _ _ => Reply 200 "hello"))
           (State (tracked_store []
                     [[Some page; Some (Datetime.isoformat checked_at)]] []) 0 0)
           "hello" [] [[Some page; Some (Datetime.isoformat checked_at)]]).
  - reflexivity.
  - reflexivity.
  - reflexivity.
  - left.
  - repeat constructor.
  - reflexivity.
  - discriminate.
  - vm_compute. reflexivity.
Defined.

(** ** A request that ends in another exception *)

(** X21: an exception that is not a [RequestException], raised while a
    triggered fetch is under way, is caught nowhere:
    [monitor_website_changes] ends with it at that URL, after the request is
    counted and without statistics; the store is as it was before the URL
    and the URLs after it are not visited. *)
Theorem escaped_exception_ends_the_run
    (url : string) (rest : list string) (w : Z) (e : env) (st st1 : state)
    (old : value) (x : exn) :
  should_fetch_content url w e st = (Return (true, old), st1) ->
  network e (requests st1) url = Escaped x ->
  monitor_website_changes (url :: rest) w e st
  = (Raise x, State (db st) (ticks st1) (S (requests st1))).
Proof.
  intros Hfetch Hescaped. unfold monitor_website_changes.
  rewrite monitor_loop_cons.
  rewrite (monitor_url_escaped url w (Stats 0 0 0 0) e st st1 old x
             Hfetch Hescaped).
  reflexivity.
Qed.

Lemma escaped_exception_witness :
  monitor_website_changes [unreachable_page; page] 60
    (world_after 61 (Escaped ValueError))
    (State (tracked_store [snapshot_row page checked_at "v1"]
              [[Some unreachable_page; Some (Datetime.isoformat checked_at)];
               [Some page; Some (Datetime.isoformat checked_at)]] []) 0 0)
  = (Raise ValueError,
     State (tracked_store [snapshot_row page checked_at "v1"]
              [[Some unreachable_page; Some (Datetime.isoformat checked_at)];
               [Some page; Some (Datetime.isoformat checked_at)]] []) 0 1).
Proof.
  apply (escaped_exception_ends_the_run unreachable_page [page] 60
           (world_after 61 (Escaped ValueError))
           (State (tracked_store [snapshot_row page checked_at "v1"]
                     [[Some unreachable_page; Some (Datetime.isoformat checked_at)];
                      [Some page; Some (Datetime.isoformat checked_at)]] []) 0 0)
           (State (tracked_store [snapshot_row page checked_at "v1"]
                     [[Some unreachable_page; Some (Datetime.isoformat checked_at)];
                      [Some page; Some (Datetime.isoformat checked_at)]] []) 0 0)
           None ValueError).
  - vm_compute. reflexivity.
  - reflexivity.
Defined.
